(** * Combat engine of the multi-agent battle game

    A shallow embedding of [agents/team_manager_agent.py],
    [agents/team_lead_agent.py], [game/game.py] and
    [utils/agent_model_factory.py].

    Conventions of the embedding.
    - A manager's [my_team] is a Python dict whose keys are the [enumerate]
      indices 0..n-1, inserted in that order and never deleted; it is a
      [list hero] read by position, and [my_team.values()] is the list.
      Heroes are dict objects mutated in place through references; a
      reference is the position of the hero in the list, and every read goes
      back to the list.
    - Every language-model call is an oracle: a function argument that yields
      the parsed answer, or [None] when the chain raised.  The answers carry
      the types the source declares for them ([SkillAttributes],
      [TeamLeadDecision], the JSON response format of the manager prompt).
    - [random.random() < 0.30] is an oracle giving the outcome of the draw.
    - Python integers are [Z].  The products with the float constants
      [0.30], [0.70], [1.4] and with [math.sqrt] are computed on the kernel's
      binary64 floats, as CPython computes them, and truncated by [int].
    - An uncaught Python exception is the [Exn] outcome, carrying the state
      reached when it was raised. *)

From Stdlib Require Import ZArith QArith Lia Ascii String Sorted.
From Stdlib Require Import PrimFloat FloatOps FloatAxioms SpecFloat Uint63.
From stdpp Require Import base option list gmap strings.

Set Warnings "-inexact-float".
Local Open Scope Z_scope.

(** ** Strings: [str.lower] and the [in] operator (ASCII text)

    A string is a sequence of code points below 256.  [lower] is [str.lower]
    on ASCII text (code points below 128), where only the letters A to Z
    change; Python also changes letters beyond ASCII, so two texts that
    [lower] makes equal are equal under [str.lower], and the converse holds
    for ASCII text ([ascii_text] below). *)

Module Py.

Definition lower_ascii (c : ascii) : ascii :=
  let n := N_of_ascii c in
  if ((65 <=? n) && (n <=? 90))%N then ascii_of_N (n + 32) else c.

Fixpoint lower (s : string) : string :=
  match s with
  | EmptyString => EmptyString
  | String c r => String (lower_ascii c) (lower r)
  end.

(** [needle in hay] *)
Fixpoint contains (needle hay : string) : bool :=
  String.prefix needle hay ||
  match hay with
  | EmptyString => false
  | String _ r => contains needle r
  end.

(** ** Floats: [float(z)], [int(f)], [math.sqrt] *)

Inductive exn := KeyError | AttributeError | OverflowError | ValueError.

(** int to float conversion rounds to nearest, ties to even; an int beyond the
    double range raises [OverflowError] (the rounding gives infinity). *)
Definition float_of_int (z : Z) : exn + float :=
  let f := SF2Prim (SpecFloat.binary_normalize prec emax z 0 false) in
  if is_infinity f then inl OverflowError else inr f.

(** [int(f)] truncates towards zero; it raises [ValueError] on a NaN and
    [OverflowError] on an infinity.  [f] is [m * 2^(e-53)] with [m] the
    53-bit mantissa. *)
Definition int (f : float) : exn + Z :=
  if is_nan f then inl ValueError
  else if is_infinity f then inl OverflowError
  else
    let (r, e) := FloatOps.Z.frexp f in
    let m := Uint63.to_Z (normfr_mantissa r) in
    let mag := Z.shiftl m (e - 53) in
    inr (if get_sign f then - mag else mag).

(** [int(z * c)] for an int [z] and a float [c]. *)
Definition int_mul (z : Z) (c : float) : exn + Z :=
  match float_of_int z with
  | inl e => inl e
  | inr f => int (f * c)
  end.

(** [math.sqrt]: [ValueError] on a negative argument. *)
Definition sqrt (x : float) : exn + float :=
  if PrimFloat.ltb x 0 then inl ValueError else inr (PrimFloat.sqrt x).

End Py.

(** ** Outcomes of a call that runs on a state [S] *)

Inductive outcome (S A : Type) : Type :=
| Ret (a : A) (s : S)
| Exn (e : Py.exn) (s : S).
Arguments Ret {S A} a s.
Arguments Exn {S A} e s.

Definition final_state {S A} (o : outcome S A) : S :=
  match o with Ret _ s => s | Exn _ s => s end.

Definition returned {S A} (o : outcome S A) : option A :=
  match o with Ret a _ => Some a | Exn _ _ => None end.

Definition obind {S A B} (o : outcome S A) (k : A -> S -> outcome S B) : outcome S B :=
  match o with
  | Ret a s => k a s
  | Exn e s => Exn e s
  end.

(** ** Heroes and rosters *)

Inductive hero_status := alive | dead.

Global Instance hero_status_eq_dec : EqDecision hero_status.
Proof. solve_decision. Defined.

Record hero := mk_hero {
  idx : nat;
  name : string;
  health : Z;
  attack_power : Z;
  status : hero_status;
  revealed : bool;
  subtle_shield : bool;
  accumulated_damage : Z;
  buff_threshold : Z;
  passive : string;
  active : string
}.

Definition set_health (v : Z) (h : hero) : hero :=
  mk_hero (idx h) (name h) v (attack_power h) (status h) (revealed h)
          (subtle_shield h) (accumulated_damage h) (buff_threshold h)
          (passive h) (active h).
Definition set_attack_power (v : Z) (h : hero) : hero :=
  mk_hero (idx h) (name h) (health h) v (status h) (revealed h)
          (subtle_shield h) (accumulated_damage h) (buff_threshold h)
          (passive h) (active h).
Definition set_status (v : hero_status) (h : hero) : hero :=
  mk_hero (idx h) (name h) (health h) (attack_power h) v (revealed h)
          (subtle_shield h) (accumulated_damage h) (buff_threshold h)
          (passive h) (active h).
Definition set_revealed (v : bool) (h : hero) : hero :=
  mk_hero (idx h) (name h) (health h) (attack_power h) (status h) v
          (subtle_shield h) (accumulated_damage h) (buff_threshold h)
          (passive h) (active h).
Definition set_subtle_shield (v : bool) (h : hero) : hero :=
  mk_hero (idx h) (name h) (health h) (attack_power h) (status h) (revealed h)
          v (accumulated_damage h) (buff_threshold h)
          (passive h) (active h).
Definition set_accumulated_damage (v : Z) (h : hero) : hero :=
  mk_hero (idx h) (name h) (health h) (attack_power h) (status h) (revealed h)
          (subtle_shield h) v (buff_threshold h)
          (passive h) (active h).
Definition set_buff_threshold (v : Z) (h : hero) : hero :=
  mk_hero (idx h) (name h) (health h) (attack_power h) (status h) (revealed h)
          (subtle_shield h) (accumulated_damage h) v
          (passive h) (active h).

Definition is_alive (h : hero) : bool := bool_decide (status h = alive).
Definition is_dead (h : hero) : bool := bool_decide (status h = dead).

(** [key in self.my_team] and [self.my_team[key]] for an int key. *)
Definition my_team_get (t : list hero) (k : Z) : option (nat * hero) :=
  if k <? 0 then None
  else match t !! Z.to_nat k with
       | Some h => Some (Z.to_nat k, h)
       | None => None
       end.

(** The hero a reference points to; a reference always comes from the roster,
    so the default is never read. *)
Definition deref (t : list hero) (i : nat) : hero :=
  default (mk_hero i "" 0 0 dead false false 0 0 "" "") (t !! i).

(** ** The team manager ([TeamManagerAgent]) *)

(** One entry of the generated team data: the hero's two ability texts and,
    after difficulty scaling, its starting stats. *)
Record hero_info := mk_info {
  info_passive : string;
  info_active : string;
  initial_health : option Z;
  initial_attack_power : option Z
}.

(** [initialize_team] on a fresh manager ([my_team] starts empty). *)
Definition initialize_team (generated_team_data : list (string * hero_info)) : list hero :=
  imap (fun idx '(name, hero_info) =>
          mk_hero idx name
                  (default 400 (initial_health hero_info))
                  (default 200 (initial_attack_power hero_info))
                  alive false false 0 200
                  (info_passive hero_info) (info_active hero_info))
       generated_team_data.

Definition _check_death (h : hero) : hero :=
  if health h <=? 0 then set_status dead (set_health 0 h) else h.

(** [hero["health"] -= damage] followed by [_check_death(hero)]. *)
Definition lose_health (damage : Z) (h : hero) : hero :=
  _check_death (set_health (health h - damage) h).

Definition update_hero_stats (target_id : Z) (damage_amount : Z) (t : list hero) : list hero :=
  match my_team_get t target_id with
  | None => t
  | Some (i, _) => alter (lose_health damage_amount) i t
  end.

(** The manager's answer to "Select a hero and move." (the JSON response
    format of the system prompt); a field the model left out is [None]. *)
Record manager_response := mk_response {
  selected_hero_id : option Z;
  hero_name : option string;
  selected_skill : option string;
  target_type : option string;
  teammate_target_id : option Z
}.

Definition _execute_internal_skill (decision : manager_response) (t : list hero)
  : outcome (list hero) unit :=
  match selected_skill decision with
  | None => Exn Py.AttributeError t
  | Some s =>
    let skill := Py.lower s in
    match teammate_target_id decision with
    | None => Ret () t
    | Some target_id =>
      match my_team_get t target_id with
      | None => Exn Py.KeyError t
      | Some (target, _) =>
        match selected_hero_id decision ≫= my_team_get t with
        | None => Exn Py.KeyError t
        | Some (actor, _) =>
          if Py.contains "infight" skill then
            if bool_decide (Some target_id = selected_hero_id decision) then Ret () t
            else
              let t1 := alter (lose_health 75) target t in
              Ret () (alter (fun h => set_attack_power (attack_power h + 140) h) actor t1)
          else if Py.contains "subtle" skill then
            Ret () (alter (fun h => set_attack_power (attack_power h + 20)
                                      (set_subtle_shield true h)) target t)
          else Ret () t
        end
      end
    end
  end.

Inductive action_status := ACTIVE | INTERNAL_ACTION.

(** What [select_hero_for_turn] returns besides [None]: the dicts
    [{"status": "DEFEAT"}] and [{"status": "ERROR"}], or the response with
    [current_ap] and [status] added. *)
Inductive manager_decision :=
| DEFEAT
| ERROR
| Decision (response : manager_response) (current_ap : Z) (st : action_status).

Definition select_hero_for_turn (llm : list hero -> option manager_response)
    (t : list hero) : option manager_decision * list hero :=
  match filter (fun h => status h = alive) t with
  | [] => (Some DEFEAT, t)
  | _ =>
    match llm t with
    | None => (Some ERROR, t)
    | Some response =>
      match selected_hero_id response ≫= my_team_get t with
      | None => (None, t)
      | Some (_, actor) =>
        let current_ap := attack_power actor in
        match selected_skill response with
        | None => (Some ERROR, t)
        | Some s =>
          let selected_skill := Py.lower s in
          if bool_decide (target_type response = Some "enemy")
             && (Py.contains "infight" selected_skill || Py.contains "subtle" selected_skill)
          then (None, t)
          else if bool_decide (target_type response = Some "teammate") then
            match _execute_internal_skill response t with
            | Ret _ t' => (Some (Decision response current_ap INTERNAL_ACTION), t')
            | Exn _ t' => (Some ERROR, t')
            end
          else (Some (Decision response current_ap ACTIVE), t)
        end
      end
    end
  end.

(** *** Incoming attacks *)

(** The parsed skill, with the fields and types of the pydantic model
    [SkillAttributes]. *)
Record SkillAttributes := mk_skill {
  damage_amount : Z;
  is_aoe : bool;
  targets_lowest : bool
}.

(** The attack payload built by the attacking team lead. *)
Record attack_info := mk_attack {
  attacker_team : string;
  acting_hero : string;
  skill : string;
  attacker_ap : Z;
  target_position : Z;
  guessed_identity : string
}.

Record feedback := mk_feedback {
  guess_correct : bool;
  actual_identity : option string;
  counter_damage : Z;
  target_health : Z;
  target_status : hero_status;
  all_dead_positions : list nat
}.

(** References to the heroes of the roster that satisfy [P], in the order of
    [my_team.values()]. *)
Definition positions (P : hero -> bool) (t : list hero) : list nat :=
  List.filter (fun i => P (deref t i)) (seq 0 (length t)).

(** The first correct guess: the 50 global damage, hero by hero. *)
Definition take_global (h : hero) : hero :=
  if is_alive h then lose_health 50 h else h.

Definition global_breach (pos : nat) (t : list hero) : list hero :=
  take_global <$> alter (set_revealed true) pos t.

(** [min(alive_mates, key=lambda x: x["health"])]: the first minimum. *)
Fixpoint lowest_hp (t : list hero) (best : nat) (rest : list nat) : nat :=
  match rest with
  | [] => best
  | i :: r =>
      if health (deref t i) <? health (deref t best)
      then lowest_hp t i r else lowest_hp t best r
  end.

(** The targets of the skill and the damage it deals; [int(attacker_ap * 1.4)]
    may raise. *)
Definition determine_targets (t : list hero) (pos : nat) (ap : Z)
    (parsed_skill : SkillAttributes) : Py.exn + (list nat * Z) :=
  let raw_damage := damage_amount parsed_skill in
  if is_aoe parsed_skill then inr (positions is_alive t, raw_damage)
  else if targets_lowest parsed_skill then
    match positions is_alive t with
    | [] => inr ([], raw_damage)
    | i :: r =>
        let lowest_hp_hero := lowest_hp t i r in
        if health (deref t lowest_hp_hero) <? 160 then
          match Py.int_mul ap 1.4 with
          | inl e => inl e
          | inr new_damage =>
              inr ([lowest_hp_hero],
                   if raw_damage <? new_damage then new_damage else raw_damage)
          end
        else inr ([lowest_hp_hero], raw_damage)
    end
  else if is_alive (deref t pos) then inr ([pos], raw_damage)
  else inr ([], raw_damage).

(** The other living members of the roster, as the Deflect passive and the
    Counter passive list them. *)
Definition other_alive (hero_idx : nat) (m : hero) : bool :=
  is_alive m && negb (idx m =? hero_idx)%nat.

(** Deflect hands [damage_per_mate] to each mate in turn. *)
Definition share_damage (damage_per_mate : Z) (alive_mates : list nat)
    (t : list hero) : list hero :=
  foldl (fun t mate => alter (lose_health damage_per_mate) mate t) t alive_mates.

(** The Reduce / Deflect branch of the pipeline: the damage left for the hero
    and the roster after the shares were handed out. *)
Definition reduce_or_deflect (dodged : bool) (passive_desc : string)
    (hero_idx : nat) (damage_to_take : Z) (t : list hero) : outcome (list hero) Z :=
  if Py.contains "reduce" passive_desc && dodged then Ret 0 t
  else if Py.contains "deflect" passive_desc && (0 <? damage_to_take) then
    match Py.int_mul damage_to_take 0.30 with
    | inl e => Exn e t
    | inr self_damage =>
      match Py.int_mul damage_to_take 0.70 with
      | inl e => Exn e t
      | inr share_damage_total =>
        let alive_mates := positions (other_alive hero_idx) t in
        match alive_mates with
        | [] => Ret self_damage t
        | _ =>
            let damage_per_mate := share_damage_total / Z.of_nat (length alive_mates) in
            Ret self_damage (share_damage damage_per_mate alive_mates t)
        end
      end
    end
  else Ret damage_to_take t.

(** The Subtle shield: 30% of the damage is left and the shield is used up. *)
Definition consume_shield (i : nat) (damage_to_take : Z) (t : list hero)
  : outcome (list hero) Z :=
  if subtle_shield (deref t i) && (0 <? damage_to_take) then
    match Py.int_mul damage_to_take 0.30 with
    | inr reduced => Ret reduced (alter (set_subtle_shield false) i t)
    | inl e => Exn e t
    end
  else Ret damage_to_take t.

(** The Redguard tracker. *)
Definition track_deflect (damage_to_take : Z) (h : hero) : hero :=
  let h1 := set_accumulated_damage (accumulated_damage h + damage_to_take) h in
  if buff_threshold h1 <=? accumulated_damage h1
  then set_buff_threshold (buff_threshold h1 + 200)
         (set_attack_power (attack_power h1 + 40) h1)
  else h1.

(** The rest of the pipeline touches the hit hero alone: the damage is
    applied, then Deflect bookkeeping, Counter, Explode, Heal and the death
    check.  [low_mate] says whether another living member of the roster has
    less than 120 health; the result is the hero and the running counter
    damage. *)
Definition take_hit (passive_desc : string) (low_mate : bool) (damage_to_take : Z)
    (h : hero) (total_counter_damage : Z) : hero * Z :=
  let h1 := if 0 <? damage_to_take
            then set_health (health h - damage_to_take) h else h in
  let h2 := if Py.contains "deflect" passive_desc
            then track_deflect damage_to_take h1 else h1 in
  let c1 := if Py.contains "counter" passive_desc && low_mate
            then total_counter_damage + 30 else total_counter_damage in
  let c2 := if Py.contains "explode" passive_desc && (0 <? damage_to_take)
               && ((0 <? damage_to_take) && (0 <? health h2))
            then c1 + 40 else c1 in
  let h3 := if Py.contains "explode" passive_desc && (0 <? damage_to_take)
               && ((health h2 <? 120) && (0 <? health h2))
            then set_attack_power (attack_power h2 + 15) h2 else h2 in
  let h4 := if Py.contains "heal:" passive_desc && (0 <? health h3)
               && (0 <? damage_to_take)
            then set_health (health h3 + 20) h3 else h3 in
  (_check_death h4, c2).

(** The pipeline of a hero from the shield on, with the damage
    [damage_to_take] that Reduce and Deflect left for it. *)
Definition shield_and_react (passive_desc : string) (i : nat) (damage_to_take : Z)
    (t1 : list hero) (total_counter_damage : Z) : outcome (list hero) Z :=
  obind (consume_shield i damage_to_take t1)
    (fun damage_to_take t2 =>
       let hero := deref t2 i in
       let low_mate :=
         existsb (fun h => other_alive (idx hero) h && (health h <? 120)) t2 in
       let '(hero', total) :=
         take_hit passive_desc low_mate damage_to_take hero total_counter_damage in
       Ret total (<[i := hero']> t2)).

(** One turn of the loop [for hero in targets]. *)
Definition hit_target (dodge : nat -> bool) (raw_damage : Z) (i : nat)
    (t : list hero) (total_counter_damage : Z) : outcome (list hero) Z :=
  let passive_desc := Py.lower (passive (deref t i)) in
  obind (reduce_or_deflect (dodge i) passive_desc (idx (deref t i)) raw_damage t)
    (fun damage_to_take t1 =>
       shield_and_react passive_desc i damage_to_take t1 total_counter_damage).

Fixpoint hit_targets (dodge : nat -> bool) (raw_damage : Z) (targets : list nat)
    (t : list hero) (total_counter_damage : Z) : outcome (list hero) Z :=
  match targets with
  | [] => Ret total_counter_damage t
  | i :: rest =>
      obind (hit_target dodge raw_damage i t total_counter_damage)
            (fun total t' => hit_targets dodge raw_damage rest t' total)
  end.

(** The feedback dict returned to the attacker. *)
Definition make_feedback (correct : bool) (actual : string) (target_pos : nat)
    (total_counter_damage : Z) (t : list hero) : feedback :=
  mk_feedback correct
              (if correct then Some actual else None)
              total_counter_damage
              (health (deref t target_pos))
              (status (deref t target_pos))
              (idx <$> List.filter is_dead t).

(** The identity check: whether the guess is right, and the roster after the
    global damage of a first correct guess. *)
Definition identity_check (attack : attack_info) (target_pos : nat)
    (target_hero : hero) (t : list hero) : bool * list hero :=
  let correct :=
    bool_decide (Py.lower (guessed_identity attack) = Py.lower (name target_hero)) in
  (correct,
   if correct && negb (revealed target_hero) then global_breach target_pos t else t).

(** The parsed skill resolved against the roster: targets, the pipeline of
    each target, the feedback. *)
Definition resolve_skill (dodge : nat -> bool) (ap : Z) (correct : bool)
    (actual : string) (target_pos : nat) (parsed_skill : SkillAttributes)
    (t1 : list hero) : outcome (list hero) (option feedback) :=
  match determine_targets t1 target_pos ap parsed_skill with
  | inl e => Exn e t1
  | inr (targets, raw_damage) =>
      obind (hit_targets dodge raw_damage targets t1 0)
        (fun total_counter_damage t2 =>
           Ret (Some (make_feedback correct actual target_pos total_counter_damage t2)) t2)
  end.

(** [process_incoming_attack].  [parse] is [_parse_skill_with_llm] of this
    call, [dodge i] the outcome of [random.random() < 0.30] drawn for the
    hero at position [i]. *)
Definition process_incoming_attack
    (parse : string -> Z -> Z -> option SkillAttributes) (dodge : nat -> bool)
    (attack : attack_info) (t : list hero) : outcome (list hero) (option feedback) :=
  match my_team_get t (target_position attack) with
  | None => Ret None t
  | Some (target_pos, target_hero) =>
    let '(correct, t1) := identity_check attack target_pos target_hero t in
    let current_target_hp := health (deref t1 target_pos) in
    match parse (skill attack) (attacker_ap attack) current_target_hp with
    | None => Ret None t1
    | Some parsed_skill =>
        resolve_skill dodge (attacker_ap attack) correct (name target_hero)
                      target_pos parsed_skill t1
    end
  end.

(** ** The team lead ([TeamLeadAgent]) *)

(** One entry of [known_enemies]; [None] is the string "unknown". *)
Record intel := mk_intel {
  intel_name : string;
  intel_health : option Z;
  intel_status : option hero_status
}.

(** The keys [update_intel] reads from the dict it is given: the whole
    feedback of an attack, or [{"target_status": "dead", "target_health": 0}]. *)
Record intel_report := mk_report {
  report_guess_correct : bool;
  report_actual_identity : option string;
  report_target_health : option Z;
  report_target_status : option hero_status
}.

Definition report_of_feedback (f : feedback) : intel_report :=
  mk_report (guess_correct f) (actual_identity f)
            (Some (target_health f)) (Some (target_status f)).

Definition dead_report : intel_report := mk_report false None (Some 0) (Some dead).

Definition update_intel (position : Z) (fb : intel_report)
    (known_enemies : gmap Z intel) : gmap Z intel :=
  let e0 := default (mk_intel "unknown" None None) (known_enemies !! position) in
  let e1 := match report_actual_identity fb with
            | Some n =>
                if report_guess_correct fb && negb (bool_decide (n = ""))
                then mk_intel n (intel_health e0) (intel_status e0) else e0
            | None => e0
            end in
  let e2 := match report_target_health fb with
            | Some v => mk_intel (intel_name e1) (Some v) (intel_status e1)
            | None => e1
            end in
  let e3 := match report_target_status fb with
            | Some v => mk_intel (intel_name e2) (intel_health e2) (Some v)
            | None => e2
            end in
  <[position := e3]> known_enemies.

(** The answer of the lead's model, with the fields of [TeamLeadDecision]. *)
Record TeamLeadDecision := mk_lead_decision {
  lead_target_position : Z;
  lead_guessed_identity : string
}.

Inductive lead_action :=
| SURRENDER
| Attack (payload : attack_info).

Definition get_turn_decision (team_name : string)
    (llm : gmap Z intel -> string -> string -> option TeamLeadDecision)
    (known_enemies : gmap Z intel) (manager_response : manager_decision)
  : option lead_action :=
  match manager_response with
  | DEFEAT => Some SURRENDER
  | ERROR => None
  | Decision response current_ap _ =>
    match hero_name response, selected_skill response with
    | Some acting_hero, Some skill =>
      match llm known_enemies acting_hero skill with
      | None => None
      | Some decision =>
          Some (Attack (mk_attack team_name acting_hero skill current_ap
                                  (lead_target_position decision)
                                  (lead_guessed_identity decision)))
      end
    | _, _ => None
    end
  end.

(** ** The game ([game.py]) *)

Inductive side := TeamA | TeamB.

Global Instance side_eq_dec : EqDecision side.
Proof. solve_decision. Defined.

Definition side_name (s : side) : string :=
  match s with TeamA => "Team A" | TeamB => "Team B" end.

Definition opponent (s : side) : side :=
  match s with TeamA => TeamB | TeamB => TeamA end.

(** The two managers' rosters and the two leads' ledgers. *)
Record game := mk_game {
  manager_a : list hero;
  manager_b : list hero;
  lead_a : gmap Z intel;
  lead_b : gmap Z intel
}.

Definition manager (s : side) (g : game) : list hero :=
  match s with TeamA => manager_a g | TeamB => manager_b g end.

Definition lead (s : side) (g : game) : gmap Z intel :=
  match s with TeamA => lead_a g | TeamB => lead_b g end.

Definition set_manager (s : side) (t : list hero) (g : game) : game :=
  match s with
  | TeamA => mk_game t (manager_b g) (lead_a g) (lead_b g)
  | TeamB => mk_game (manager_a g) t (lead_a g) (lead_b g)
  end.

Definition set_lead (s : side) (k : gmap Z intel) (g : game) : game :=
  match s with
  | TeamA => mk_game (manager_a g) (manager_b g) k (lead_b g)
  | TeamB => mk_game (manager_a g) (manager_b g) (lead_a g) k
  end.

(** The oracles of an episode.  The side is the team whose agent is asked and
    the number is the round ([turn_counter]); each agent is asked at most once
    per side and round. *)
Record oracles := mk_oracles {
  manager_llm : side -> nat -> list hero -> option manager_response;
  lead_llm : side -> nat -> gmap Z intel -> string -> string -> option TeamLeadDecision;
  skill_llm : side -> nat -> string -> Z -> Z -> option SkillAttributes;
  reduce_roll : side -> nat -> nat -> bool
}.

Inductive turn_result := GAME_OVER | CONTINUE.

(** [manager_decision.get("selected_hero_id")] *)
Definition decision_hero_id (d : manager_decision) : option Z :=
  match d with
  | Decision response _ _ => selected_hero_id response
  | _ => None
  end.

(** The recoil of [perform_turn]: positive counter damage goes to the acting
    hero through [update_hero_stats]; [None] is the aborted turn of a missing
    attacker id. *)
Definition recoil (counter_damage : Z) (attacker_id : option Z) (team : list hero)
  : option (list hero) :=
  if 0 <? counter_damage then
    match attacker_id with
    | Some attacker_id => Some (update_hero_stats attacker_id counter_damage team)
    | None => None
    end
  else Some team.

(** The second half of [perform_turn]: the lead's decision, the attack on
    the other team, the recoil and the update of the ledger. *)
Definition dispatch_attack (o : oracles) (active : side) (round : nat) (g1 : game)
    (decision : manager_decision) : outcome game (option turn_result) :=
  let passive := opponent active in
  match get_turn_decision (side_name active) (lead_llm o active round)
                          (lead active g1) decision with
  | None => Ret None g1
  | Some SURRENDER => Ret (Some GAME_OVER) g1
  | Some (Attack attack_payload) =>
    match process_incoming_attack (skill_llm o passive round)
            (reduce_roll o passive round) attack_payload (manager passive g1) with
    | Exn e team' => Exn e (set_manager passive team' g1)
    | Ret None team' => Ret None (set_manager passive team' g1)
    | Ret (Some feedback) team' =>
      let g2 := set_manager passive team' g1 in
      match recoil (counter_damage feedback) (decision_hero_id decision)
                   (manager active g2) with
      | None => Ret None g2
      | Some team'' =>
        let g3 := set_manager active team'' g2 in
        let known := update_intel (target_position attack_payload)
                                  (report_of_feedback feedback) (lead active g3) in
        let known :=
          foldl (fun k dead_pos => update_intel (Z.of_nat dead_pos) dead_report k)
                known (all_dead_positions feedback) in
        Ret (Some CONTINUE) (set_lead active known g3)
      end
    end
  end.

Definition perform_turn (o : oracles) (active : side) (round : nat) (g : game)
  : outcome game (option turn_result) :=
  let '(manager_decision, team) :=
    select_hero_for_turn (manager_llm o active round) (manager active g) in
  let g1 := set_manager active team g in
  match manager_decision with
  | None => Ret None g1
  | Some ERROR => Ret None g1
  | Some (Decision _ _ INTERNAL_ACTION) => Ret (Some CONTINUE) g1
  | Some decision => dispatch_attack o active round g1 decision
  end.

Definition get_total_team_health (t : list hero) : Z :=
  foldr Z.add 0 (health <$> t).

Definition get_alive_count (t : list hero) : nat :=
  length (filter (fun h => status h = alive) t).

(** *** Difficulty *)

Definition scale_info (health attack : Z) (i : hero_info) : hero_info :=
  mk_info (info_passive i) (info_active i) (Some health) (Some attack).

Definition apply_difficulty_scaling (team_data : list (string * hero_info))
    (difficulty_ratio : float) : Py.exn + list (string * hero_info) :=
  if PrimFloat.eqb difficulty_ratio 1.0 then inr team_data
  else
    match Py.sqrt difficulty_ratio with
    | inl e => inl e
    | inr scaling_factor =>
      match team_data with
      | [] => inr []
      | _ =>
        match Py.int_mul 400 scaling_factor, Py.int_mul 200 scaling_factor with
        | inr h, inr a => inr (prod_map id (scale_info h a) <$> team_data)
        | inl e, _ => inl e
        | _, inl e => inl e
        end
      end
    end.

(** *** One episode *)

Inductive verdict := Team_A | Team_B | Draw.

Global Instance verdict_eq_dec : EqDecision verdict.
Proof. solve_decision. Defined.

Definition label (s : side) : verdict :=
  match s with TeamA => Team_A | TeamB => Team_B end.

Record episode := mk_episode {
  winner : verdict;
  damage_dealt_by_a : Z;
  damage_dealt_by_b : Z
}.

(** The [while game_running] loop, for at most [fuel] rounds.  It ends with
    [Ret None] when a turn returned [None], with [Ret (Some w)] when it broke
    out with [winner = w], and with [Exn] when a turn raised; [None] says
    that the fuel ran out. *)
Fixpoint battle (o : oracles) (fuel : nat) (turn_counter : nat) (g : game)
  : option (outcome game (option verdict)) :=
  match fuel with
  | O => None
  | S fuel =>
    match perform_turn o TeamA turn_counter g with
    | Exn e g => Some (Exn e g)
    | Ret None g => Some (Ret None g)
    | Ret (Some GAME_OVER) g => Some (Ret (Some Team_B) g)
    | Ret (Some CONTINUE) g =>
      match perform_turn o TeamB turn_counter g with
      | Exn e g => Some (Exn e g)
      | Ret None g => Some (Ret None g)
      | Ret (Some GAME_OVER) g => Some (Ret (Some Team_A) g)
      | Ret (Some CONTINUE) g => battle o fuel (S turn_counter) g
      end
    end
  end.

(** The post-game statistics of [run_game_loop]. *)
Definition post_game (difficulty : float) (g : game) : Py.exn + episode :=
  let alive_a := get_alive_count (manager_a g) in
  let alive_b := get_alive_count (manager_b g) in
  let winner := if (alive_b <? alive_a)%nat then Team_A
                else if (alive_a <? alive_b)%nat then Team_B
                else Draw in
  let start_hp_a := 1600 in
  let start_hp_b :=
    if PrimFloat.eqb difficulty 1.0 then inr 1600
    else match Py.sqrt difficulty with
         | inl e => inl e
         | inr s => Py.int_mul 1600 s
         end in
  match start_hp_b with
  | inl e => inl e
  | inr start_hp_b =>
      inr (mk_episode winner
                      (start_hp_b - get_total_team_health (manager_b g))
                      (start_hp_a - get_total_team_health (manager_a g)))
  end.

(** What [run_game_loop] does: [Finished r] is [return r] (with [None] for a
    skipped episode), [Raised] an exception that escapes, [Running] a loop that
    is still going when the fuel is spent. *)
Inductive run :=
| Finished (stats : option episode)
| Raised (e : Py.exn)
| Running.

Definition run_game_loop (o : oracles) (fuel : nat)
    (team_a_data team_b_data : option (list (string * hero_info)))
    (difficulty : float) : run :=
  match team_a_data, team_b_data with
  | None, _ | Some [], _ => Finished None
  | Some _, None | Some _, Some [] => Finished None
  | Some team_a_data, Some team_b_data =>
    match (if PrimFloat.eqb difficulty 1.0 then inr team_b_data
           else apply_difficulty_scaling team_b_data difficulty) with
    | inl e => Raised e
    | inr team_b_data =>
      let g := mk_game (initialize_team team_a_data) (initialize_team team_b_data) ∅ ∅ in
      match battle o fuel 1 g with
      | None => Running
      | Some (Exn e _) => Raised e
      | Some (Ret None _) => Finished None
      | Some (Ret (Some _) g) =>
        match post_game difficulty g with
        | inl e => Raised e
        | inr stats => Finished (Some stats)
        end
      end
    end
  end.

(** *** Metrics *)

(** [r[damage_key]] for the key of [team_label]. *)
Definition damage_dealt_by (team_label : side) (r : episode) : Z :=
  match team_label with
  | TeamA => damage_dealt_by_a r
  | TeamB => damage_dealt_by_b r
  end.

Definition count_wins (results : list episode) (team_label : side) : Z :=
  Z.of_nat (length (filter (fun r => winner r = label team_label) results)).

Definition sum_damage (results : list episode) (team_label : side) : Z :=
  foldr Z.add 0 (damage_dealt_by team_label <$> results).

(** [calculate_metrics]; the source computes the three rates in binary64,
    the embedding gives the rationals they approximate ([0.7] and [0.3] are
    7/10 and 3/10).  An empty list is a [ZeroDivisionError]. *)
Definition calculate_metrics (results : list episode) (team_label : side)
  : option (Q * Q * Q * Z) :=
  match results with
  | [] => None
  | _ =>
    let total_games := Z.of_nat (length results) in
    let wins := count_wins results team_label in
    let win_rate := (inject_Z wins / inject_Z total_games)%Q in
    let total_damage := sum_damage results team_label in
    let avg_damage := (inject_Z total_damage / inject_Z total_games)%Q in
    let damage_rate := (avg_damage / inject_Z 1600)%Q in
    let reward := ((7 # 10) * win_rate + (3 # 10) * damage_rate)%Q in
    Some (win_rate, damage_rate, reward, wins)
  end.

(** The results [run_multi_agent_battle_simulation] keeps: the episodes that
    returned statistics. *)
Definition completed (runs : list run) : list episode :=
  omap (fun r => match r with Finished (Some stats) => Some stats | _ => None end) runs.

(** *** The simulation *)

(** What [run_multi_agent_battle_simulation] does with the episodes it ran,
    given in the order they were run: an exception of an episode is not
    caught and ends the simulation, an episode that does not end keeps it
    from ending; when all episodes return, the metrics of both sides are
    computed over those that returned statistics, unless there is none. *)
Inductive simulation :=
| No_valid_games
| Report (team_a team_b : Q * Q * Q * Z)
| Simulation_raised (e : Py.exn)
| Simulation_running
| Division_by_zero.

Fixpoint gather (runs : list run) (results : list episode) : simulation + list episode :=
  match runs with
  | [] => inr results
  | Finished (Some stats) :: rest => gather rest (results ++ [stats])
  | Finished None :: rest => gather rest results
  | Raised e :: _ => inl (Simulation_raised e)
  | Running :: _ => inl Simulation_running
  end.

Definition run_multi_agent_battle_simulation (runs : list run) : simulation :=
  match gather runs [] with
  | inl stopped => stopped
  | inr [] => No_valid_games
  | inr results =>
      match calculate_metrics results TeamA, calculate_metrics results TeamB with
      | Some a, Some b => Report a b
      | _, _ => Division_by_zero
      end
  end.

(** ** The model factory ([utils/agent_model_factory.py]) *)

(** The four LangChain chat classes, in the order [get_llm_agent] tries
    them. *)
Inductive chat_class := ChatOpenAI | ChatAnthropic | ChatGoogleGenerativeAI | ChatGroq.

Global Instance chat_class_eq_dec : EqDecision chat_class.
Proof. solve_decision. Defined.

(** The object [get_llm_agent] builds: the class and the arguments of its
    constructor. *)
Record chat_model := mk_chat {
  chat : chat_class;
  model : string;
  temperature : float;
  api_key : string
}.

Definition keyword (c : chat_class) : string :=
  match c with
  | ChatOpenAI => "gpt"
  | ChatAnthropic => "claude"
  | ChatGoogleGenerativeAI => "gemini"
  | ChatGroq => "llama"
  end.

Definition key_variable (c : chat_class) : string :=
  match c with
  | ChatOpenAI => "OPENAI_API_KEY"
  | ChatAnthropic => "ANTHROPIC_API_KEY"
  | ChatGoogleGenerativeAI => "GOOGLE_API_KEY"
  | ChatGroq => "GROQ_API_KEY"
  end.

(** The branch of one class: the key is read from the environment, and a key
    that is unset or empty raises [ValueError] with the message on the left. *)
Definition build (environ : gmap string string) (c : chat_class)
    (model_name : string) (temperature : float) : string + chat_model :=
  match environ !! key_variable c with
  | Some key =>
      if bool_decide (key = "") then inl (key_variable c ++ " is missing")%string
      else inr (mk_chat c model_name temperature key)
  | None => inl (key_variable c ++ " is missing")%string
  end.

(** [get_llm_agent]; [inl msg] is [raise ValueError(msg)]. *)
Definition get_llm_agent (environ : gmap string string) (model_name : string)
    (temperature : float) : string + chat_model :=
  if Py.contains "gpt" model_name then build environ ChatOpenAI model_name temperature
  else if Py.contains "claude" model_name
  then build environ ChatAnthropic model_name temperature
  else if Py.contains "gemini" model_name
  then build environ ChatGoogleGenerativeAI model_name temperature
  else if Py.contains "llama" model_name then build environ ChatGroq model_name temperature
  else inl ("Unsupported model: " ++ model_name)%string.

(** The classes tried before [c]. *)
Definition tried_before (c : chat_class) : list chat_class :=
  match c with
  | ChatOpenAI => []
  | ChatAnthropic => [ChatOpenAI]
  | ChatGoogleGenerativeAI => [ChatOpenAI; ChatAnthropic]
  | ChatGroq => [ChatOpenAI; ChatAnthropic; ChatGoogleGenerativeAI]
  end.

(** The class the model name selects: the first whose keyword it contains. *)
Definition selects (model_name : string) (c : chat_class) : Prop :=
  Py.contains (keyword c) model_name = true /\
  Forall (fun b => Py.contains (keyword b) model_name = false) (tried_before c).

(** ** The hero pool of the generation prompt *)

Module Pool.

Definition counter_text : string :=
  "Counter: Deal 30 damage to the attacker when a teammate's health is below 30%.".
Definition khajit_counter_text : string :=
  "Counter Deal 30 damage to the attacker when a teammate's health is below '30%'.".
Definition deflect_text : string :=
  "Deflect: Distribute '70%' damage to teammates and take '30%' damage when attacked. Gains 40 attack points after taking 200 damage accumulated.".
Definition reduce_text : string :=
  "Reduce: There is a '30%' chance to avoid any incoming damage each time.".
Definition heal_text : string :=
  "Heal: Regain 20 health points if the health is still greater than 0 when attacked.".
Definition explode_text : string :=
  "Explode: Deal 40 damage to the source when attacked, but not died. when the health is below '30%', increase its attack points by 15.".

Definition aoe_text : string :=
  "AOE: Attacks all enemies for '35%' of its attack point.".
Definition infight_text : string :=
  "Infight: Deal 75 damage on one living teammate and increase your attack points by 140. Notice! You can't attack yourself or a dead teammate!".
Definition crit_text : string :=
  "Crit: Deal 120 CRITICAL damage to enemy.".
Definition subtle_text : string :=
  "Subtle: Choose a teammate or yourself to reduce the damage by '70%' when attacked, and increase your attack point by 20.".
Definition crit_lowest_text : string :=
  "Crit: Deal 120 CRITICAL damage of your attack power to the enemy with the lowest health. If the target's health is below 160, increase CRITICAL damage to '140%'.".

Definition entry (p a : string) : hero_info := mk_info p a None None.

Definition Argonian := ("Argonian", entry counter_text aoe_text).
Definition Khajit := ("Khajit", entry khajit_counter_text infight_text).
Definition Redguard := ("Redguard", entry deflect_text infight_text).
Definition Nord := ("Nord", entry reduce_text crit_text).
Definition Breton := ("Breton", entry reduce_text subtle_text).
Definition Imperial := ("Imperial", entry heal_text infight_text).
Definition Onsimer := ("Onsimer", entry heal_text crit_lowest_text).
Definition Bosmer := ("Bosmer", entry explode_text crit_lowest_text).

End Pool.

(** ** Scripted episodes

    Rosters drawn from the pool and oracles that answer by side and round;
    they are the concrete inputs of the examples below. *)

Module Scenario.
Import Pool.

Definition basic_attack (hero : Z) (nm : string) : manager_response :=
  mk_response (Some hero) (Some nm) (Some "Basic Attack") (Some "enemy") None.

Definition use_skill (hero : Z) (nm skill : string) : manager_response :=
  mk_response (Some hero) (Some nm) (Some skill) (Some "enemy") None.

Definition on_teammate (hero : Z) (nm skill : string) (target : Z) : manager_response :=
  mk_response (Some hero) (Some nm) (Some skill) (Some "teammate") (Some target).

Definition team_1 : list (string * hero_info) := [Argonian; Khajit; Imperial; Bosmer].
Definition team_2 : list (string * hero_info) := [Nord; Imperial; Onsimer; Bosmer].
Definition team_3 : list (string * hero_info) := [Khajit; Imperial; Bosmer; Breton].

(** A heals, B wins.  Round 1: A's Argonian hits B's Imperial for 1 with a
    wrong guess; B's Argonian answers with an area attack parsed as 1000.
    Round 2: A has nobody left. *)
Definition heal_script : oracles :=
  mk_oracles
    (fun s r _ =>
       match s, r with
       | TeamA, 1%nat => Some (basic_attack 0 "Argonian")
       | TeamB, 1%nat => Some (use_skill 0 "Argonian" aoe_text)
       | _, _ => None
       end)
    (fun _ _ _ _ _ => Some (mk_lead_decision 2 "Nord"))
    (fun s _ _ _ _ =>
       match s with
       | TeamB => Some (mk_skill 1 false false)
       | TeamA => Some (mk_skill 1000 true false)
       end)
    (fun _ _ _ => false).

(** Both rosters fall in the same turn.  Round 1: A's area attack (1000) kills
    B but for the Nord, who dodges; the Nord hits A's Khajit for 300.  Round 2:
    A hits the Nord for 390; the Nord's area attack (1000) kills A, and the
    Argonian's Counter, with the Khajit at 100, sends back 30, which kills the
    Nord.  Round 3: A has nobody left. *)
Definition double_ko_script : oracles :=
  mk_oracles
    (fun s r _ =>
       match s, r with
       | TeamA, 1%nat => Some (use_skill 0 "Argonian" aoe_text)
       | TeamB, 1%nat => Some (basic_attack 0 "Nord")
       | TeamA, 2%nat => Some (basic_attack 0 "Argonian")
       | TeamB, 2%nat => Some (basic_attack 0 "Nord")
       | _, _ => None
       end)
    (fun s r _ _ _ =>
       match s, r with
       | TeamB, 1%nat => Some (mk_lead_decision 1 "Nord")
       | _, _ => Some (mk_lead_decision 0 "Breton")
       end)
    (fun s r _ _ _ =>
       match s, r with
       | TeamB, 1%nat => Some (mk_skill 1000 true false)
       | TeamA, 1%nat => Some (mk_skill 300 false false)
       | TeamB, 2%nat => Some (mk_skill 390 false false)
       | TeamA, 2%nat => Some (mk_skill 1000 true false)
       | _, _ => None
       end)
    (fun s r i =>
       match s, r, i with
       | TeamB, 1%nat, 0%nat => true
       | _, _, _ => false
       end).

(** A never attacks.  Round 1: A's Breton casts Subtle on itself; B's area
    attack (10000) kills A.  Round 2: A has nobody left. *)
Definition idle_script : oracles :=
  mk_oracles
    (fun s r _ =>
       match s, r with
       | TeamA, 1%nat => Some (on_teammate 3 "Breton" subtle_text 3)
       | TeamB, 1%nat => Some (use_skill 0 "Argonian" aoe_text)
       | _, _ => None
       end)
    (fun _ _ _ _ _ => Some (mk_lead_decision 0 "Nord"))
    (fun _ _ _ _ _ => Some (mk_skill 10000 true false))
    (fun _ _ _ => false).

(** A single hit with a fixed parse and no dodge. *)
Definition fixed_parse (d : Z) (aoe lowest : bool)
  : string -> Z -> Z -> option SkillAttributes :=
  fun _ _ _ => Some (mk_skill d aoe lowest).

Definition no_dodge : nat -> bool := fun _ => false.

Definition strike (pos : Z) (guess : string) : attack_info :=
  mk_attack "Team B" "Nord" "Basic Attack" 200 pos guess.

(** What the examples show of a roster. *)
Definition vitals (t : list hero) : list (Z * hero_status) :=
  (fun h => (health h, status h)) <$> t.

(** What the examples show of the end of a battle: the total health of the
    two rosters; how the loop was left and the vitals of the two rosters. *)
Definition totals (r : option (outcome game (option verdict))) : option (Z * Z) :=
  (fun o => (get_total_team_health (manager_a (final_state o)),
             get_total_team_health (manager_b (final_state o)))) <$> r.

Definition ending (r : option (outcome game (option verdict)))
  : option (option (option verdict) * list (Z * hero_status) * list (Z * hero_status)) :=
  (fun o => (returned o, vitals (manager_a (final_state o)),
             vitals (manager_b (final_state o)))) <$> r.

End Scenario.

(** ** Predicates of the statements *)

(** The health invariant of a hero, of a roster, of the two rosters. *)
Definition hero_ok (h : hero) : Prop :=
  0 <= health h /\ (health h = 0 <-> status h = dead).

Definition team_ok (t : list hero) : Prop := Forall hero_ok t.

Definition game_ok (g : game) : Prop :=
  team_ok (manager_a g) /\ team_ok (manager_b g).

(** The states of the two sides after any number of turns, in any order,
    from [g0]. *)
Inductive reachable (o : oracles) (g0 : game) : game -> Prop :=
| reach_start : reachable o g0 g0
| reach_turn (active : side) (round : nat) (g : game) :
    reachable o g0 g ->
    reachable o g0 (final_state (perform_turn o active round g)).

(** A hero whose health is positive is alive: what the death check needs. *)
Definition live_if_positive (h : hero) : Prop := 0 < health h -> status h = alive.

(** A hero whose passive text names none of the five passives. *)
Definition no_passive (h : hero) : Prop :=
  Forall (fun kw => Py.contains kw (Py.lower (passive h)) = false)
         ["reduce"; "deflect"; "counter"; "explode"; "heal:"].

(** The two products of Deflect at damage [d]: [int(d * 0.30)] is the floor
    of 3d/10, [int(d * 0.70)] is the floor of 7d/10 or one less (the double
    nearest to 0.7 lies below it: [int(90 * 0.70)] is 62), and together they
    give [d] or [d - 1]. *)
Definition deflect_split_ok (d : Z) : bool :=
  match Py.int_mul d 0.30, Py.int_mul d 0.70 with
  | inr self, inr share =>
      (self =? 3 * d / 10) && (7 * d / 10 - 1 <=? share) && (share <=? 7 * d / 10)
      && (0 <=? share) && (self + share <=? d) && (d - 1 <=? self + share)
  | _, _ => false
  end.

(** [P] holds of the [n] integers from [d] on. *)
Fixpoint all_from (P : Z -> bool) (n : nat) (d : Z) : bool :=
  match n with
  | O => true
  | S k => P d && all_from P k (d + 1)
  end.

(** The damage range on which the split is checked, value by value. *)
Definition deflect_checked_range : Z := 100000.

(** A hit of 1 on position 2 with a wrong guess, again and again. *)
Definition poke (t : list hero) : list hero :=
  final_state
    (process_incoming_attack (Scenario.fixed_parse 1 false false) Scenario.no_dodge
                             (Scenario.strike 2 "Nord") t).

(** Position 2 holds a living, unshielded Imperial with health [v]. *)
Definition healer_at (t : list hero) (v : Z) : Prop :=
  exists h, t !! 2%nat = Some h /\ health h = v /\ status h = alive /\
            name h = "Imperial" /\ passive h = Pool.heal_text /\
            subtle_shield h = false.

(** Text on which [Py.lower] is [str.lower]: every code point is below 128. *)
Definition ascii_text (s : string) : bool :=
  forallb (fun c => (N_of_ascii c <? 128)%N) (list_ascii_of_string s).

(** *** Statements about whole rosters and ledgers *)

(** What no operation of the engine changes in a hero. *)
Definition same_identity (h h' : hero) : Prop :=
  idx h' = idx h /\ name h' = name h /\ passive h' = passive h /\ active h' = active h.

(** What the engine changes in one direction only: a dead hero stays dead, a
    revealed hero stays revealed, attack power and the Deflect threshold never
    go down. *)
Definition evolves (h h' : hero) : Prop :=
  same_identity h h' /\
  (status h = dead -> status h' = dead) /\
  attack_power h <= attack_power h' /\
  (revealed h = true -> revealed h' = true) /\
  buff_threshold h <= buff_threshold h'.

Definition game_evolves (g g' : game) : Prop :=
  Forall2 evolves (manager_a g) (manager_a g') /\
  Forall2 evolves (manager_b g) (manager_b g').

(** An entry of the ledger that says dead with health 0. *)
Definition marked_dead (known : gmap Z intel) (position : Z) : Prop :=
  exists e, known !! position = Some e /\
            intel_status e = Some dead /\ intel_health e = Some 0.

Definition draws (results : list episode) : Z :=
  Z.of_nat (length (filter (fun r => winner r = Draw) results)).

(** The start of [heal_script] and its state after the turn of A and after
    both turns of round 1; the decision of B's manager in that round. *)
Definition heal_start : game :=
  mk_game (initialize_team Scenario.team_1) (initialize_team Scenario.team_1) ∅ ∅.

Definition heal_round_1 : game :=
  final_state (perform_turn Scenario.heal_script TeamB 1
                 (final_state (perform_turn Scenario.heal_script TeamA 1 heal_start))).

Definition heal_turn_a : game :=
  final_state (perform_turn Scenario.heal_script TeamA 1 heal_start).

Definition heal_decision_b : manager_decision :=
  Decision (Scenario.use_skill 0 "Argonian" Pool.aoe_text) 200 ACTIVE.

(** * Properties *)

(** ** The roster as a store *)

Arguments take_hit : simpl never.
Arguments reduce_or_deflect : simpl never.
Arguments consume_shield : simpl never.
Arguments hit_target : simpl never.
Arguments shield_and_react : simpl never.
Arguments resolve_skill : simpl never.
Arguments identity_check : simpl never.
Arguments dispatch_attack : simpl never.
Arguments process_incoming_attack : simpl never.
Arguments select_hero_for_turn : simpl never.
Arguments perform_turn : simpl never.
Arguments global_breach : simpl never.
Arguments determine_targets : simpl never.
Arguments Py.int_mul : simpl never.
Arguments Py.contains : simpl never.
Arguments Py.lower : simpl never.

Lemma deref_lookup (t : list hero) (i : nat) (h : hero) :
  t !! i = Some h -> deref t i = h.
Proof. unfold deref. intros ->. reflexivity. Qed.

Lemma my_team_get_Some (t : list hero) (k : Z) (i : nat) (h : hero) :
  my_team_get t k = Some (i, h) -> i = Z.to_nat k /\ t !! i = Some h /\ 0 <= k.
Proof.
  unfold my_team_get. destruct (k <? 0) eqn:Hk; [discriminate|].
  destruct (t !! Z.to_nat k) eqn:Hl; [|discriminate].
  intros [= <- <-]. apply Z.ltb_ge in Hk. repeat split; assumption.
Qed.

Lemma my_team_get_nat (t : list hero) (i : nat) :
  my_team_get t (Z.of_nat i) = (fun h => (i, h)) <$> t !! i.
Proof.
  unfold my_team_get. destruct (Z.of_nat i <? 0) eqn:Hk; [apply Z.ltb_lt in Hk; lia|].
  rewrite Nat2Z.id. destruct (t !! i); reflexivity.
Qed.

Lemma elem_of_positions (P : hero -> bool) (t : list hero) (i : nat) :
  i ∈ positions P t <-> exists h, t !! i = Some h /\ P h = true.
Proof.
  unfold positions. rewrite list_elem_of_In, filter_In, in_seq. split.
  - intros [[_ Hi] HP]. simpl in Hi.
    destruct (lookup_lt_is_Some_2 t i Hi) as [h Hh].
    exists h. split; [assumption|]. rewrite (deref_lookup _ _ _ Hh) in HP. exact HP.
  - intros (h & Hh & HP). split.
    + split; [lia|]. simpl. eapply lookup_lt_Some; eassumption.
    + rewrite (deref_lookup _ _ _ Hh). exact HP.
Qed.

Lemma NoDup_positions (P : hero -> bool) (t : list hero) : NoDup (positions P t).
Proof.
  unfold positions. apply NoDup_ListNoDup, List.NoDup_filter, List.seq_NoDup.
Qed.

(** What the shares of a Deflect do to each member of the roster. *)
Lemma share_damage_lookup (per : Z) (mates : list nat) (t : list hero) (j : nat) :
  NoDup mates ->
  share_damage per mates t !! j =
    (if decide (j ∈ mates) then lose_health per else id) <$> t !! j.
Proof.
  unfold share_damage. revert t.
  induction mates as [|m ms IH]; intros t Hnd; simpl.
  - destruct (decide (j ∈ [])) as [Hin|_]; [inversion Hin|].
    destruct (t !! j); reflexivity.
  - apply NoDup_cons in Hnd as [Hm Hms]. rewrite (IH _ Hms).
    destruct (decide (j = m)) as [->|Hne].
    + rewrite list_lookup_alter_eq. destruct (decide (m ∈ ms)); [contradiction|].
      destruct (decide (m ∈ m :: ms)) as [_|Hn]; [|exfalso; apply Hn; left].
      destruct (t !! m); reflexivity.
    + rewrite list_lookup_alter_ne by congruence.
      destruct (decide (j ∈ ms)) as [Hin|Hin];
        destruct (decide (j ∈ m :: ms)) as [Hin'|Hin']; try reflexivity.
      * exfalso. apply Hin'. right. exact Hin.
      * exfalso. apply elem_of_cons in Hin' as [?|?]; [congruence|contradiction].
Qed.

Lemma share_damage_length (per : Z) (mates : list nat) (t : list hero) :
  length (share_damage per mates t) = length t.
Proof.
  unfold share_damage. revert t. induction mates as [|m ms IH]; intros t; simpl.
  - reflexivity.
  - rewrite IH. apply length_alter.
Qed.

(** ** The health invariant *)

Lemma is_alive_true (h : hero) : is_alive h = true <-> status h = alive.
Proof. unfold is_alive. apply bool_decide_eq_true. Qed.

Lemma is_alive_false (h : hero) : is_alive h = false <-> status h = dead.
Proof.
  unfold is_alive. rewrite bool_decide_eq_false.
  destruct (status h); split; intros; congruence.
Qed.

Lemma hero_ok_alive (h : hero) : hero_ok h -> status h = alive -> 0 < health h.
Proof.
  intros [Hge Hiff] Hs. destruct (Z.eq_dec (health h) 0) as [H0|H0]; [|lia].
  apply Hiff in H0. congruence.
Qed.

Lemma hero_ok_dead (h : hero) : hero_ok h -> status h = dead -> health h = 0.
Proof. intros [_ Hiff] Hs. apply Hiff. exact Hs. Qed.

(** The death check repairs a hero whose health went below zero, provided a
    positive health still comes with a living status. *)
Lemma check_death_ok (h : hero) :
  (0 < health h -> status h = alive) -> hero_ok (_check_death h).
Proof.
  intros Hpos. unfold _check_death, hero_ok.
  destruct (health h <=? 0) eqn:Hle; simpl.
  - split; [lia|]. split; reflexivity.
  - apply Z.leb_gt in Hle. specialize (Hpos Hle). split; [lia|].
    split; intros; [lia | congruence].
Qed.

Lemma lose_health_ok (d : Z) (h : hero) :
  hero_ok h -> 0 <= d \/ status h = alive -> hero_ok (lose_health d h).
Proof.
  intros Hok Hd. unfold lose_health. apply check_death_ok. simpl. intros Hpos.
  destruct (status h) eqn:Hs; [reflexivity|].
  pose proof (hero_ok_dead h Hok Hs). destruct Hd as [Hd|Hd]; [lia|congruence].
Qed.

Lemma default_hero_ok (i : nat) :
  hero_ok (mk_hero i "" 0 0 dead false false 0 0 "" "").
Proof. split; simpl; [lia|]. split; reflexivity. Qed.

Lemma deref_ok (t : list hero) (i : nat) : team_ok t -> hero_ok (deref t i).
Proof.
  intros Hok. unfold deref. destruct (t !! i) as [h|] eqn:Hl; simpl.
  - eapply Forall_lookup_1; eassumption.
  - apply default_hero_ok.
Qed.

Lemma hero_ok_live (h : hero) : hero_ok h -> live_if_positive h.
Proof.
  intros Hok Hpos. destruct (status h) eqn:Hs; [reflexivity|].
  pose proof (hero_ok_dead h Hok Hs). lia.
Qed.

Lemma track_deflect_health (d : Z) (h : hero) : health (track_deflect d h) = health h.
Proof. unfold track_deflect. simpl. destruct (_ <=? _); reflexivity. Qed.

Lemma track_deflect_status (d : Z) (h : hero) : status (track_deflect d h) = status h.
Proof. unfold track_deflect. simpl. destruct (_ <=? _); reflexivity. Qed.

Lemma take_hit_ok (pd : string) (low : bool) (d : Z) (h : hero) (c : Z) :
  hero_ok h -> hero_ok (take_hit pd low d h c).1.
Proof.
  intros Hok. apply hero_ok_live in Hok. unfold take_hit. simpl.
  apply check_death_ok.
  set (h1 := if 0 <? d then set_health (health h - d) h else h).
  assert (H1 : live_if_positive h1).
  { subst h1. destruct (0 <? d) eqn:Hd; [|exact Hok].
    apply Z.ltb_lt in Hd. intros Hpos. simpl in *. apply Hok. lia. }
  set (h2 := if Py.contains "deflect" pd then track_deflect d h1 else h1).
  assert (H2 : live_if_positive h2).
  { subst h2. destruct (Py.contains "deflect" pd); [|exact H1].
    unfold live_if_positive. rewrite track_deflect_health, track_deflect_status.
    exact H1. }
  set (h3 := if _ : bool then set_attack_power (attack_power h2 + 15) h2 else h2).
  assert (H3 : live_if_positive h3).
  { subst h3. destruct (_ && _); exact H2. }
  destruct (Py.contains "heal:" pd && (0 <? health h3) && (0 <? d)) eqn:Hheal;
    [|exact H3].
  apply andb_prop in Hheal as [Hheal _]. apply andb_prop in Hheal as [_ Hpos].
  apply Z.ltb_lt in Hpos. intros _. simpl. apply H3. exact Hpos.
Qed.

Lemma global_breach_ok (pos : nat) (t : list hero) :
  team_ok t -> team_ok (global_breach pos t).
Proof.
  intros Hok. unfold global_breach, team_ok. apply Forall_fmap.
  assert (Hr : team_ok (alter (set_revealed true) pos t)).
  { apply Forall_alter; [exact Hok|]. intros x _ Hx. exact Hx. }
  eapply Forall_impl; [exact Hr|]. intros h Hh. simpl. unfold take_global.
  destruct (is_alive h) eqn:Ha; [|exact Hh].
  apply lose_health_ok; [exact Hh|]. right. apply is_alive_true. exact Ha.
Qed.

Lemma share_damage_ok (per : Z) (k : nat) (t : list hero) :
  team_ok t -> team_ok (share_damage per (positions (other_alive k) t) t).
Proof.
  intros Hok. apply Forall_lookup_2. intros j x.
  rewrite share_damage_lookup by apply NoDup_positions.
  destruct (t !! j) as [h|] eqn:Hj; [|discriminate]. simpl.
  pose proof (Forall_lookup_1 _ _ _ _ Hok Hj) as Hh.
  destruct (decide (j ∈ positions (other_alive k) t)) as [Hin|_];
    intros [= <-]; [|exact Hh].
  apply elem_of_positions in Hin as (h' & Hj' & HP).
  rewrite Hj in Hj'. injection Hj' as <-.
  apply lose_health_ok; [exact Hh|]. right.
  unfold other_alive in HP. apply andb_prop in HP as [Ha _].
  apply is_alive_true. exact Ha.
Qed.

Lemma reduce_or_deflect_ok (dodged : bool) (pd : string) (k : nat) (d : Z)
    (t : list hero) :
  team_ok t -> team_ok (final_state (reduce_or_deflect dodged pd k d t)).
Proof.
  intros Hok. unfold reduce_or_deflect.
  destruct (Py.contains "reduce" pd && dodged); [exact Hok|].
  destruct (Py.contains "deflect" pd && (0 <? d)); [|exact Hok].
  destruct (Py.int_mul d 0.30); [exact Hok|].
  destruct (Py.int_mul d 0.70); [exact Hok|].
  destruct (positions (other_alive k) t) eqn:Hp; [exact Hok|].
  rewrite <- Hp. simpl. apply share_damage_ok. exact Hok.
Qed.

Lemma consume_shield_ok (i : nat) (d : Z) (t : list hero) :
  team_ok t -> team_ok (final_state (consume_shield i d t)).
Proof.
  intros Hok. unfold consume_shield.
  destruct (subtle_shield (deref t i) && (0 <? d)); [|exact Hok].
  destruct (Py.int_mul d 0.30); [exact Hok|]. simpl.
  apply Forall_alter; [exact Hok|]. intros x _ Hx. exact Hx.
Qed.

Lemma hit_target_ok (dodge : nat -> bool) (raw : Z) (i : nat) (t : list hero) (c : Z) :
  team_ok t -> team_ok (final_state (hit_target dodge raw i t c)).
Proof.
  intros Hok. unfold hit_target, shield_and_react.
  pose proof (reduce_or_deflect_ok (dodge i) (Py.lower (passive (deref t i)))
                (idx (deref t i)) raw t Hok) as H1.
  destruct (reduce_or_deflect _ _ _ _ _) as [d1 t1|e t1];
    cbn [final_state obind] in *; [|exact H1].
  pose proof (consume_shield_ok i d1 t1 H1) as H2.
  destruct (consume_shield i d1 t1) as [d2 t2|e t2];
    cbn [final_state obind] in *; [|exact H2].
  pose proof (take_hit_ok (Py.lower (passive (deref t i)))
    (existsb (fun h => other_alive (idx (deref t2 i)) h && (health h <? 120)) t2)
    d2 (deref t2 i) c (deref_ok t2 i H2)) as H3.
  destruct (take_hit _ _ _ _ _) as [h' c']. cbn [final_state fst] in *.
  apply Forall_insert; assumption.
Qed.

Lemma hit_targets_ok (dodge : nat -> bool) (raw : Z) (targets : list nat)
    (t : list hero) (c : Z) :
  team_ok t -> team_ok (final_state (hit_targets dodge raw targets t c)).
Proof.
  revert t c. induction targets as [|i rest IH]; intros t c Hok; simpl.
  - exact Hok.
  - pose proof (hit_target_ok dodge raw i t c Hok) as H1.
    destruct (hit_target dodge raw i t c) as [c1 t1|e t1];
      cbn [final_state obind] in *.
    + apply IH. exact H1.
    + exact H1.
Qed.

Lemma resolve_skill_ok (dodge : nat -> bool) (ap : Z) (correct : bool)
    (actual : string) (pos : nat) (parsed : SkillAttributes) (t : list hero) :
  team_ok t ->
  team_ok (final_state (resolve_skill dodge ap correct actual pos parsed t)).
Proof.
  intros H1. unfold resolve_skill.
  destruct (determine_targets _ _ _ _) as [e|[targets raw]]; [exact H1|].
  pose proof (hit_targets_ok dodge raw targets t 0 H1) as H2.
  destruct (hit_targets dodge raw targets t 0) as [c2 t2|e t2]; exact H2.
Qed.

Lemma identity_check_ok (attack : attack_info) (pos : nat) (target : hero)
    (t : list hero) :
  team_ok t -> team_ok (identity_check attack pos target t).2.
Proof.
  intros Hok. unfold identity_check. cbn [snd].
  destruct (_ && _); [apply global_breach_ok|]; exact Hok.
Qed.

Lemma process_incoming_attack_ok parse (dodge : nat -> bool) (attack : attack_info)
    (t : list hero) :
  team_ok t -> team_ok (final_state (process_incoming_attack parse dodge attack t)).
Proof.
  intros Hok. unfold process_incoming_attack.
  destruct (my_team_get t (target_position attack)) as [[pos target]|]; [|exact Hok].
  pose proof (identity_check_ok attack pos target t Hok) as H1.
  destruct (identity_check attack pos target t) as [correct t1]. cbn [snd] in H1.
  destruct (parse _ _ _) as [parsed|]; [|exact H1].
  apply resolve_skill_ok. exact H1.
Qed.

Lemma alter_lose_health_ok (d : Z) (i : nat) (t : list hero) :
  0 <= d -> team_ok t -> team_ok (alter (lose_health d) i t).
Proof.
  intros Hd Hok. apply Forall_alter; [exact Hok|].
  intros x _ Hx. apply lose_health_ok; [exact Hx|]. left. exact Hd.
Qed.

Lemma alter_attack_power_ok (f : hero -> Z) (i : nat) (t : list hero) :
  team_ok t -> team_ok (alter (fun h => set_attack_power (f h) h) i t).
Proof.
  intros Hok. apply Forall_alter; [exact Hok|]. intros x _ Hx. exact Hx.
Qed.

Lemma execute_internal_skill_ok (decision : manager_response) (t : list hero) :
  team_ok t -> team_ok (final_state (_execute_internal_skill decision t)).
Proof.
  intros Hok. unfold _execute_internal_skill.
  destruct (selected_skill decision) as [s|]; [|exact Hok].
  destruct (teammate_target_id decision) as [target_id|]; [|exact Hok].
  destruct (my_team_get t target_id) as [[target ?]|]; [|exact Hok].
  destruct (selected_hero_id decision ≫= my_team_get t) as [[actor ?]|]; [|exact Hok].
  destruct (Py.contains "infight" (Py.lower s)).
  - destruct (bool_decide _); [exact Hok|]. cbn [final_state].
    apply alter_attack_power_ok with (f := fun h => attack_power h + 140).
    apply alter_lose_health_ok; [lia | exact Hok].
  - destruct (Py.contains "subtle" (Py.lower s)); [|exact Hok]. cbn [final_state].
    apply Forall_alter; [exact Hok|]. intros x _ Hx. exact Hx.
Qed.

Lemma select_hero_for_turn_ok llm (t : list hero) :
  team_ok t -> team_ok (select_hero_for_turn llm t).2.
Proof.
  intros Hok. unfold select_hero_for_turn.
  destruct (filter _ t); [exact Hok|].
  destruct (llm t) as [response|]; [|exact Hok].
  destruct (selected_hero_id response ≫= my_team_get t) as [[? actor]|]; [|exact Hok].
  destruct (selected_skill response) as [s|]; [|exact Hok].
  destruct (_ && _); [exact Hok|].
  destruct (bool_decide _); [|exact Hok].
  pose proof (execute_internal_skill_ok response t Hok) as H.
  destruct (_execute_internal_skill response t); exact H.
Qed.

Lemma update_hero_stats_ok (target_id damage_amount : Z) (t : list hero) :
  0 <= damage_amount -> team_ok t -> team_ok (update_hero_stats target_id damage_amount t).
Proof.
  intros Hd Hok. unfold update_hero_stats.
  destruct (my_team_get t target_id) as [[i ?]|]; [|exact Hok].
  apply alter_lose_health_ok; assumption.
Qed.

Lemma recoil_ok (c : Z) (attacker_id : option Z) (t t' : list hero) :
  team_ok t -> recoil c attacker_id t = Some t' -> team_ok t'.
Proof.
  intros Hok. unfold recoil. destruct (0 <? c) eqn:Hc.
  - apply Z.ltb_lt in Hc. destruct attacker_id as [a|]; [|discriminate].
    intros [= <-]. apply update_hero_stats_ok; [lia | exact Hok].
  - intros [= <-]. exact Hok.
Qed.

Lemma game_ok_set_manager (s : side) (t : list hero) (g : game) :
  game_ok g -> team_ok t -> game_ok (set_manager s t g).
Proof. intros [Ha Hb] Ht. destruct s; split; assumption. Qed.

Lemma game_ok_set_lead (s : side) (k : gmap Z intel) (g : game) :
  game_ok g -> game_ok (set_lead s k g).
Proof. intros [Ha Hb]. destruct s; split; assumption. Qed.

Lemma game_ok_manager (s : side) (g : game) : game_ok g -> team_ok (manager s g).
Proof. intros [Ha Hb]. destruct s; assumption. Qed.

Lemma dispatch_attack_ok (o : oracles) (active : side) (round : nat) (g1 : game)
    (d : manager_decision) :
  game_ok g1 -> game_ok (final_state (dispatch_attack o active round g1 d)).
Proof.
  intros H1. unfold dispatch_attack.
  destruct (get_turn_decision _ _ _ d) as [[|payload]|]; try exact H1.
  pose proof (process_incoming_attack_ok (skill_llm o (opponent active) round)
                (reduce_roll o (opponent active) round) payload
                (manager (opponent active) g1)
                (game_ok_manager _ _ H1)) as Hatk.
  destruct (process_incoming_attack _ _ _ _) as [[fb|] team'|e team'];
    cbn [final_state] in *; try (apply game_ok_set_manager; assumption).
  pose proof (game_ok_set_manager (opponent active) team' g1 H1 Hatk) as H2.
  destruct (recoil _ _ _) as [team''|] eqn:Hrec; cbn [final_state]; [|exact H2].
  apply game_ok_set_lead. apply game_ok_set_manager; [exact H2|].
  eapply recoil_ok; [|exact Hrec]. apply game_ok_manager. exact H2.
Qed.

Lemma perform_turn_ok (o : oracles) (active : side) (round : nat) (g : game) :
  game_ok g -> game_ok (final_state (perform_turn o active round g)).
Proof.
  intros Hok. unfold perform_turn.
  pose proof (select_hero_for_turn_ok (manager_llm o active round) (manager active g)
                (game_ok_manager active g Hok)) as Hsel.
  destruct (select_hero_for_turn _ _) as [decision team]. cbn [snd] in Hsel.
  pose proof (game_ok_set_manager active team g Hok Hsel) as H1.
  destruct decision as [[| |response ap [|]]|]; try exact H1;
    apply dispatch_attack_ok; exact H1.
Qed.

Lemma battle_ok (o : oracles) (fuel round : nat) (g : game) res :
  game_ok g -> battle o fuel round g = Some res -> game_ok (final_state res).
Proof.
  revert round g. induction fuel as [|fuel IH]; intros round g Hok; simpl; [discriminate|].
  pose proof (perform_turn_ok o TeamA round g Hok) as HA.
  destruct (perform_turn o TeamA round g) as [[[|]|] g1|e g1]; cbn [final_state] in HA;
    try (intros [= <-]; exact HA).
  pose proof (perform_turn_ok o TeamB round g1 HA) as HB.
  destruct (perform_turn o TeamB round g1) as [[[|]|] g2|e g2]; cbn [final_state] in HB;
    try (intros [= <-]; exact HB).
  apply IH. exact HB.
Qed.

Lemma reachable_ok (o : oracles) (g0 g : game) :
  game_ok g0 -> reachable o g0 g -> game_ok g.
Proof.
  intros H0 Hr. induction Hr as [|active round g Hr IH]; [exact H0|].
  apply perform_turn_ok. exact IH.
Qed.

Lemma initialize_team_ok (data : list (string * hero_info)) :
  Forall (fun e => 0 < default 400 (initial_health e.2)) data ->
  team_ok (initialize_team data).
Proof.
  intros Hpos. apply Forall_lookup_2. intros i h.
  unfold initialize_team. rewrite list_lookup_imap.
  destruct (data !! i) as [[n info]|] eqn:Hi; [|discriminate].
  intros [= <-]. pose proof (Forall_lookup_1 _ _ _ _ Hpos Hi) as Hh. simpl in Hh.
  split; simpl; [lia|]. split; [lia|discriminate].
Qed.

(** ** C1: the health invariant *)

(** C1 (amended).  After every operation of the engine that changes hero
    state, every hero has [0 <= health], and [health = 0] exactly when its
    status is dead: team initialisation establishes this when every starting
    health is positive; internal skills, the resolution of an incoming attack
    (whether it returns or raises), the recoil, a whole turn and a whole
    battle preserve it, so that it holds in every state the two sides
    reach. *)
Theorem health_invariant :
  (forall data,
      Forall (fun e => 0 < default 400 (initial_health e.2)) data ->
      team_ok (initialize_team data)) /\
  (forall decision t,
      team_ok t -> team_ok (final_state (_execute_internal_skill decision t))) /\
  (forall llm t, team_ok t -> team_ok (select_hero_for_turn llm t).2) /\
  (forall parse dodge attack t,
      team_ok t -> team_ok (final_state (process_incoming_attack parse dodge attack t))) /\
  (forall c attacker_id t t',
      team_ok t -> recoil c attacker_id t = Some t' -> team_ok t') /\
  (forall o active round g,
      game_ok g -> game_ok (final_state (perform_turn o active round g))) /\
  (forall o fuel round g res,
      game_ok g -> battle o fuel round g = Some res -> game_ok (final_state res)) /\
  (forall o g0 g, game_ok g0 -> reachable o g0 g -> game_ok g).
Proof.
  split; [exact initialize_team_ok|].
  split; [exact execute_internal_skill_ok|].
  split; [exact select_hero_for_turn_ok|].
  split; [exact process_incoming_attack_ok|].
  split; [exact recoil_ok|].
  split; [exact perform_turn_ok|].
  split; [exact battle_ok|].
  exact reachable_ok.
Qed.

(** The invariant on the unscaled roster of four pool heroes, and after an
    area attack on it. *)
Lemma health_invariant_witness :
  team_ok (initialize_team Scenario.team_1) /\
  team_ok (final_state
             (process_incoming_attack (Scenario.fixed_parse 300 true false)
                Scenario.no_dodge (Scenario.strike 0 "Nord")
                (initialize_team Scenario.team_1))).
Proof.
  assert (H : team_ok (initialize_team Scenario.team_1)).
  { apply (proj1 health_invariant). repeat constructor. }
  split; [exact H|].
  apply (proj1 (proj2 (proj2 (proj2 health_invariant)))). exact H.
Defined.

(** C1 as stated fails at team initialisation: a difficulty ratio of 0 scales
    the starting health to [int(400 * 0.0) = 0], and the heroes start alive
    with no health. *)
Lemma health_invariant_fails_at_difficulty_zero :
  exists data,
    apply_difficulty_scaling Scenario.team_1 0 = inr data /\
    Scenario.vitals (initialize_team data)
      = [(0, alive); (0, alive); (0, alive); (0, alive)] /\
    ~ team_ok (initialize_team data).
Proof.
  eexists. split; [vm_compute; reflexivity|]. split; [vm_compute; reflexivity|].
  intros Hok. apply Forall_cons in Hok as [[_ [H0 _]] _].
  specialize (H0 eq_refl). discriminate.
Qed.

(** ** The first correct guess (C2, C9) *)

Lemma check_death_fields (h : hero) :
  idx (_check_death h) = idx h /\ name (_check_death h) = name h /\
  attack_power (_check_death h) = attack_power h /\
  revealed (_check_death h) = revealed h /\
  subtle_shield (_check_death h) = subtle_shield h /\
  passive (_check_death h) = passive h.
Proof. unfold _check_death. destruct (_ <=? _); repeat split. Qed.

Lemma lose_health_fields (d : Z) (h : hero) :
  idx (lose_health d h) = idx h /\ name (lose_health d h) = name h /\
  attack_power (lose_health d h) = attack_power h /\
  revealed (lose_health d h) = revealed h /\
  subtle_shield (lose_health d h) = subtle_shield h /\
  passive (lose_health d h) = passive h.
Proof. unfold lose_health. apply (check_death_fields (set_health _ h)). Qed.

Lemma lose_health_health (d : Z) (h : hero) :
  health (lose_health d h) = Z.max 0 (health h - d).
Proof.
  unfold lose_health, _check_death. simpl.
  destruct (health h - d <=? 0) eqn:Hle; simpl.
  - apply Z.leb_le in Hle. lia.
  - apply Z.leb_gt in Hle. lia.
Qed.

Lemma lose_health_status (d : Z) (h : hero) :
  status (lose_health d h) = if health h - d <=? 0 then dead else status h.
Proof.
  unfold lose_health, _check_death. simpl.
  destruct (health h - d <=? 0); reflexivity.
Qed.

Lemma take_global_fields (h : hero) :
  idx (take_global h) = idx h /\ name (take_global h) = name h /\
  attack_power (take_global h) = attack_power h /\
  revealed (take_global h) = revealed h /\
  subtle_shield (take_global h) = subtle_shield h /\
  passive (take_global h) = passive h.
Proof.
  unfold take_global. destruct (is_alive h); [apply lose_health_fields|repeat split].
Qed.

Lemma global_breach_lookup (pos : nat) (t : list hero) (j : nat) :
  global_breach pos t !! j =
    (fun h => take_global (if decide (j = pos) then set_revealed true h else h))
      <$> t !! j.
Proof.
  unfold global_breach. rewrite list_lookup_fmap.
  destruct (decide (j = pos)) as [->|Hne].
  - rewrite list_lookup_alter_eq. destruct (t !! pos); reflexivity.
  - rewrite list_lookup_alter_ne by congruence. reflexivity.
Qed.

Lemma global_breach_target (pos : nat) (t : list hero) (target : hero) :
  t !! pos = Some target ->
  deref (global_breach pos t) pos = take_global (set_revealed true target).
Proof.
  intros Hl. apply deref_lookup. rewrite global_breach_lookup, Hl. simpl.
  destruct (decide (pos = pos)); [reflexivity|congruence].
Qed.

Lemma take_global_alive (h : hero) :
  status h = alive -> take_global h = lose_health 50 h.
Proof.
  intros Hs. unfold take_global. apply is_alive_true in Hs. rewrite Hs. reflexivity.
Qed.

(** What the breach does to each member of the roster. *)
Lemma global_breach_effect (pos : nat) (t : list hero) (j : nat) (h : hero) :
  t !! j = Some h ->
  exists h', global_breach pos t !! j = Some h' /\
    revealed h' = (if decide (j = pos) then true else revealed h) /\
    (status h = alive ->
       health h' = Z.max 0 (health h - 50) /\
       (status h' = dead <-> health h <= 50)) /\
    (status h = dead -> health h' = health h /\ status h' = dead).
Proof.
  intros Hj. rewrite global_breach_lookup, Hj. simpl. eexists.
  split; [reflexivity|].
  set (h0 := if decide (j = pos) then set_revealed true h else h).
  assert (Hh0 : health h0 = health h /\ status h0 = status h /\
                revealed h0 = if decide (j = pos) then true else revealed h)
    by (subst h0; destruct (decide (j = pos)); repeat split; reflexivity).
  destruct Hh0 as (Hhe & Hst & Hre). split.
  { destruct (take_global_fields h0) as (_ & _ & _ & -> & _). exact Hre. }
  split.
  - intros Ha. rewrite take_global_alive by congruence.
    rewrite lose_health_health, lose_health_status, Hhe, Hst, Ha.
    split; [reflexivity|].
    destruct (health h - 50 <=? 0) eqn:Hle.
    + apply Z.leb_le in Hle. split; [lia|reflexivity].
    + apply Z.leb_gt in Hle. split; [discriminate|lia].
  - intros Hd. unfold take_global.
    assert (Hna : is_alive h0 = false) by (apply is_alive_false; congruence).
    rewrite Hna. split; congruence.
Qed.

(** The skill is parsed and resolved on the roster the breach left. *)
Lemma process_after_breach parse (dodge : nat -> bool) (attack : attack_info)
    (t : list hero) (pos : nat) (target : hero) :
  my_team_get t (target_position attack) = Some (pos, target) ->
  Py.lower (guessed_identity attack) = Py.lower (name target) ->
  revealed target = false ->
  process_incoming_attack parse dodge attack t =
    match parse (skill attack) (attacker_ap attack)
                (health (deref (global_breach pos t) pos)) with
    | None => Ret None (global_breach pos t)
    | Some parsed_skill =>
        resolve_skill dodge (attacker_ap attack) true (name target) pos parsed_skill
                      (global_breach pos t)
    end.
Proof.
  intros Hget Hguess Hrev. unfold process_incoming_attack, identity_check.
  rewrite Hget, Hrev. rewrite bool_decide_eq_true_2 by exact Hguess.
  reflexivity.
Qed.

(** The pipeline of a hero that neither dodges nor deflects and carries no
    shield. *)
Lemma hit_target_direct (dodge : nat -> bool) (raw : Z) (i : nat) (t : list hero)
    (c : Z) (h : hero) :
  t !! i = Some h ->
  Py.contains "reduce" (Py.lower (passive h)) && dodge i = false ->
  Py.contains "deflect" (Py.lower (passive h)) = false ->
  subtle_shield h = false ->
  hit_target dodge raw i t c =
    let r := take_hit (Py.lower (passive h))
               (existsb (fun m => other_alive (idx h) m && (health m <? 120)) t)
               raw h c in
    Ret r.2 (<[i := r.1]> t).
Proof.
  intros Hl Hred Hdef Hsh.
  unfold hit_target, shield_and_react, reduce_or_deflect, consume_shield.
  rewrite (deref_lookup _ _ _ Hl), Hred, Hdef. cbn [andb obind].
  rewrite (deref_lookup _ _ _ Hl), Hsh. cbn [andb obind]. cbv zeta.
  rewrite !(deref_lookup _ _ _ Hl).
  destruct (take_hit _ _ _ _ _) as [h' c']. reflexivity.
Qed.

Lemma take_hit_no_passive (low : bool) (d : Z) (h : hero) (c : Z) :
  no_passive h -> 0 < d ->
  take_hit (Py.lower (passive h)) low d h c = (lose_health d h, c).
Proof.
  intros Hno Hd. unfold no_passive in Hno.
  repeat (apply Forall_cons in Hno as [? Hno]).
  unfold take_hit. repeat match goal with H : Py.contains _ _ = false |- _ =>
                               rewrite H; clear H end.
  cbn [andb]. apply Z.ltb_lt in Hd. rewrite Hd. reflexivity.
Qed.

Lemma lose_health_dead (d : Z) (h : hero) :
  0 <= d -> health h = 0 -> status h = dead -> lose_health d h = h.
Proof.
  intros Hd H0 Hs. unfold lose_health, _check_death. simpl.
  destruct (health h - d <=? 0) eqn:Hle; [|apply Z.leb_gt in Hle; lia].
  destruct h; simpl in *. subst. reflexivity.
Qed.

Lemma determine_single_target (t : list hero) (pos : nat) (ap d : Z) :
  determine_targets t pos ap (mk_skill d false false) =
    inr (if is_alive (deref t pos) then [pos] else [], d).
Proof.
  unfold determine_targets. cbn [is_aoe targets_lowest damage_amount].
  destruct (is_alive (deref t pos)); reflexivity.
Qed.

Lemma deref_insert (t : list hero) (i : nat) (h x : hero) :
  t !! i = Some h -> deref (<[i := x]> t) i = x.
Proof.
  intros Hl. apply deref_lookup. apply list_lookup_insert_eq.
  eapply lookup_lt_Some. exact Hl.
Qed.

(** C2 (amended).  On a first correct guess, a skill that is parsed as
    neither an area skill nor a lowest-health skill is resolved on the roster
    the breach left: the target is marked revealed and
    every living defender, the target included, has lost 50 and was
    death-checked before the skill damage is applied.  For a living target
    without passive and without shield the skill damage [d] comes on top of
    the 50: its final health is [max 0 (max 0 (health - 50) - d)], 250 for
    400 and 100. *)
Theorem breach_then_skill_damage parse (dodge : nat -> bool) (attack : attack_info)
    (t : list hero) (pos : nat) (target : hero) (d : Z) :
  my_team_get t (target_position attack) = Some (pos, target) ->
  Py.lower (guessed_identity attack) = Py.lower (name target) ->
  revealed target = false ->
  parse (skill attack) (attacker_ap attack) (health (deref (global_breach pos t) pos))
    = Some (mk_skill d false false) ->
  let t1 := global_breach pos t in
  (forall j h, t !! j = Some h ->
     exists h', t1 !! j = Some h' /\
       revealed h' = (if decide (j = pos) then true else revealed h) /\
       (status h = alive ->
          health h' = Z.max 0 (health h - 50) /\
          (status h' = dead <-> health h <= 50)) /\
       (status h = dead -> health h' = health h /\ status h' = dead)) /\
  process_incoming_attack parse dodge attack t =
    resolve_skill dodge (attacker_ap attack) true (name target) pos
                  (mk_skill d false false) t1 /\
  (status target = alive -> no_passive target -> subtle_shield target = false ->
   0 < d ->
   exists fb,
     process_incoming_attack parse dodge attack t =
       Ret (Some fb)
           (<[pos := lose_health d (lose_health 50 (set_revealed true target))]> t1) /\
     guess_correct fb = true /\
     counter_damage fb = 0 /\
     target_health fb = Z.max 0 (Z.max 0 (health target - 50) - d)).
Proof.
  intros Hget Hguess Hrev Hparse t1.
  destruct (my_team_get_Some _ _ _ _ Hget) as (_ & Hl & _).
  assert (Hproc : process_incoming_attack parse dodge attack t =
                  resolve_skill dodge (attacker_ap attack) true (name target) pos
                                (mk_skill d false false) t1).
  { rewrite (process_after_breach _ _ _ _ _ _ Hget Hguess Hrev).
    fold t1. subst t1. rewrite Hparse. reflexivity. }
  split; [intros j h Hj; apply global_breach_effect; exact Hj|].
  split; [exact Hproc|].
  intros Halive Hno Hsh Hd.
  assert (Hh1 : deref t1 pos = lose_health 50 (set_revealed true target)).
  { subst t1. rewrite (global_breach_target _ _ _ Hl).
    apply take_global_alive. exact Halive. }
  assert (Hl1 : t1 !! pos = Some (lose_health 50 (set_revealed true target))).
  { subst t1. rewrite global_breach_lookup, Hl. simpl.
    destruct (decide (pos = pos)); [|congruence].
    rewrite take_global_alive by exact Halive. reflexivity. }
  set (h1 := lose_health 50 (set_revealed true target)) in *.
  assert (Hp1 : passive h1 = passive target).
  { subst h1. destruct (lose_health_fields 50 (set_revealed true target))
      as (_ & _ & _ & _ & _ & ->). reflexivity. }
  assert (Hno1 : no_passive h1) by (unfold no_passive; rewrite Hp1; exact Hno).
  assert (Hsh1 : subtle_shield h1 = false).
  { subst h1. destruct (lose_health_fields 50 (set_revealed true target))
      as (_ & _ & _ & _ & -> & _). exact Hsh. }
  exists (make_feedback true (name target) pos 0 (<[pos := lose_health d h1]> t1)).
  split.
  - rewrite Hproc. unfold resolve_skill.
    rewrite determine_single_target, Hh1.
    destruct (is_alive h1) eqn:Ha1.
    + cbn [hit_targets obind].
      pose proof Hno1 as Hkw. unfold no_passive in Hkw.
      apply Forall_cons in Hkw as [Hred Hkw]. apply Forall_cons in Hkw as [Hdef _].
      rewrite (hit_target_direct dodge d pos t1 0 h1 Hl1); try assumption;
        [|rewrite Hred; reflexivity].
      rewrite (take_hit_no_passive _ d h1 0 Hno1 Hd). reflexivity.
    + cbn [hit_targets obind]. apply is_alive_false in Ha1.
      assert (H0 : health h1 = 0).
      { subst h1. rewrite lose_health_health. rewrite lose_health_status in Ha1.
        cbn [health status set_revealed] in *.
        destruct (health target - 50 <=? 0) eqn:Hle; [|congruence].
        apply Z.leb_le in Hle. lia. }
      rewrite (lose_health_dead d h1) by (try lia; assumption).
      rewrite (list_insert_id _ _ _ Hl1). reflexivity.
  - repeat split. cbn [target_health make_feedback].
    rewrite (deref_insert _ _ _ _ Hl1), lose_health_health.
    subst h1. rewrite lose_health_health. reflexivity.
Qed.

(** Example 1 of the specification: 400 health, no passive, no shield, a
    correct first guess and a parsed damage of 100 leave 250. *)
Lemma breach_then_skill_damage_example :
  let roster := initialize_team
                  [("Altmer", Pool.entry "" "Basic Attack"); Pool.Khajit;
                   Pool.Imperial; Pool.Bosmer] in
  exists fb t',
    process_incoming_attack (Scenario.fixed_parse 100 false false) Scenario.no_dodge
      (Scenario.strike 0 "altmer") roster = Ret (Some fb) t' /\
    target_health fb = 250 /\
    Scenario.vitals t' = [(250, alive); (350, alive); (350, alive); (350, alive)].
Proof.
  intros roster.
  destruct (breach_then_skill_damage (Scenario.fixed_parse 100 false false)
              Scenario.no_dodge (Scenario.strike 0 "altmer") roster 0%nat
              (mk_hero 0 "Altmer" 400 200 alive false false 0 200 "" "Basic Attack")
              100 eq_refl eq_refl eq_refl eq_refl) as (_ & _ & H).
  destruct H as (fb & Heq & _ & _ & Hh).
  - reflexivity.
  - repeat constructor.
  - reflexivity.
  - lia.
  - eexists fb, _. split; [exact Heq|]. split; [rewrite Hh; reflexivity|].
    vm_compute. reflexivity.
Defined.

(** C2 as stated fails for a skill that is not an area skill but targets the
    lowest health: it is single-target and non-AOE, yet after the breach it is
    redirected to the first living hero of least health.  With a correct
    first guess of the passive-less hero at position 2 and a parsed damage of
    100, all four are at 350 after the breach, the hero at position 0 takes
    the 100, and the guessed hero ends at 350, not 250. *)
Lemma lowest_health_skill_leaves_the_guessed_target :
  let roster := initialize_team
                  [Pool.Khajit; Pool.Imperial;
                   ("Altmer", Pool.entry "" "Basic Attack"); Pool.Bosmer] in
  exists fb t',
    process_incoming_attack (Scenario.fixed_parse 100 false true) Scenario.no_dodge
      (Scenario.strike 2 "altmer") roster = Ret (Some fb) t' /\
    guess_correct fb = true /\
    target_health fb = 350 /\
    Scenario.vitals t' = [(250, alive); (350, alive); (350, alive); (350, alive)].
Proof.
  intros roster. eexists _, _. split; [vm_compute; reflexivity|].
  repeat split; vm_compute; reflexivity.
Qed.

(** C9.  When the skill parser fails after a first correct guess, the call
    returns [None] and the roster keeps what the breach did: the target is
    revealed, every living hero has lost 50 and was death-checked, the dead
    are as they were. *)
Theorem breach_persists_on_parse_failure parse (dodge : nat -> bool)
    (attack : attack_info) (t : list hero) (pos : nat) (target : hero) :
  my_team_get t (target_position attack) = Some (pos, target) ->
  Py.lower (guessed_identity attack) = Py.lower (name target) ->
  revealed target = false ->
  parse (skill attack) (attacker_ap attack)
        (health (deref (global_breach pos t) pos)) = None ->
  process_incoming_attack parse dodge attack t = Ret None (global_breach pos t) /\
  revealed (deref (global_breach pos t) pos) = true /\
  (forall j h, t !! j = Some h ->
     exists h', global_breach pos t !! j = Some h' /\
       revealed h' = (if decide (j = pos) then true else revealed h) /\
       (status h = alive ->
          health h' = Z.max 0 (health h - 50) /\
          (status h' = dead <-> health h <= 50)) /\
       (status h = dead -> health h' = health h /\ status h' = dead)).
Proof.
  intros Hget Hguess Hrev Hparse.
  destruct (my_team_get_Some _ _ _ _ Hget) as (_ & Hl & _).
  split.
  - rewrite (process_after_breach _ _ _ _ _ _ Hget Hguess Hrev), Hparse. reflexivity.
  - split.
    + rewrite (global_breach_target _ _ _ Hl).
      destruct (take_global_fields (set_revealed true target))
        as (_ & _ & _ & -> & _). reflexivity.
    + intros j h Hj. apply global_breach_effect. exact Hj.
Qed.

(** A parser that fails on a correct first guess against the Argonian: the
    call returns [None] and the whole roster is 50 down. *)
Lemma breach_persists_example :
  let roster := initialize_team Scenario.team_1 in
  exists t',
    process_incoming_attack (fun _ _ _ => None) Scenario.no_dodge
      (Scenario.strike 0 "ARGONIAN") roster = Ret None t' /\
    Scenario.vitals roster = [(400, alive); (400, alive); (400, alive); (400, alive)] /\
    Scenario.vitals t' = [(350, alive); (350, alive); (350, alive); (350, alive)] /\
    revealed <$> t' = [true; false; false; false].
Proof.
  intros roster.
  destruct (breach_persists_on_parse_failure (fun _ _ _ => None) Scenario.no_dodge
              (Scenario.strike 0 "ARGONIAN") roster 0%nat
              (mk_hero 0 "Argonian" 400 200 alive false false 0 200
                       Pool.counter_text Pool.aoe_text)
              eq_refl eq_refl eq_refl eq_refl) as (Heq & _ & _).
  exists (global_breach 0 roster). split; [exact Heq|].
  repeat split; vm_compute; reflexivity.
Defined.

(** ** C3: what a Deflect hands out *)

Lemma all_from_spec (P : Z -> bool) (n : nat) (d x : Z) :
  all_from P n d = true -> d <= x < d + Z.of_nat n -> P x = true.
Proof.
  revert d. induction n as [|n IH]; intros d Hall Hx; [lia|].
  simpl in Hall. apply andb_prop in Hall as [Hd Hrest].
  destruct (Z.eq_dec x d) as [->|Hne]; [exact Hd|].
  apply (IH (d + 1)); [exact Hrest|lia].
Qed.

Lemma deflect_split_checked :
  all_from deflect_split_ok (Z.to_nat deflect_checked_range) 1 = true.
Proof. vm_compute. reflexivity. Qed.

Lemma deflect_split (d : Z) :
  0 < d <= deflect_checked_range ->
  exists self share,
    Py.int_mul d 0.30 = inr self /\ Py.int_mul d 0.70 = inr share /\
    self = 3 * d / 10 /\ 7 * d / 10 - 1 <= share <= 7 * d / 10 /\
    0 <= share /\ self + share <= d /\ d - 1 <= self + share.
Proof.
  intros Hd.
  pose proof (all_from_spec _ _ _ d deflect_split_checked) as H.
  unfold deflect_checked_range in *.
  rewrite Z2Nat.id in H by lia.
  specialize (H ltac:(lia)). unfold deflect_split_ok in H.
  destruct (Py.int_mul d 0.30) as [|self]; [discriminate|].
  destruct (Py.int_mul d 0.70) as [|share]; [discriminate|].
  repeat (apply andb_prop in H as [H ?]).
  exists self, share. repeat split; try reflexivity;
    first [apply Z.eqb_eq; assumption | apply Z.leb_le; assumption].
Qed.

(** The products as binary64 computes them: 70% of 90 truncates to 62, and
    far beyond the checked range (at 2^53 + 1) the two products miss [d] by 2. *)
Example deflect_products :
  Py.int_mul 90 0.30 = inr 27 /\ Py.int_mul 90 0.70 = inr 62 /\
  Py.int_mul 100 0.30 = inr 30 /\ Py.int_mul 100 0.70 = inr 70 /\
  Py.int_mul (2 ^ 53 + 1) 0.30 = inr 2702159776422297 /\
  Py.int_mul (2 ^ 53 + 1) 0.70 = inr 6305039478318694 /\
  2702159776422297 + 6305039478318694 = 2 ^ 53 + 1 - 2.
Proof. repeat split; vm_compute; reflexivity. Qed.

(** Who the shares of a Deflect go to. *)
Lemma elem_of_other_alive (k : nat) (t : list hero) (j : nat) :
  j ∈ positions (other_alive k) t <->
  exists m, t !! j = Some m /\ status m = alive /\ idx m <> k.
Proof.
  rewrite elem_of_positions. split.
  - intros (m & Hm & HP). exists m. split; [exact Hm|].
    unfold other_alive in HP. apply andb_prop in HP as [Ha Hi].
    split; [apply is_alive_true; exact Ha|].
    apply negb_true_iff, Nat.eqb_neq in Hi. exact Hi.
  - intros (m & Hm & Ha & Hi). exists m. split; [exact Hm|].
    unfold other_alive. apply andb_true_intro. split.
    + apply is_alive_true. exact Ha.
    + apply negb_true_iff, Nat.eqb_neq. exact Hi.
Qed.

(** The Deflect branch when the two products are computed. *)
Lemma deflect_step (dodged : bool) (pd : string) (k : nat) (d self share : Z)
    (t : list hero) :
  Py.contains "deflect" pd = true ->
  Py.contains "reduce" pd && dodged = false ->
  0 < d ->
  positions (other_alive k) t <> [] ->
  Py.int_mul d 0.30 = inr self ->
  Py.int_mul d 0.70 = inr share ->
  reduce_or_deflect dodged pd k d t =
    Ret self (share_damage (share / Z.of_nat (length (positions (other_alive k) t)))
                           (positions (other_alive k) t) t).
Proof.
  intros Hdef Hred Hd Hmates Hs Hsh.
  unfold reduce_or_deflect. rewrite Hred, Hdef, Hs, Hsh.
  assert (Hpos : (0 <? d) = true) by (apply Z.ltb_lt; lia).
  rewrite Hpos. cbn [andb].
  destruct (positions (other_alive k) t) eqn:Hm; [congruence|]. reflexivity.
Qed.

(** C3 (amended).  A hit of damage [d > 0] on a hero with the Deflect passive
    that did not dodge, with [n >= 1] other living members in the roster.  The shares
    go to the other living members and to nobody else.  With
    [self = int(d * 0.30)] and [share = int(d * 0.70)], the hero goes on
    through the pipeline with [self] as its damage to take, each of the others
    has at once lost [share // n] and was death-checked, and what is kept plus
    what is handed out is [self + share] less the remainder of the division.
    On the checked range [self] is the floor of 3d/10 and [share] the floor of
    7d/10 or one less, so that what is kept plus what is handed out is at most
    [d] and at least [d - n]: only the truncation of the two products (at most
    1) and the remainder of the division (at most [n - 1]) is dropped. *)
Theorem deflect_conservation (dodge : nat -> bool) (d : Z) (i : nat) (t : list hero)
    (c : Z) (h : hero) :
  t !! i = Some h ->
  Py.contains "deflect" (Py.lower (passive h)) = true ->
  Py.contains "reduce" (Py.lower (passive h)) && dodge i = false ->
  0 < d ->
  positions (other_alive (idx h)) t <> [] ->
  let mates := positions (other_alive (idx h)) t in
  let n := Z.of_nat (length mates) in
  (forall j, j ∈ mates <->
             exists m, t !! j = Some m /\ status m = alive /\ idx m <> idx h) /\
  (forall self share,
      Py.int_mul d 0.30 = inr self -> Py.int_mul d 0.70 = inr share ->
      hit_target dodge d i t c =
        shield_and_react (Py.lower (passive h)) i self
                         (share_damage (share / n) mates t) c /\
      (forall j, share_damage (share / n) mates t !! j =
                 (if decide (j ∈ mates) then lose_health (share / n) else id)
                   <$> t !! j) /\
      self + n * (share / n) = self + share - share mod n) /\
  (d <= deflect_checked_range ->
   exists self share,
     Py.int_mul d 0.30 = inr self /\ Py.int_mul d 0.70 = inr share /\
     self = 3 * d / 10 /\ 7 * d / 10 - 1 <= share <= 7 * d / 10 /\
     0 <= share / n /\
     self + n * (share / n) <= d /\
     d - n <= self + n * (share / n)).
Proof.
  intros Hl Hdef Hred Hd Hmates mates n.
  assert (Hn : 0 < n).
  { subst n mates. destruct (positions (other_alive (idx h)) t); [congruence|].
    simpl. lia. }
  split; [intros j; apply elem_of_other_alive|]. split.
  - intros self share Hs Hsh. split; [|split].
    + unfold hit_target. rewrite (deref_lookup _ _ _ Hl).
      rewrite (deflect_step _ _ _ d self share t Hdef Hred Hd Hmates Hs Hsh).
      reflexivity.
    + intros j. apply share_damage_lookup. apply NoDup_positions.
    + pose proof (Z.div_mod share n ltac:(lia)). lia.
  - intros Hrange.
    destruct (deflect_split d (conj Hd Hrange))
      as (self & share & Hs & Hsh & Hself & Hshare & H0 & Hle & Hge).
    exists self, share. split; [exact Hs|]. split; [exact Hsh|].
    split; [exact Hself|]. split; [exact Hshare|].
    pose proof (Z.div_mod share n ltac:(lia)) as Hdm.
    pose proof (Z.mod_pos_bound share n Hn) as Hmod.
    pose proof (Z.div_pos share n H0 Hn) as Hdiv.
    repeat split; lia.
Qed.

(** Example 3 of the specification: a Deflect hero hit for 100 with two other
    living members keeps 30 and hands 35 to each; the Redguard ends at 370
    with 30 accumulated, its two living mates at 365. *)
Lemma deflect_conservation_example :
  let roster :=
    alter (set_status dead ∘ set_health 0) 3%nat
          (initialize_team [Pool.Redguard; Pool.Nord; Pool.Imperial; Pool.Bosmer]) in
  (exists t1 t',
     hit_target Scenario.no_dodge 100 0 roster 0
       = shield_and_react (Py.lower Pool.deflect_text) 0 30 t1 0 /\
     Scenario.vitals t1 = [(400, alive); (365, alive); (365, alive); (0, dead)] /\
     hit_target Scenario.no_dodge 100 0 roster 0 = Ret 0 t' /\
     Scenario.vitals t' = [(370, alive); (365, alive); (365, alive); (0, dead)] /\
     accumulated_damage <$> t' = [30; 0; 0; 0]) /\
  (exists self share,
     Py.int_mul 100 0.30 = inr self /\ Py.int_mul 100 0.70 = inr share /\
     self + 2 * (share / 2) <= 100 /\ 100 - 2 <= self + 2 * (share / 2)).
Proof.
  intros roster.
  destruct (deflect_conservation Scenario.no_dodge 100 0 roster 0
              (mk_hero 0 "Redguard" 400 200 alive false false 0 200
                       Pool.deflect_text Pool.infight_text))
    as (_ & Hgen & Hnum).
  - reflexivity.
  - reflexivity.
  - reflexivity.
  - lia.
  - vm_compute. discriminate.
  - split.
    + destruct (Hgen 30 70) as (Heq & _); [vm_compute; reflexivity ..|].
      eexists _, _. split; [exact Heq|].
      split; [vm_compute; reflexivity|].
      split; [vm_compute; reflexivity|].
      split; vm_compute; reflexivity.
    + destruct Hnum as (self & share & Hs & Hsh & _ & _ & _ & Hle & Hge);
        [unfold deflect_checked_range; lia|].
      exists self, share. split; [exact Hs|]. split; [exact Hsh|].
      change (Z.of_nat (length (positions (other_alive 0) roster))) with 2 in Hle, Hge.
      split; assumption.
Defined.

(** C3 as stated fails on the binary64 products.  With a damage of 90 and
    three living mates, 70% of 90 is 63 and divides evenly into 21 each, but
    [int(90 * 0.70)] is 62 and each mate is handed 20: 87 of the 90 are
    accounted for.  With one living mate and a damage of 2^60 both products
    are exact integers, nothing is truncated and the division has no
    remainder, yet 64 are lost; and with a damage of 9732458420206899 what is
    kept and what is handed out add up to one more than the damage. *)
Lemma deflect_conservation_fails_in_binary64 :
  let pd := Py.lower Pool.deflect_text in
  let full := initialize_team [Pool.Redguard; Pool.Nord; Pool.Imperial; Pool.Bosmer] in
  let pair := alter (set_status dead ∘ set_health 0) 2%nat
                (alter (set_status dead ∘ set_health 0) 3%nat full) in
  (positions (other_alive 0) full = [1; 2; 3]%nat /\
   reduce_or_deflect false pd 0 90 full = Ret 27 (share_damage 20 [1; 2; 3]%nat full) /\
   3 * 90 / 10 = 27 /\ 7 * 90 / 10 = 3 * 21 /\ 27 + 3 * 20 = 90 - 3) /\
  (positions (other_alive 0) pair = [1%nat] /\
   reduce_or_deflect false pd 0 (2 ^ 60) pair
     = Ret 345876451382054080 (share_damage 807045053224792832 [1%nat] pair) /\
   345876451382054080 + 1 * 807045053224792832 = 2 ^ 60 - 64) /\
  (reduce_or_deflect false pd 0 9732458420206899 pair
     = Ret 2919737526062070 (share_damage 6812720894144830 [1%nat] pair) /\
   2919737526062070 + 1 * 6812720894144830 = 9732458420206899 + 1).
Proof. repeat split; vm_compute; reflexivity. Qed.

(** ** C4: what the manager checks before an internal skill *)




(** ** C5: Explode *)

Lemma track_deflect_set_health (d v : Z) (h : hero) :
  attack_power (track_deflect d (set_health v h)) = attack_power (track_deflect d h).
Proof. unfold track_deflect. simpl. destruct (_ <=? _); reflexivity. Qed.

(** What the reactions of [take_hit] give for an Explode hero that is left
    with positive damage. *)
Lemma take_hit_explode (pd : string) (low : bool) (d : Z) (h : hero) (c : Z) :
  Py.contains "explode" pd = true -> 0 < d ->
  let r := take_hit pd low d h c in
  let counter := if Py.contains "counter" pd && low then 30 else 0 in
  let tracked := if Py.contains "deflect" pd then track_deflect d h else h in
  r.2 = c + counter + (if 0 <? health h - d then 40 else 0) /\
  attack_power r.1 =
    attack_power tracked
    + (if (health h - d <? 120) && (0 <? health h - d) then 15 else 0).
Proof.
  intros Hexp Hd. apply Z.ltb_lt in Hd. unfold take_hit. rewrite Hexp, Hd.
  cbn [andb fst snd].
  set (h2 := if Py.contains "deflect" pd
             then track_deflect d (set_health (health h - d) h)
             else set_health (health h - d) h).
  assert (Hh2 : health h2 = health h - d).
  { subst h2. destruct (Py.contains "deflect" pd);
      [rewrite track_deflect_health|]; reflexivity. }
  assert (Ha2 : attack_power h2 =
                attack_power (if Py.contains "deflect" pd then track_deflect d h else h)).
  { subst h2. destruct (Py.contains "deflect" pd);
      [apply track_deflect_set_health|reflexivity]. }
  rewrite Hh2. split.
  - destruct (Py.contains "counter" pd && low), (0 <? health h - d); lia.
  - destruct (check_death_fields
                (if Py.contains "heal:" pd
                    && (0 <? health (if (health h - d <? 120) && (0 <? health h - d)
                                     then set_attack_power (attack_power h2 + 15) h2
                                     else h2))
                    && true
                 then set_health
                        (health (if (health h - d <? 120) && (0 <? health h - d)
                                 then set_attack_power (attack_power h2 + 15) h2
                                 else h2) + 20)
                        (if (health h - d <? 120) && (0 <? health h - d)
                         then set_attack_power (attack_power h2 + 15) h2 else h2)
                 else (if (health h - d <? 120) && (0 <? health h - d)
                       then set_attack_power (attack_power h2 + 15) h2 else h2)))
      as (_ & _ & -> & _).
    rewrite <- Ha2.
    destruct (Py.contains "heal:" pd && _ && true);
      destruct ((health h - d <? 120) && (0 <? health h - d)); simpl; lia.
Qed.

Lemma reduce_or_deflect_length (dodged : bool) (pd : string) (k : nat) (d : Z)
    (t : list hero) :
  length (final_state (reduce_or_deflect dodged pd k d t)) = length t.
Proof.
  unfold reduce_or_deflect.
  destruct (_ && dodged); [reflexivity|].
  destruct (_ && _); [|reflexivity].
  destruct (Py.int_mul d 0.30); [reflexivity|].
  destruct (Py.int_mul d 0.70); [reflexivity|].
  destruct (positions _ t) eqn:Hp; [reflexivity|]. cbn [final_state].
  apply share_damage_length.
Qed.

Lemma consume_shield_length (i : nat) (d : Z) (t : list hero) :
  length (final_state (consume_shield i d t)) = length t.
Proof.
  unfold consume_shield. destruct (_ && _); [|reflexivity].
  destruct (Py.int_mul d 0.30); [reflexivity|]. cbn [final_state].
  apply length_alter.
Qed.

(** C5 (amended).  In the pipeline of a target with the Explode passive that
    is left with positive damage [d2] after Reduce, Deflect and the shield: 40
    is added to the counter damage when the hero's health stays positive once
    [d2] is taken off, and nothing when the hit brings it to zero or below;
    and its attack power grows by 15 exactly when that health lies strictly
    between 0 and 120.  ([counter] is the 30 of a Counter passive in the same
    text, [tracked] the hero after the Deflect bookkeeping.) *)
Theorem explode_reaction (dodge : nat -> bool) (raw : Z) (i : nat) (t : list hero)
    (c : Z) (h : hero) (d1 d2 : Z) (t1 t2 : list hero) :
  t !! i = Some h ->
  Py.contains "explode" (Py.lower (passive h)) = true ->
  reduce_or_deflect (dodge i) (Py.lower (passive h)) (idx h) raw t = Ret d1 t1 ->
  consume_shield i d1 t1 = Ret d2 t2 ->
  0 < d2 ->
  let hero := deref t2 i in
  let left := health hero - d2 in
  let counter :=
    if Py.contains "counter" (Py.lower (passive h))
       && existsb (fun m => other_alive (idx hero) m && (health m <? 120)) t2
    then 30 else 0 in
  let tracked :=
    if Py.contains "deflect" (Py.lower (passive h)) then track_deflect d2 hero else hero in
  exists c' t',
    hit_target dodge raw i t c = Ret c' t' /\
    (0 < left -> c' = c + counter + 40) /\
    (left <= 0 -> c' = c + counter) /\
    (0 < left < 120 -> attack_power (deref t' i) = attack_power tracked + 15) /\
    (left <= 0 \/ 120 <= left -> attack_power (deref t' i) = attack_power tracked).
Proof.
  intros Hl Hexp H1 H2 Hd hero left counter tracked.
  pose proof (take_hit_explode (Py.lower (passive h))
                (existsb (fun m => other_alive (idx hero) m && (health m <? 120)) t2)
                d2 hero c Hexp Hd) as [Hc Hap].
  fold left in Hc, Hap. fold counter in Hc. fold tracked in Hap.
  assert (Hlen : (i < length t2)%nat).
  { pose proof (reduce_or_deflect_length (dodge i) (Py.lower (passive h)) (idx h) raw t) as L1.
    pose proof (consume_shield_length i d1 t1) as L2.
    rewrite H1 in L1. rewrite H2 in L2. cbn [final_state] in L1, L2.
    rewrite L2, L1. eapply lookup_lt_Some. exact Hl. }
  destruct (lookup_lt_is_Some_2 t2 i Hlen) as [h2 Hl2].
  destruct (take_hit _ _ _ _ _) as [h' c'] eqn:Ht. cbn [fst snd] in *.
  exists c', (<[i := h']> t2). split.
  { unfold hit_target, shield_and_react.
    rewrite (deref_lookup _ _ _ Hl), H1. cbn [obind].
    rewrite H2. cbn [obind]. fold hero. rewrite Ht. reflexivity. }
  rewrite (deref_insert _ _ _ _ Hl2).
  split; [|split; [|split]].
  - intros Hpos. rewrite Hc. apply Z.ltb_lt in Hpos. rewrite Hpos. reflexivity.
  - intros Hneg. rewrite Hc.
    destruct (0 <? left) eqn:Hp; [apply Z.ltb_lt in Hp; lia|lia].
  - intros [Hlo Hhi]. rewrite Hap.
    apply Z.ltb_lt in Hlo, Hhi. rewrite Hlo, Hhi. reflexivity.
  - intros Hout. rewrite Hap.
    destruct (left <? 120) eqn:Hhi, (0 <? left) eqn:Hlo; cbn [andb]; lia.
Qed.

(** The Bosmer at full health hit for 300: it survives at 100, sends 40 back
    and gains 15 attack power. *)
Lemma explode_reaction_example :
  let roster := initialize_team Scenario.team_1 in
  exists c' t',
    hit_target Scenario.no_dodge 300 3 roster 0 = Ret c' t' /\
    c' = 40 /\ attack_power (deref t' 3) = 215 /\ health (deref t' 3) = 100.
Proof.
  intros roster.
  destruct (explode_reaction Scenario.no_dodge 300 3 roster 0
              (mk_hero 3 "Bosmer" 400 200 alive false false 0 200
                       Pool.explode_text Pool.crit_lowest_text)
              300 300 roster roster eq_refl eq_refl eq_refl eq_refl)
    as (c' & t' & Heq & Hc & _ & Hap & _); [lia|].
  exists c', t'. split; [exact Heq|].
  split; [apply Hc; vm_compute; reflexivity|].
  split; [rewrite Hap by (vm_compute; split; reflexivity); reflexivity|].
  assert (Ht' : Ret c' t' = hit_target Scenario.no_dodge 300 3 roster 0)
    by (symmetry; exact Heq).
  vm_compute in Ht'. injection Ht' as _ ->. reflexivity.
Defined.

(** C5 as stated fails when the hit kills the Explode hero: the Bosmer at 100
    health takes 200 and dies, and no counter damage is returned. *)
Lemma explode_silent_on_death :
  let roster := alter (set_health 100) 3%nat (initialize_team Scenario.team_1) in
  exists fb t',
    process_incoming_attack (Scenario.fixed_parse 200 false false) Scenario.no_dodge
      (Scenario.strike 3 "Nord") roster = Ret (Some fb) t' /\
    Scenario.vitals roster = [(400, alive); (400, alive); (400, alive); (100, alive)] /\
    Scenario.vitals t' = [(400, alive); (400, alive); (400, alive); (0, dead)] /\
    counter_damage fb = 0.
Proof.
  intros roster. eexists _, _. split; [vm_compute; reflexivity|].
  repeat split; vm_compute; reflexivity.
Qed.

(** ** C6: a side with nobody left *)

Lemma set_manager_same (s : side) (g : game) : set_manager s (manager s g) g = g.
Proof. destruct s, g; reflexivity. Qed.

Lemma no_alive_filter (t : list hero) :
  get_alive_count t = 0%nat -> filter (fun h => status h = alive) t = [].
Proof. unfold get_alive_count. apply nil_length_inv. Qed.

Lemma perform_turn_defeat (o : oracles) (active : side) (round : nat) (g : game) :
  get_alive_count (manager active g) = 0%nat ->
  perform_turn o active round g = Ret (Some GAME_OVER) g.
Proof.
  intros H0. apply no_alive_filter in H0.
  unfold perform_turn, select_hero_for_turn. rewrite H0.
  rewrite set_manager_same. reflexivity.
Qed.

(** C6 (amended).  When the acting side has no living hero at its action
    selection, the turn ends the game at once: no oracle is asked, neither
    roster nor ledger changes, and the result is [GAME_OVER], not the [None]
    of an aborted turn.  The battle loop stops there.  The post-game verdict
    then names the opposing side when it still has a living hero, and is a
    draw when it has none; at difficulty 1.0 the statistics are returned. *)
Theorem defeat_ends_episode :
  (forall o active round g,
      get_alive_count (manager active g) = 0%nat ->
      perform_turn o active round g = Ret (Some GAME_OVER) g) /\
  (forall o fuel round g,
      get_alive_count (manager_a g) = 0%nat ->
      battle o (S fuel) round g = Some (Ret (Some Team_B) g)) /\
  (forall o fuel round g g1,
      perform_turn o TeamA round g = Ret (Some CONTINUE) g1 ->
      get_alive_count (manager_b g1) = 0%nat ->
      battle o (S fuel) round g = Some (Ret (Some Team_A) g1)) /\
  (forall difficulty active g stats,
      get_alive_count (manager active g) = 0%nat ->
      post_game difficulty g = inr stats ->
      winner stats =
        if (0 <? get_alive_count (manager (opponent active) g))%nat
        then label (opponent active) else Draw) /\
  (forall g, exists stats, post_game 1 g = inr stats).
Proof.
  split; [exact perform_turn_defeat|].
  split.
  { intros o fuel round g H0. simpl.
    rewrite (perform_turn_defeat o TeamA round g H0). reflexivity. }
  split.
  { intros o fuel round g g1 HA H0. simpl. rewrite HA.
    rewrite (perform_turn_defeat o TeamB round g1 H0). reflexivity. }
  split.
  { intros difficulty active g stats H0. unfold post_game.
    destruct (if PrimFloat.eqb difficulty 1 then _ else _) as [e|hp]; [discriminate|].
    intros [= <-]. cbn [winner].
    destruct active; cbn [manager opponent label] in *; rewrite H0.
    - destruct (get_alive_count (manager_b g)); reflexivity.
    - destruct (get_alive_count (manager_a g)); reflexivity. }
  intros g. eexists. unfold post_game. reflexivity.
Qed.

(** Team A wiped out by an area attack in round 1 of [heal_script]: round 2
    ends the game as soon as A is asked to act, and B is the winner. *)
Lemma defeat_ends_episode_example :
  let g0 := mk_game (initialize_team Scenario.team_1) (initialize_team Scenario.team_1) ∅ ∅ in
  exists g1 g2,
    perform_turn Scenario.heal_script TeamA 1 g0 = Ret (Some CONTINUE) g1 /\
    perform_turn Scenario.heal_script TeamB 1 g1 = Ret (Some CONTINUE) g2 /\
    get_alive_count (manager_a g2) = 0%nat /\
    perform_turn Scenario.heal_script TeamA 2 g2 = Ret (Some GAME_OVER) g2 /\
    exists stats, post_game 1 g2 = inr stats /\ winner stats = Team_B.
Proof.
  intros g0.
  destruct (perform_turn Scenario.heal_script TeamA 1 g0) as [[[|]|] g1|e g1] eqn:H1;
    try (vm_compute in H1; discriminate).
  destruct (perform_turn Scenario.heal_script TeamB 1 g1) as [[[|]|] g2|e g2] eqn:H2;
    try (vm_compute in H1; injection H1 as <-; vm_compute in H2; discriminate).
  assert (H0 : get_alive_count (manager_a g2) = 0%nat).
  { vm_compute in H1. injection H1 as <-. vm_compute in H2. injection H2 as <-.
    reflexivity. }
  exists g1, g2. split; [reflexivity|]. split; [exact H2|]. split; [exact H0|].
  split; [apply (proj1 defeat_ends_episode); exact H0|].
  destruct (proj2 (proj2 (proj2 (proj2 defeat_ends_episode))) g2) as [stats Hs].
  pose proof (proj1 (proj2 (proj2 (proj2 defeat_ends_episode))) 1%float TeamA g2 stats H0 Hs)
    as Hw.
  exists stats. split; [exact Hs|]. rewrite Hw.
  vm_compute in H1. injection H1 as <-. vm_compute in H2. injection H2 as <-.
  reflexivity.
Defined.

(** C6 as stated fails when the other side has nobody left either.  In
    [double_ko_script] the last hero of B dies of the recoil of the attack that
    kills the last heroes of A; round 3 ends with A's defeat at action
    selection (the loop breaks with [winner = "Team B"]), and the episode is
    recorded as a draw. *)
Lemma double_knockout_is_a_draw :
  let g0 := mk_game (initialize_team Scenario.team_1) (initialize_team Scenario.team_2) ∅ ∅ in
  Scenario.ending (battle Scenario.double_ko_script 2 1 g0) = None /\
  Scenario.ending (battle Scenario.double_ko_script 3 1 g0)
    = Some (Some (Some Team_B),
            [(0, dead); (0, dead); (0, dead); (0, dead)],
            [(0, dead); (0, dead); (0, dead); (0, dead)]) /\
  run_game_loop Scenario.double_ko_script 3
                (Some Scenario.team_1) (Some Scenario.team_2) 1
    = Finished (Some (mk_episode Draw 1600 1600)).
Proof. repeat split; vm_compute; reflexivity. Qed.

(** ** C7: the metrics *)


Lemma rate_of_ints (a : Z) (n : positive) :
  (inject_Z a / inject_Z (Z.pos n) == a # n)%Q.
Proof.
  unfold Qdiv, Qinv, inject_Z, Qmult, Qeq. simpl. lia.
Qed.




(** ** C8: the damage recorded for an episode *)

(** At difficulty 1.0 the recorded damage is 1600 minus the final total
    health of the other roster, and 1600 is the starting total of a roster of
    four heroes without scaled stats. *)
Lemma post_game_unscaled (g : game) :
  exists w,
    post_game 1 g = inr (mk_episode w (1600 - get_total_team_health (manager_b g))
                                      (1600 - get_total_team_health (manager_a g))).
Proof. eexists. unfold post_game. reflexivity. Qed.

Lemma unscaled_start (data : list (string * hero_info)) :
  length data = 4%nat ->
  Forall (fun e => initial_health e.2 = None) data ->
  get_total_team_health (initialize_team data) = 1600.
Proof.
  intros Hlen Hnone.
  destruct data as [|[n1 i1] [|[n2 i2] [|[n3 i3] [|[n4 i4] [|]]]]]; try discriminate.
  repeat (apply Forall_cons in Hnone as [? Hnone]). simpl in *.
  unfold get_total_team_health. simpl.
  repeat match goal with H : initial_health _ = None |- _ => rewrite H; clear H end.
  reflexivity.
Qed.

(** C8 at difficulty 2.0.  Each hero of B starts at [int(400 * sqrt 2) = 565],
    2260 in all, while the start the statistics use is
    [int(1600 * sqrt 2) = 2262].  In [idle_script] side A never attacks and B
    ends the episode with its 2260 untouched; the damage recorded for A is 2. *)
Theorem scaled_start_is_off_by_rounding :
  exists data,
    apply_difficulty_scaling Scenario.team_1 2 = inr data /\
    Scenario.vitals (initialize_team data)
      = [(565, alive); (565, alive); (565, alive); (565, alive)] /\
    get_total_team_health (initialize_team data) = 2260 /\
    Scenario.ending
      (battle Scenario.idle_script 2 1
         (mk_game (initialize_team Scenario.team_3) (initialize_team data) ∅ ∅))
      = Some (Some (Some Team_B),
              [(0, dead); (0, dead); (0, dead); (0, dead)],
              [(565, alive); (565, alive); (565, alive); (565, alive)]) /\
    run_game_loop Scenario.idle_script 2
                  (Some Scenario.team_3) (Some Scenario.team_1) 2
      = Finished (Some (mk_episode Team_B 2 1600)).
Proof.
  eexists. split; [vm_compute; reflexivity|].
  repeat split; vm_compute; reflexivity.
Qed.

(** ** C10: Heal has no cap *)

Lemma set_health_set_health (v w : Z) (h : hero) :
  set_health v (set_health w h) = set_health v h.
Proof. reflexivity. Qed.

(** The Heal trigger in [take_hit]: a hero that is left with positive health
    after a positive damage gets 20 back, whatever its health. *)
Lemma take_hit_heal (pd : string) (low : bool) (d : Z) (h : hero) (c : Z) :
  Py.contains "heal:" pd = true -> 0 < d -> 0 < health h - d ->
  health (take_hit pd low d h c).1 = health h - d + 20.
Proof.
  intros Hheal Hd Hleft. unfold take_hit. cbn [fst].
  apply Z.ltb_lt in Hd. rewrite Hheal, Hd. cbn [andb].
  set (h2 := if Py.contains "deflect" pd
             then track_deflect d (set_health (health h - d) h)
             else set_health (health h - d) h).
  assert (Hh2 : health h2 = health h - d).
  { subst h2. destruct (Py.contains "deflect" pd);
      [rewrite track_deflect_health|]; reflexivity. }
  set (h3 := if _ : bool then set_attack_power (attack_power h2 + 15) h2 else h2).
  assert (Hh3 : health h3 = health h - d).
  { subst h3. destruct (_ && _); exact Hh2. }
  rewrite Hh3. apply Z.ltb_lt in Hleft. rewrite Hleft. cbn [andb].
  unfold _check_death. cbn [health set_health].
  apply Z.ltb_lt in Hleft.
  destruct (health h - d + 20 <=? 0) eqn:Hle; [apply Z.leb_le in Hle; lia|].
  reflexivity.
Qed.

(** With Heal as the only reaction the hit is the damage and the 20. *)
Lemma take_hit_heal_only (pd : string) (low : bool) (d : Z) (h : hero) (c : Z) :
  Py.contains "deflect" pd = false -> Py.contains "counter" pd = false ->
  Py.contains "explode" pd = false -> Py.contains "heal:" pd = true ->
  0 < d -> 0 < health h - d ->
  take_hit pd low d h c = (set_health (health h - d + 20) h, c).
Proof.
  intros Hdef Hcnt Hexp Hheal Hd Hleft. unfold take_hit.
  rewrite Hdef, Hcnt, Hexp, Hheal. apply Z.ltb_lt in Hd. rewrite Hd.
  cbn [andb health set_health].
  pose proof Hleft as Hl. apply Z.ltb_lt in Hl. rewrite Hl.
  unfold _check_death. cbn [andb health set_health].
  destruct (health h - d + 20 <=? 0) eqn:Hle; [apply Z.leb_le in Hle; lia|].
  reflexivity.
Qed.

Lemma poke_heals (t : list hero) (v : Z) :
  2 <= v -> healer_at t v -> healer_at (poke t) (v + 19).
Proof.
  intros Hv (h & Hl & Hh & Hs & Hn & Hp & Hsh).
  assert (Hget : my_team_get t 2 = Some (2%nat, h)).
  { change 2 with (Z.of_nat 2). rewrite my_team_get_nat, Hl. reflexivity. }
  assert (Hpoke : poke t =
    <[2%nat := (take_hit (Py.lower Pool.heal_text)
                  (existsb (fun m => other_alive (idx h) m && (health m <? 120)) t)
                  1 h 0).1]> t).
  { unfold poke, process_incoming_attack.
    cbn [target_position Scenario.strike]. rewrite Hget.
    unfold identity_check. cbn [guessed_identity Scenario.strike]. rewrite Hn.
    rewrite bool_decide_eq_false_2 by (vm_compute; discriminate).
    cbn [andb Scenario.fixed_parse]. unfold resolve_skill.
    rewrite determine_single_target, (deref_lookup _ _ _ Hl).
    apply is_alive_true in Hs. rewrite Hs. cbn [hit_targets obind].
    rewrite (hit_target_direct _ _ _ _ _ h Hl).
    - rewrite Hp. reflexivity.
    - rewrite Hp. reflexivity.
    - rewrite Hp. reflexivity.
    - exact Hsh. }
  rewrite (take_hit_heal_only (Py.lower Pool.heal_text) _ 1 h 0) in Hpoke
    by (try reflexivity; lia).
  cbn [fst] in Hpoke.
  exists (set_health (health h - 1 + 20) h). split.
  { rewrite Hpoke. apply list_lookup_insert_eq. eapply lookup_lt_Some. exact Hl. }
  cbn [health status name passive subtle_shield set_health].
  repeat split; try assumption. lia.
Qed.

Lemma poke_iterated (k : nat) :
  healer_at (Nat.iter k poke (initialize_team Scenario.team_1)) (400 + 19 * Z.of_nat k).
Proof.
  induction k as [|k IH].
  - simpl. eexists. split; [reflexivity|]. repeat split.
  - cbn [Nat.iter]. replace (400 + 19 * Z.of_nat (S k)) with (400 + 19 * Z.of_nat k + 19) by lia.
    apply poke_heals; [lia|exact IH].
Qed.

(** C10.  Each Heal trigger gives 20 health back without any cap: a hero
    with the Heal passive that is left with positive health after a positive
    damage ends the hit 20 above it.  The health of the Imperial therefore
    passes every bound under repeated hits of 1; and in the episode of
    [heal_script] the Imperial of B ends at 419, B's total at 1619, above the
    1600 it started with, and the damage recorded for A is -19. *)
Theorem heal_has_no_cap :
  (forall pd low d h c,
      Py.contains "heal:" pd = true -> 0 < d -> 0 < health h - d ->
      health (take_hit pd low d h c).1 = health h - d + 20) /\
  (forall bound, exists k,
      bound < health (deref (Nat.iter k poke (initialize_team Scenario.team_1)) 2)) /\
  (let g0 := mk_game (initialize_team Scenario.team_1)
                     (initialize_team Scenario.team_1) ∅ ∅ in
   get_total_team_health (manager_b g0) = 1600 /\
   Scenario.ending (battle Scenario.heal_script 2 1 g0)
     = Some (Some (Some Team_B),
             [(0, dead); (0, dead); (0, dead); (0, dead)],
             [(400, alive); (400, alive); (419, alive); (400, alive)]) /\
   Scenario.totals (battle Scenario.heal_script 2 1 g0) = Some (0, 1619) /\
   run_game_loop Scenario.heal_script 2
                 (Some Scenario.team_1) (Some Scenario.team_1) 1
     = Finished (Some (mk_episode Team_B (-19) 1600))).
Proof.
  split; [exact take_hit_heal|]. split.
  - intros bound. exists (Z.to_nat bound).
    destruct (poke_iterated (Z.to_nat bound)) as (h & Hl & Hh & _).
    rewrite (deref_lookup _ _ _ Hl), Hh. lia.
  - repeat split; vm_compute; reflexivity.
Qed.

(** The Imperial at 400 hit for 1 ends at 419. *)
Lemma heal_has_no_cap_example :
  health (take_hit (Py.lower Pool.heal_text) false 1
            (mk_hero 2 "Imperial" 400 200 alive false false 0 200
                     Pool.heal_text Pool.infight_text) 0).1 = 419.
Proof.
  rewrite (proj1 heal_has_no_cap); [reflexivity|reflexivity|simpl; lia|simpl; lia].
Defined.

(** * Further properties of the engine *)

(** ** How a roster evolves *)

Lemma evolves_refl (h : hero) : evolves h h.
Proof. unfold evolves, same_identity. repeat split; auto; lia. Qed.

Lemma evolves_trans (h1 h2 h3 : hero) : evolves h1 h2 -> evolves h2 h3 -> evolves h1 h3.
Proof.
  unfold evolves, same_identity.
  intros ((?&?&?&?)&?&?&?&?) ((?&?&?&?)&?&?&?&?).
  repeat split; try congruence; auto; lia.
Qed.

Global Instance evolves_reflexive : Reflexive evolves := evolves_refl.
Global Instance evolves_transitive : Transitive evolves := evolves_trans.

Lemma roster_evolves_alter (f : hero -> hero) (i : nat) (t : list hero) :
  (forall h, evolves h (f h)) -> Forall2 evolves t (alter f i t).
Proof.
  intros Hf. apply Forall2_alter_r; [reflexivity|].
  intros x y _ _ Hxy. etransitivity; [exact Hxy|apply Hf].
Qed.

Lemma roster_evolves_fmap (f : hero -> hero) (t : list hero) :
  (forall h, evolves h (f h)) -> Forall2 evolves t (f <$> t).
Proof.
  intros Hf. apply Forall2_fmap_r. apply Forall_Forall2_diag.
  apply Forall_forall. intros x _. apply Hf.
Qed.

Lemma roster_evolves_insert (i : nat) (h' : hero) (t : list hero) :
  evolves (deref t i) h' -> Forall2 evolves t (<[i := h']> t).
Proof.
  intros Hh. destruct (t !! i) as [h|] eqn:Hl.
  - rewrite (deref_lookup _ _ _ Hl) in Hh.
    rewrite <- (list_insert_id t i h Hl) at 1.
    apply Forall2_insert; [reflexivity|exact Hh].
  - rewrite list_insert_ge; [reflexivity|]. apply lookup_ge_None. exact Hl.
Qed.

Lemma check_death_evolves (h : hero) : evolves h (_check_death h).
Proof.
  unfold _check_death. destruct (health h <=? 0); [|reflexivity].
  unfold evolves, same_identity. simpl. repeat split; auto; lia.
Qed.

Lemma lose_health_evolves (d : Z) (h : hero) : evolves h (lose_health d h).
Proof.
  unfold lose_health. etransitivity; [|apply check_death_evolves].
  unfold evolves, same_identity. simpl. repeat split; auto; lia.
Qed.

Lemma track_deflect_evolves (d : Z) (h : hero) : evolves h (track_deflect d h).
Proof.
  unfold track_deflect. cbv zeta. destruct (_ <=? _);
    unfold evolves, same_identity; simpl; repeat split; auto; lia.
Qed.

Lemma take_hit_evolves (pd : string) (low : bool) (d : Z) (h : hero) (c : Z) :
  evolves h (take_hit pd low d h c).1.
Proof.
  unfold take_hit. cbv zeta. cbn [fst].
  etransitivity; [|apply check_death_evolves].
  set (h1 := if 0 <? d then set_health (health h - d) h else h).
  assert (H1 : evolves h h1).
  { subst h1. destruct (0 <? d); [|reflexivity].
    unfold evolves, same_identity. simpl. repeat split; auto; lia. }
  set (h2 := if Py.contains "deflect" pd then track_deflect d h1 else h1).
  assert (H2 : evolves h h2).
  { subst h2. destruct (Py.contains "deflect" pd); [|exact H1].
    etransitivity; [exact H1|apply track_deflect_evolves]. }
  set (h3 := if Py.contains "explode" pd && (0 <? d)
                  && ((health h2 <? 120) && (0 <? health h2))
              then set_attack_power (attack_power h2 + 15) h2 else h2).
  assert (H3 : evolves h h3).
  { subst h3. destruct (_ && _ && _); [|exact H2]. etransitivity; [exact H2|].
    unfold evolves, same_identity. simpl. repeat split; auto; lia. }
  destruct (Py.contains "heal:" pd && _ && _); [|exact H3].
  etransitivity; [exact H3|].
  unfold evolves, same_identity. simpl. repeat split; auto; lia.
Qed.

Lemma global_breach_evolves (pos : nat) (t : list hero) :
  Forall2 evolves t (global_breach pos t).
Proof.
  unfold global_breach. etransitivity.
  - apply (roster_evolves_alter (set_revealed true) pos). intros h.
    unfold evolves, same_identity. simpl. repeat split; auto; lia.
  - apply roster_evolves_fmap. intros h. unfold take_global.
    destruct (is_alive h); [apply lose_health_evolves|reflexivity].
Qed.

Lemma share_damage_evolves (per : Z) (mates : list nat) (t : list hero) :
  Forall2 evolves t (share_damage per mates t).
Proof.
  unfold share_damage. revert t. induction mates as [|m ms IH]; intros t; simpl.
  - reflexivity.
  - etransitivity; [|apply IH]. apply roster_evolves_alter. apply lose_health_evolves.
Qed.

Lemma reduce_or_deflect_evolves (dodged : bool) (pd : string) (k : nat) (d : Z)
    (t : list hero) :
  Forall2 evolves t (final_state (reduce_or_deflect dodged pd k d t)).
Proof.
  unfold reduce_or_deflect.
  destruct (Py.contains "reduce" pd && dodged); [reflexivity|].
  destruct (Py.contains "deflect" pd && (0 <? d)); [|reflexivity].
  destruct (Py.int_mul d 0.30); [reflexivity|].
  destruct (Py.int_mul d 0.70); [reflexivity|].
  destruct (positions (other_alive k) t); [reflexivity|].
  cbn [final_state]. apply share_damage_evolves.
Qed.

Lemma consume_shield_evolves (i : nat) (d : Z) (t : list hero) :
  Forall2 evolves t (final_state (consume_shield i d t)).
Proof.
  unfold consume_shield.
  destruct (subtle_shield (deref t i) && (0 <? d)); [|reflexivity].
  destruct (Py.int_mul d 0.30); [reflexivity|]. cbn [final_state].
  apply roster_evolves_alter. intros h.
  unfold evolves, same_identity. simpl. repeat split; auto; lia.
Qed.

Lemma shield_and_react_evolves (pd : string) (i : nat) (d : Z) (t : list hero) (c : Z) :
  Forall2 evolves t (final_state (shield_and_react pd i d t c)).
Proof.
  unfold shield_and_react.
  pose proof (consume_shield_evolves i d t) as H1.
  destruct (consume_shield i d t) as [d2 t2|e t2]; cbn [final_state obind] in *;
    [|exact H1].
  cbv zeta.
  pose proof (take_hit_evolves pd
    (existsb (fun h => other_alive (idx (deref t2 i)) h && (health h <? 120)) t2)
    d2 (deref t2 i) c) as H2.
  destruct (take_hit _ _ _ _ _) as [h' c']. cbn [final_state fst] in *.
  etransitivity; [exact H1|]. apply roster_evolves_insert. exact H2.
Qed.

Lemma hit_target_evolves (dodge : nat -> bool) (raw : Z) (i : nat) (t : list hero) (c : Z) :
  Forall2 evolves t (final_state (hit_target dodge raw i t c)).
Proof.
  unfold hit_target. cbv zeta.
  pose proof (reduce_or_deflect_evolves (dodge i) (Py.lower (passive (deref t i)))
                (idx (deref t i)) raw t) as H1.
  destruct (reduce_or_deflect _ _ _ _ _) as [d1 t1|e t1];
    cbn [final_state obind] in *; [|exact H1].
  etransitivity; [exact H1|]. apply shield_and_react_evolves.
Qed.

Lemma hit_targets_evolves (dodge : nat -> bool) (raw : Z) (targets : list nat)
    (t : list hero) (c : Z) :
  Forall2 evolves t (final_state (hit_targets dodge raw targets t c)).
Proof.
  revert t c. induction targets as [|i rest IH]; intros t c; simpl.
  - reflexivity.
  - pose proof (hit_target_evolves dodge raw i t c) as H1.
    destruct (hit_target dodge raw i t c) as [c1 t1|e t1];
      cbn [final_state obind] in *; [|exact H1].
    etransitivity; [exact H1|apply IH].
Qed.

Lemma resolve_skill_evolves (dodge : nat -> bool) (ap : Z) (correct : bool)
    (actual : string) (pos : nat) (parsed : SkillAttributes) (t : list hero) :
  Forall2 evolves t (final_state (resolve_skill dodge ap correct actual pos parsed t)).
Proof.
  unfold resolve_skill.
  destruct (determine_targets _ _ _ _) as [e|[targets raw]]; [reflexivity|].
  pose proof (hit_targets_evolves dodge raw targets t 0) as H2.
  destruct (hit_targets dodge raw targets t 0) as [c2 t2|e t2]; exact H2.
Qed.

Lemma identity_check_evolves (attack : attack_info) (pos : nat) (target : hero)
    (t : list hero) :
  Forall2 evolves t (identity_check attack pos target t).2.
Proof.
  unfold identity_check. cbn [snd].
  destruct (_ && _); [apply global_breach_evolves|reflexivity].
Qed.

Lemma process_incoming_attack_evolves parse (dodge : nat -> bool) (attack : attack_info)
    (t : list hero) :
  Forall2 evolves t (final_state (process_incoming_attack parse dodge attack t)).
Proof.
  unfold process_incoming_attack.
  destruct (my_team_get t (target_position attack)) as [[pos target]|]; [|reflexivity].
  pose proof (identity_check_evolves attack pos target t) as H1.
  destruct (identity_check attack pos target t) as [correct t1]. cbn [snd] in H1.
  destruct (parse _ _ _) as [parsed|]; [|exact H1].
  etransitivity; [exact H1|apply resolve_skill_evolves].
Qed.

Lemma execute_internal_skill_evolves (decision : manager_response) (t : list hero) :
  Forall2 evolves t (final_state (_execute_internal_skill decision t)).
Proof.
  unfold _execute_internal_skill.
  destruct (selected_skill decision) as [s|]; [|reflexivity].
  destruct (teammate_target_id decision) as [target_id|]; [|reflexivity].
  destruct (my_team_get t target_id) as [[target ?]|]; [|reflexivity].
  destruct (selected_hero_id decision ≫= my_team_get t) as [[actor ?]|]; [|reflexivity].
  destruct (Py.contains "infight" (Py.lower s)).
  - destruct (bool_decide _); [reflexivity|]. cbn [final_state].
    etransitivity; [apply (roster_evolves_alter (lose_health 75) target);
                    apply lose_health_evolves|].
    apply roster_evolves_alter. intros x.
    unfold evolves, same_identity. simpl. repeat split; auto; lia.
  - destruct (Py.contains "subtle" (Py.lower s)); [|reflexivity]. cbn [final_state].
    apply roster_evolves_alter. intros x.
    unfold evolves, same_identity. simpl. repeat split; auto; lia.
Qed.

Lemma select_hero_for_turn_evolves llm (t : list hero) :
  Forall2 evolves t (select_hero_for_turn llm t).2.
Proof.
  unfold select_hero_for_turn.
  destruct (filter _ t); [reflexivity|].
  destruct (llm t) as [response|]; [|reflexivity].
  destruct (selected_hero_id response ≫= my_team_get t) as [[? actor]|]; [|reflexivity].
  destruct (selected_skill response) as [s|]; [|reflexivity].
  destruct (_ && _); [reflexivity|].
  destruct (bool_decide _); [|reflexivity].
  pose proof (execute_internal_skill_evolves response t) as H.
  destruct (_execute_internal_skill response t); exact H.
Qed.

Lemma update_hero_stats_evolves (target_id damage_amount : Z) (t : list hero) :
  Forall2 evolves t (update_hero_stats target_id damage_amount t).
Proof.
  unfold update_hero_stats.
  destruct (my_team_get t target_id) as [[i ?]|]; [|reflexivity].
  apply roster_evolves_alter. apply lose_health_evolves.
Qed.

Lemma recoil_evolves (c : Z) (attacker_id : option Z) (t t' : list hero) :
  recoil c attacker_id t = Some t' -> Forall2 evolves t t'.
Proof.
  unfold recoil. destruct (0 <? c).
  - destruct attacker_id as [a|]; [|discriminate].
    intros [= <-]. apply update_hero_stats_evolves.
  - intros [= <-]. reflexivity.
Qed.

Lemma game_evolves_refl (g : game) : game_evolves g g.
Proof. split; reflexivity. Qed.

Lemma game_evolves_trans (g1 g2 g3 : game) :
  game_evolves g1 g2 -> game_evolves g2 g3 -> game_evolves g1 g3.
Proof. intros [? ?] [? ?]. split; etransitivity; eassumption. Qed.

Lemma game_evolves_set_manager (s : side) (t : list hero) (g : game) :
  Forall2 evolves (manager s g) t -> game_evolves g (set_manager s t g).
Proof. intros H. destruct s; split; simpl; try reflexivity; exact H. Qed.

Lemma game_evolves_set_lead (s : side) (k : gmap Z intel) (g : game) :
  game_evolves g (set_lead s k g).
Proof. destruct s; split; reflexivity. Qed.

Lemma dispatch_attack_evolves (o : oracles) (active : side) (round : nat) (g1 : game)
    (d : manager_decision) :
  game_evolves g1 (final_state (dispatch_attack o active round g1 d)).
Proof.
  unfold dispatch_attack. cbv zeta.
  destruct (get_turn_decision _ _ _ d) as [[|payload]|]; try apply game_evolves_refl.
  pose proof (process_incoming_attack_evolves (skill_llm o (opponent active) round)
                (reduce_roll o (opponent active) round) payload
                (manager (opponent active) g1)) as Hatk.
  destruct (process_incoming_attack _ _ _ _) as [[fb|] team'|e team'];
    cbn [final_state] in *; try (apply game_evolves_set_manager; assumption).
  pose proof (game_evolves_set_manager (opponent active) team' g1 Hatk) as H2.
  destruct (recoil _ _ _) as [team''|] eqn:Hrec; cbn [final_state]; [|exact H2].
  eapply game_evolves_trans; [exact H2|].
  eapply game_evolves_trans; [|apply game_evolves_set_lead].
  apply game_evolves_set_manager. eapply recoil_evolves. exact Hrec.
Qed.

Lemma perform_turn_evolves (o : oracles) (active : side) (round : nat) (g : game) :
  game_evolves g (final_state (perform_turn o active round g)).
Proof.
  unfold perform_turn.
  pose proof (select_hero_for_turn_evolves (manager_llm o active round) (manager active g))
    as Hsel.
  destruct (select_hero_for_turn _ _) as [decision team]. cbn [snd] in Hsel.
  pose proof (game_evolves_set_manager active team g Hsel) as H1.
  destruct decision as [[| |response ap [|]]|]; try exact H1;
    (eapply game_evolves_trans; [exact H1|apply dispatch_attack_evolves]).
Qed.

Lemma reachable_evolves (o : oracles) (g0 g : game) :
  reachable o g0 g -> game_evolves g0 g.
Proof.
  intros Hr. induction Hr as [|active round g Hr IH]; [apply game_evolves_refl|].
  eapply game_evolves_trans; [exact IH|apply perform_turn_evolves].
Qed.

Lemma battle_reachable (o : oracles) (fuel round : nat) (g : game) res :
  battle o fuel round g = Some res -> reachable o g (final_state res).
Proof.
  revert round g. induction fuel as [|fuel IH]; intros round g; simpl; [discriminate|].
  pose proof (reach_turn o g TeamA round g (reach_start o g)) as HA.
  destruct (perform_turn o TeamA round g) as [[[|]|] g1|e g1]; cbn [final_state] in HA;
    try (intros [= <-]; exact HA).
  pose proof (reach_turn o g TeamB round g1 HA) as HB.
  destruct (perform_turn o TeamB round g1) as [[[|]|] g2|e g2]; cbn [final_state] in HB;
    try (intros [= <-]; exact HB).
  intros Hb. specialize (IH _ _ Hb).
  clear -IH HB. induction IH as [|active r g' Hr IH']; [exact HB|].
  apply reach_turn. exact IH'.
Qed.

Lemma game_evolves_manager (s : side) (g g' : game) :
  game_evolves g g' -> Forall2 evolves (manager s g) (manager s g').
Proof. intros [Ha Hb]. destruct s; assumption. Qed.

Lemma alive_count_evolves (t t' : list hero) :
  Forall2 evolves t t' -> (get_alive_count t' <= get_alive_count t)%nat.
Proof.
  unfold get_alive_count. induction 1 as [|h h' t t' Hh Ht IH]; [reflexivity|].
  rewrite !filter_cons.
  destruct Hh as (_ & Hdead & _).
  destruct (decide (status h' = alive)) as [Ha'|Ha'];
    destruct (decide (status h = alive)) as [Ha|Ha]; simpl; try lia.
  exfalso. destruct (status h) eqn:Hs; [congruence|].
  rewrite (Hdead eq_refl) in Ha'. discriminate.
Qed.



Lemma heal_round_1_reachable : reachable Scenario.heal_script heal_start heal_round_1.
Proof. unfold heal_round_1. apply reach_turn, reach_turn, reach_start. Defined.

(** X1.  No turn, and no sequence of turns, changes the length of a roster or the
    index, name, passive text or active text of the hero at a position; in a
    roster whose heroes carry their position as index, as [initialize_team]
    builds it, they still do. *)
Theorem roster_identity_is_frozen (o : oracles) (g0 g : game) (s : side) :
  reachable o g0 g ->
  length (manager s g) = length (manager s g0) /\
  (forall i h, manager s g0 !! i = Some h ->
     exists h', manager s g !! i = Some h' /\ idx h' = idx h /\ name h' = name h /\
                passive h' = passive h /\ active h' = active h) /\
  ((forall i h, manager s g0 !! i = Some h -> idx h = i) ->
   forall i h', manager s g !! i = Some h' -> idx h' = i).
Proof.
  intros Hr. apply reachable_evolves in Hr.
  apply (game_evolves_manager s) in Hr.
  split; [symmetry; eapply Forall2_length; exact Hr|]. split.
  - intros i h Hi. destruct (Forall2_lookup_l _ _ _ _ _ Hr Hi) as (h' & Hi' & Hev).
    exists h'. split; [exact Hi'|]. destruct Hev as ((?&?&?&?)&_). auto.
  - intros H0 i h' Hi'.
    destruct (Forall2_lookup_r _ _ _ _ _ Hr Hi') as (h & Hi & Hev).
    destruct Hev as ((Hidx&_)&_). rewrite Hidx. apply H0. exact Hi.
Qed.

Lemma roster_identity_is_frozen_example :
  length (manager TeamA heal_round_1) = length (manager TeamA heal_start).
Proof.
  apply (roster_identity_is_frozen Scenario.heal_script heal_start heal_round_1 TeamA).
  exact heal_round_1_reachable.
Defined.

(** X2.  A dead hero stays dead through any sequence of turns, and the number of
    living heroes of a side never goes up. *)
Theorem death_is_permanent (o : oracles) (g0 g : game) (s : side) :
  reachable o g0 g ->
  (forall i h h', manager s g0 !! i = Some h -> manager s g !! i = Some h' ->
                  status h = dead -> status h' = dead) /\
  (get_alive_count (manager s g) <= get_alive_count (manager s g0))%nat.
Proof.
  intros Hr. apply reachable_evolves in Hr.
  apply (game_evolves_manager s) in Hr. split.
  - intros i h h' Hi Hi' Hd.
    pose proof (Forall2_lookup_lr _ _ _ _ _ _ Hr Hi Hi') as (_ & Hdead & _).
    apply Hdead. exact Hd.
  - apply alive_count_evolves. exact Hr.
Qed.

Lemma death_is_permanent_example :
  (get_alive_count (manager TeamA heal_round_1)
   <= get_alive_count (manager TeamA heal_start))%nat.
Proof.
  apply (death_is_permanent Scenario.heal_script heal_start heal_round_1 TeamA).
  exact heal_round_1_reachable.
Defined.

(** X3.  Through any sequence of turns the attack power of a hero never goes down,
    its Deflect threshold never goes down, and a hero that was revealed stays
    revealed. *)
Theorem attack_power_never_decreases (o : oracles) (g0 g : game) (s : side) :
  reachable o g0 g ->
  forall i h h', manager s g0 !! i = Some h -> manager s g !! i = Some h' ->
    attack_power h <= attack_power h' /\
    buff_threshold h <= buff_threshold h' /\
    (revealed h = true -> revealed h' = true).
Proof.
  intros Hr i h h' Hi Hi'. apply reachable_evolves in Hr.
  apply (game_evolves_manager s) in Hr.
  pose proof (Forall2_lookup_lr _ _ _ _ _ _ Hr Hi Hi') as (_ & _ & Hap & Hrev & Hth).
  auto.
Qed.

Lemma attack_power_never_decreases_example :
  let h := deref (manager TeamB heal_start) 2 in
  let h' := deref (manager TeamB heal_round_1) 2 in
  attack_power h <= attack_power h' /\
  buff_threshold h <= buff_threshold h' /\
  (revealed h = true -> revealed h' = true).
Proof.
  apply (attack_power_never_decreases Scenario.heal_script heal_start heal_round_1 TeamB
           heal_round_1_reachable 2%nat); vm_compute; reflexivity.
Defined.

(** ** What an incoming attack reports and returns *)

Lemma process_incoming_attack_returns parse (dodge : nat -> bool)
    (attack : attack_info) (t t' : list hero) (fb : feedback) :
  process_incoming_attack parse dodge attack t = Ret (Some fb) t' ->
  exists pos target correct c,
    my_team_get t (target_position attack) = Some (pos, target) /\
    fb = make_feedback correct (name target) pos c t'.
Proof.
  unfold process_incoming_attack.
  destruct (my_team_get t (target_position attack)) as [[pos target]|]; [|discriminate].
  destruct (identity_check attack pos target t) as [correct t1].
  destruct (parse _ _ _) as [parsed|]; [|discriminate].
  unfold resolve_skill.
  destruct (determine_targets _ _ _ _) as [e|[targets raw]]; [discriminate|].
  destruct (hit_targets _ _ _ _ _) as [c2 t2|e t2]; cbn [obind]; [|discriminate].
  intros [= <- <-]. exists pos, target, correct, c2. split; reflexivity.
Qed.

(** In a roster whose heroes carry their position (from [a] on) as index, the
    indices of the heroes that satisfy [P] come in ascending order. *)
Lemma filtered_indices_sorted (P : hero -> bool) (t : list hero) (a : nat) :
  (forall i h, t !! i = Some h -> idx h = (a + i)%nat) ->
  StronglySorted lt (idx <$> List.filter P t) /\
  Forall (fun j => a <= j)%nat (idx <$> List.filter P t).
Proof.
  revert a. induction t as [|h t IH]; intros a Hidx.
  - split; constructor.
  - destruct (IH (S a)) as [Hs Hf].
    { intros i x Hi. rewrite (Hidx (S i) x Hi). lia. }
    pose proof (Hidx 0%nat h eq_refl) as Hh. rewrite Nat.add_0_r in Hh.
    cbn [List.filter]. destruct (P h).
    + rewrite fmap_cons, Hh. split.
      * constructor; [exact Hs|].
        eapply Forall_impl; [exact Hf|]. intros j Hj. simpl in Hj. lia.
      * constructor; [lia|].
        eapply Forall_impl; [exact Hf|]. intros j Hj. simpl in Hj. lia.
    + split; [exact Hs|].
      eapply Forall_impl; [exact Hf|]. intros j Hj. simpl in Hj. lia.
Qed.

(** X4.  The feedback of an attack that went through is a true report of the
    roster as the attack left it.  For a roster that satisfies the health
    invariant and whose heroes carry their position as index: the health and
    the status reported are those of the hero at the aimed position after
    the global damage, the shares and every passive, and the status is dead
    exactly when the health is 0; the dead positions reported are exactly the
    positions whose hero is dead in the final roster, each once and in
    ascending order, the aimed position among them exactly when the reported
    status is dead; and the name of the hero, which the attack cannot change,
    is given away exactly when the guess is reported correct. *)
Theorem feedback_reports_final_roster parse (dodge : nat -> bool)
    (attack : attack_info) (t t' : list hero) (fb : feedback) :
  team_ok t ->
  (forall i h, t !! i = Some h -> idx h = i) ->
  process_incoming_attack parse dodge attack t = Ret (Some fb) t' ->
  exists pos target target',
    target_position attack = Z.of_nat pos /\
    t !! pos = Some target /\ t' !! pos = Some target' /\
    name target' = name target /\
    target_health fb = health target' /\
    target_status fb = status target' /\
    (target_status fb = dead <-> target_health fb = 0) /\
    actual_identity fb = (if guess_correct fb then Some (name target) else None) /\
    (forall j, j ∈ all_dead_positions fb
               <-> exists h, t' !! j = Some h /\ status h = dead) /\
    (pos ∈ all_dead_positions fb <-> target_status fb = dead) /\
    StronglySorted lt (all_dead_positions fb).
Proof.
  intros Hok Hidx Hproc.
  pose proof (process_incoming_attack_ok parse dodge attack t Hok) as Hok'.
  pose proof (process_incoming_attack_evolves parse dodge attack t) as Hev.
  rewrite Hproc in Hok', Hev. cbn [final_state] in Hok', Hev.
  destruct (process_incoming_attack_returns _ _ _ _ _ _ Hproc)
    as (pos & target & correct & c & Hget & ->).
  destruct (my_team_get_Some _ _ _ _ Hget) as (Hpos & Hl & Hk).
  destruct (Forall2_lookup_l _ _ _ _ _ Hev Hl) as (target' & Hl' & ((_ & Hname & _) & _)).
  assert (Hidx' : forall i h, t' !! i = Some h -> idx h = i).
  { intros i h Hi. destruct (Forall2_lookup_r _ _ _ _ _ Hev Hi) as (h0 & Hi0 & ((Hx & _) & _)).
    rewrite Hx. apply Hidx. exact Hi0. }
  assert (Hdead : forall j, j ∈ idx <$> List.filter is_dead t'
                            <-> exists h, t' !! j = Some h /\ status h = dead).
  { intros j. rewrite list_elem_of_fmap. split.
    - intros (h & -> & Hin). apply list_elem_of_In, filter_In in Hin as [Hin Hd].
      apply list_elem_of_In, list_elem_of_lookup in Hin as [k Hk'].
      exists h. rewrite (Hidx' k h Hk'). split; [exact Hk'|].
      unfold is_dead in Hd. apply bool_decide_eq_true in Hd. exact Hd.
    - intros (h & Hj & Hd). exists h. split; [symmetry; apply Hidx'; exact Hj|].
      apply list_elem_of_In, filter_In. split.
      + apply list_elem_of_In. eapply list_elem_of_lookup_2. exact Hj.
      + unfold is_dead. apply bool_decide_eq_true. exact Hd. }
  pose proof (Forall_lookup_1 _ _ _ _ Hok' Hl') as [_ Hiff].
  exists pos, target, target'. unfold make_feedback.
  cbn [target_health target_status actual_identity guess_correct all_dead_positions].
  rewrite (deref_lookup _ _ _ Hl').
  split; [lia|]. split; [exact Hl|]. split; [exact Hl'|]. split; [exact Hname|].
  split; [reflexivity|]. split; [reflexivity|].
  split; [split; apply Hiff|]. split; [reflexivity|].
  split; [exact Hdead|]. split.
  - rewrite Hdead. split.
    + intros (h & Hh & Hd). rewrite Hl' in Hh. injection Hh as <-. exact Hd.
    + intros Hd. exists target'. split; assumption.
  - apply (filtered_indices_sorted is_dead t' 0). exact Hidx'.
Qed.

Lemma feedback_reports_final_roster_example :
  let t := alter (set_status dead ∘ set_health 0) 3%nat (initialize_team Scenario.team_1) in
  let fb := mk_feedback false None 0 419 alive [3%nat] in
  exists pos target target',
    2 = Z.of_nat pos /\
    t !! pos = Some target /\ poke t !! pos = Some target' /\
    name target' = name target /\
    target_health fb = health target' /\
    target_status fb = status target' /\
    (target_status fb = dead <-> target_health fb = 0) /\
    actual_identity fb = (if guess_correct fb then Some (name target) else None) /\
    (forall j, j ∈ all_dead_positions fb
               <-> exists h, poke t !! j = Some h /\ status h = dead) /\
    (pos ∈ all_dead_positions fb <-> target_status fb = dead) /\
    StronglySorted lt (all_dead_positions fb).
Proof.
  intros t fb.
  apply (feedback_reports_final_roster (Scenario.fixed_parse 1 false false)
           Scenario.no_dodge (Scenario.strike 2 "Nord") t (poke t) fb).
  - repeat constructor; simpl; try lia; try discriminate; reflexivity.
  - intros [|[|[|[|i]]]] h; simpl; intros [= <-]; reflexivity.
  - vm_compute. reflexivity.
Defined.

(** Each hit adds nothing, 30 (Counter), 40 (Explode) or 70 (both) to the
    counter damage. *)
Lemma take_hit_counter (pd : string) (low : bool) (d : Z) (h : hero) (c : Z) :
  (take_hit pd low d h c).2 - c ∈ [0; 30; 40; 70].
Proof.
  unfold take_hit. cbv zeta. cbn [snd].
  destruct (Py.contains "counter" pd && low);
    destruct (Py.contains "explode" pd && (0 <? d) && _);
    match goal with
    | |- ?x ∈ _ =>
        first [ replace x with 0 by lia | replace x with 30 by lia
              | replace x with 40 by lia | replace x with 70 by lia ]
    end;
    set_solver.
Qed.

Lemma hit_target_counter (dodge : nat -> bool) (raw : Z) (i : nat) (t t' : list hero)
    (c c' : Z) :
  hit_target dodge raw i t c = Ret c' t' -> c' - c ∈ [0; 30; 40; 70].
Proof.
  unfold hit_target, shield_and_react. cbv zeta.
  destruct (reduce_or_deflect _ _ _ _ _) as [d1 t1|e t1]; cbn [obind]; [|discriminate].
  destruct (consume_shield i d1 t1) as [d2 t2|e t2]; cbn [obind]; [|discriminate].
  pose proof (take_hit_counter (Py.lower (passive (deref t i)))
    (existsb (fun h => other_alive (idx (deref t2 i)) h && (health h <? 120)) t2)
    d2 (deref t2 i) c) as H.
  destruct (take_hit _ _ _ _ _) as [h' c'']. cbn [snd] in H.
  intros [= <- <-]. exact H.
Qed.

Lemma hit_targets_counter (dodge : nat -> bool) (raw : Z) (targets : list nat)
    (t t' : list hero) (c c' : Z) :
  hit_targets dodge raw targets t c = Ret c' t' ->
  c <= c' <= c + 70 * Z.of_nat (length targets).
Proof.
  revert t c. induction targets as [|i rest IH]; intros t c; simpl.
  - intros [= <- <-]. lia.
  - destruct (hit_target dodge raw i t c) as [c1 t1|e t1] eqn:H1; cbn [obind];
      [|discriminate].
    intros H2. apply IH in H2. apply hit_target_counter in H1.
    assert (0 <= c1 - c <= 70).
    { set_unfold in H1. lia. }
    lia.
Qed.

Lemma length_positions (P : hero -> bool) (t : list hero) :
  (length (positions P t) <= length t)%nat.
Proof.
  unfold positions. etransitivity; [apply List.filter_length_le|].
  rewrite length_seq. reflexivity.
Qed.

Lemma determine_targets_length (t : list hero) (pos : nat) (ap : Z)
    (p : SkillAttributes) (targets : list nat) (raw : Z) :
  determine_targets t pos ap p = inr (targets, raw) ->
  (length targets <= length t)%nat /\
  (is_aoe p = false -> length targets <= 1)%nat.
Proof.
  unfold determine_targets. cbv zeta.
  destruct (is_aoe p).
  - intros [= <- <-]. split; [apply length_positions|discriminate].
  - destruct (targets_lowest p).
    + pose proof (length_positions is_alive t) as Hlen.
      destruct (positions is_alive t) as [|i r].
      * intros [= <- <-]. simpl. split; intros; lia.
      * simpl in Hlen. destruct (_ <? 160).
        -- destruct (Py.int_mul ap 1.4); [discriminate|].
           intros [= <- <-]. simpl. split; intros; lia.
        -- intros [= <- <-]. simpl. split; intros; lia.
    + destruct (is_alive (deref t pos)) eqn:Ha; intros [= <- <-]; simpl.
      * split; [|lia]. unfold deref in Ha. destruct (t !! pos) eqn:Hl.
        -- apply lookup_lt_Some in Hl. lia.
        -- simpl in Ha. discriminate.
      * split; intros; lia.
Qed.

(** X5.  The counter damage an attack sends back lies between 0 and 70 times the
    number of heroes of the roster, and when the skill parsed in the call is
    not an area skill it is 0, 30, 40 or 70. *)
Theorem counter_damage_is_bounded parse (dodge : nat -> bool)
    (attack : attack_info) (t t' : list hero) (fb : feedback) :
  process_incoming_attack parse dodge attack t = Ret (Some fb) t' ->
  0 <= counter_damage fb <= 70 * Z.of_nat (length t) /\
  exists pos target parsed_skill,
    my_team_get t (target_position attack) = Some (pos, target) /\
    parse (skill attack) (attacker_ap attack)
          (health (deref (identity_check attack pos target t).2 pos))
      = Some parsed_skill /\
    (is_aoe parsed_skill = false -> counter_damage fb ∈ [0; 30; 40; 70]).
Proof.
  unfold process_incoming_attack.
  destruct (my_team_get t (target_position attack)) as [[pos target]|]; [|discriminate].
  pose proof (identity_check_evolves attack pos target t) as Hlen.
  apply Forall2_length in Hlen.
  destruct (identity_check attack pos target t) as [correct t1] eqn:Hcheck.
  cbn [snd] in Hlen.
  destruct (parse _ _ _) as [parsed|] eqn:Hparse; [|discriminate].
  unfold resolve_skill.
  destruct (determine_targets _ _ _ _) as [e|[targets raw]] eqn:Htargets; [discriminate|].
  apply determine_targets_length in Htargets as [Hall Hone].
  destruct (hit_targets _ _ _ _ _) as [c2 t2|e t2] eqn:Hhits; cbn [obind]; [|discriminate].
  intros [= <- <-]. unfold make_feedback. cbn [counter_damage].
  split.
  - apply hit_targets_counter in Hhits. lia.
  - exists pos, target, parsed. split; [reflexivity|].
    rewrite Hcheck. cbn [snd]. split; [exact Hparse|].
    intros Hsingle. specialize (Hone Hsingle).
    destruct targets as [|i [|j rest]]; simpl in Hone; [| |lia].
    + simpl in Hhits. injection Hhits as <- _. set_solver.
    + simpl in Hhits.
      destruct (hit_target dodge raw i t1 0) as [c1 t3|e t3] eqn:H1; cbn [obind] in Hhits;
        [|discriminate].
      injection Hhits as <- _. apply hit_target_counter in H1.
      rewrite Z.sub_0_r in H1. exact H1.
Qed.

Lemma counter_damage_is_bounded_example :
  let t := initialize_team Scenario.team_1 in
  let parse := Scenario.fixed_parse 100 false false in
  let attack := Scenario.strike 3 "Nord" in
  let fb := mk_feedback false None 40 300 alive [] in
  0 <= counter_damage fb <= 70 * Z.of_nat (length t) /\
  exists pos target parsed_skill,
    my_team_get t (target_position attack) = Some (pos, target) /\
    parse (skill attack) (attacker_ap attack)
          (health (deref (identity_check attack pos target t).2 pos))
      = Some parsed_skill /\
    (is_aoe parsed_skill = false -> counter_damage fb ∈ [0; 30; 40; 70]).
Proof.
  intros t parse attack fb.
  apply (counter_damage_is_bounded parse Scenario.no_dodge attack t
           (final_state (process_incoming_attack parse Scenario.no_dodge attack t)) fb).
  vm_compute. reflexivity.
Defined.

(** X6.  A correct guess leaves the hero at the aimed position revealed, whatever
    the rest of the call does, and the identity check of any later attack on
    a revealed hero leaves the roster as it is: the 50 global damage is dealt
    at most once for a hero. *)
Theorem breach_happens_once parse (dodge : nat -> bool) (attack : attack_info)
    (t : list hero) (pos : nat) (target : hero) :
  my_team_get t (target_position attack) = Some (pos, target) ->
  Py.lower (guessed_identity attack) = Py.lower (name target) ->
  let t' := final_state (process_incoming_attack parse dodge attack t) in
  exists target',
    t' !! pos = Some target' /\ name target' = name target /\
    revealed target' = true /\
    forall attack2, (identity_check attack2 pos target' t').2 = t'.
Proof.
  intros Hget Hguess t'.
  destruct (my_team_get_Some _ _ _ _ Hget) as (_ & Hl & _).
  assert (H1 : exists t1 x, t1 !! pos = Some x /\ name x = name target /\
                 revealed x = true /\ Forall2 evolves t1 t').
  { subst t'. unfold process_incoming_attack, identity_check. rewrite Hget.
    rewrite bool_decide_eq_true_2 by exact Hguess. cbn [andb].
    destruct (revealed target) eqn:Hrev; cbn [negb].
    - exists t, target. split; [exact Hl|]. split; [reflexivity|]. split; [exact Hrev|].
      destruct (parse _ _ _); [apply resolve_skill_evolves|reflexivity].
    - destruct (global_breach_effect pos t pos target Hl) as (x & Hx & Hrx & _).
      exists (global_breach pos t), x. split; [exact Hx|].
      split.
      { pose proof (Forall2_lookup_lr _ _ _ _ _ _ (global_breach_evolves pos t) Hl Hx)
          as ((_ & Hn & _) & _). exact Hn. }
      split.
      { rewrite Hrx. destruct (decide (pos = pos)); [reflexivity|congruence]. }
      destruct (parse _ _ _); [apply resolve_skill_evolves|reflexivity]. }
  destruct H1 as (t1 & x & Hx & Hname & Hrev & Hev).
  destruct (Forall2_lookup_l _ _ _ _ _ Hev Hx) as (target' & Ht' & (Hid & _ & _ & Hr & _)).
  exists target'. split; [exact Ht'|]. destruct Hid as (_ & Hn & _).
  split; [congruence|]. split; [apply Hr; exact Hrev|].
  intros attack2. unfold identity_check. cbn [snd].
  rewrite (Hr Hrev). cbn [negb]. rewrite andb_false_r. reflexivity.
Qed.

Lemma breach_happens_once_example :
  let t := initialize_team Scenario.team_1 in
  let t' := final_state (process_incoming_attack (Scenario.fixed_parse 100 false false)
                           Scenario.no_dodge (Scenario.strike 0 "ARGONIAN") t) in
  exists target',
    t' !! 0%nat = Some target' /\ name target' = "Argonian" /\
    revealed target' = true /\
    forall attack2, (identity_check attack2 0 target' t').2 = t'.
Proof.
  intros t.
  apply (breach_happens_once (Scenario.fixed_parse 100 false false) Scenario.no_dodge
           (Scenario.strike 0 "ARGONIAN") t 0%nat
           (mk_hero 0 "Argonian" 400 200 alive false false 0 200
                    Pool.counter_text Pool.aoe_text)).
  - reflexivity.
  - reflexivity.
Defined.

Lemma my_team_get_None (t : list hero) (k : Z) :
  my_team_get t k = None <-> k < 0 \/ Z.of_nat (length t) <= k.
Proof.
  unfold my_team_get. destruct (k <? 0) eqn:Hk.
  - apply Z.ltb_lt in Hk. split; [intros _; left; exact Hk|reflexivity].
  - apply Z.ltb_ge in Hk. destruct (t !! Z.to_nat k) eqn:Hl.
    + apply lookup_lt_Some in Hl. split; [discriminate|]. lia.
    + apply lookup_ge_None in Hl. split; [intros _; right; lia|reflexivity].
Qed.

(** X7.  An attack aimed at a position that is not a key of the roster (negative,
    or past its end) is refused before anything else happens: the call
    returns [None], the roster is untouched, and the turn of the attacker is
    aborted with the game as it was, ledger included. *)
Theorem attack_outside_roster_is_refused :
  (forall parse dodge attack t,
      target_position attack < 0 \/ Z.of_nat (length t) <= target_position attack ->
      process_incoming_attack parse dodge attack t = Ret None t) /\
  (forall o active round g decision payload,
      get_turn_decision (side_name active) (lead_llm o active round)
                        (lead active g) decision = Some (Attack payload) ->
      target_position payload < 0 \/
      Z.of_nat (length (manager (opponent active) g)) <= target_position payload ->
      dispatch_attack o active round g decision = Ret None g).
Proof.
  split.
  - intros parse dodge attack t Hout. apply my_team_get_None in Hout.
    unfold process_incoming_attack. rewrite Hout. reflexivity.
  - intros o active round g decision payload Hlead Hout.
    apply my_team_get_None in Hout.
    unfold dispatch_attack. cbv zeta. rewrite Hlead.
    unfold process_incoming_attack. rewrite Hout.
    rewrite set_manager_same. reflexivity.
Qed.

Lemma attack_outside_roster_is_refused_example :
  process_incoming_attack (Scenario.fixed_parse 100 false false) Scenario.no_dodge
    (Scenario.strike 4 "Nord") (initialize_team Scenario.team_1)
  = Ret None (initialize_team Scenario.team_1).
Proof.
  apply (proj1 attack_outside_roster_is_refused). right. simpl. lia.
Defined.

Lemma global_breach_status_dead (pos : nat) (t : list hero) (target : hero) :
  t !! pos = Some target -> status target = dead ->
  status (deref (global_breach pos t) pos) = dead.
Proof.
  intros Hl Hd.
  destruct (global_breach_effect pos t pos target Hl) as (x & Hx & _ & _ & Hdead).
  rewrite (deref_lookup _ _ _ Hx). apply Hdead. exact Hd.
Qed.

(** X8.  A skill parsed in the call as neither an area skill nor a
    lowest-health skill, aimed at a dead hero, hits nobody: no passive plays
    and no counter damage comes back.  The guess (of ASCII text against an
    ASCII name) is still checked, so a first correct guess of a dead hero's
    name reveals it and costs every living member of the roster 50. *)
Theorem attack_on_a_dead_hero parse (dodge : nat -> bool) (attack : attack_info)
    (t : list hero) (pos : nat) (target : hero) (d : Z) :
  my_team_get t (target_position attack) = Some (pos, target) ->
  status target = dead ->
  ascii_text (guessed_identity attack) = true ->
  ascii_text (name target) = true ->
  let correct :=
    bool_decide (Py.lower (guessed_identity attack) = Py.lower (name target)) in
  let t1 := if correct && negb (revealed target) then global_breach pos t else t in
  parse (skill attack) (attacker_ap attack) (health (deref t1 pos))
    = Some (mk_skill d false false) ->
  process_incoming_attack parse dodge attack t
    = Ret (Some (mk_feedback correct (if correct then Some (name target) else None)
                             0 (health (deref t1 pos)) dead
                             (idx <$> List.filter is_dead t1))) t1.
Proof.
  intros Hget Hdead _ _ correct t1 Hparse.
  destruct (my_team_get_Some _ _ _ _ Hget) as (_ & Hl & _).
  assert (Hst : status (deref t1 pos) = dead).
  { subst t1. destruct (correct && negb (revealed target)).
    - apply global_breach_status_dead with target; assumption.
    - rewrite (deref_lookup _ _ _ Hl). exact Hdead. }
  unfold process_incoming_attack, identity_check. rewrite Hget.
  fold correct. fold t1. rewrite Hparse.
  unfold resolve_skill. rewrite determine_single_target.
  assert (Hna : is_alive (deref t1 pos) = false) by (apply is_alive_false; exact Hst).
  rewrite Hna. simpl. unfold make_feedback. rewrite Hst. reflexivity.
Qed.

Lemma attack_on_a_dead_hero_example :
  let t := alter (set_status dead ∘ set_health 0) 1%nat (initialize_team Scenario.team_1) in
  Scenario.vitals
    (final_state (process_incoming_attack (Scenario.fixed_parse 100 false false)
                    Scenario.no_dodge (Scenario.strike 1 "khajit") t))
  = [(350, alive); (0, dead); (350, alive); (350, alive)].
Proof.
  intros t.
  rewrite (attack_on_a_dead_hero (Scenario.fixed_parse 100 false false) Scenario.no_dodge
             (Scenario.strike 1 "khajit") t 1%nat
             (mk_hero 1 "Khajit" 0 200 dead false false 0 200
                      Pool.khajit_counter_text Pool.infight_text) 100);
    [vm_compute; reflexivity|reflexivity|reflexivity|reflexivity|reflexivity|reflexivity].
Defined.

(** ** Targeting *)

Lemma positions_from_sorted (P : nat -> bool) (a n : nat) :
  StronglySorted lt (List.filter P (seq a n)) /\
  Forall (fun j => a <= j)%nat (List.filter P (seq a n)).
Proof.
  revert a. induction n as [|n IH]; intros a; simpl.
  - split; constructor.
  - destruct (IH (S a)) as [Hs Hf].
    assert (Hlt : Forall (lt a) (List.filter P (seq (S a) n))).
    { eapply Forall_impl; [exact Hf|]. intros j Hj. simpl in Hj. lia. }
    destruct (P a).
    + split; [constructor; assumption|]. constructor; [lia|].
      eapply Forall_impl; [exact Hlt|]. intros j Hj. simpl in Hj. lia.
    + split; [exact Hs|]. eapply Forall_impl; [exact Hlt|]. intros j Hj. simpl in Hj. lia.
Qed.

Lemma positions_sorted (P : hero -> bool) (t : list hero) :
  StronglySorted lt (positions P t).
Proof. unfold positions. apply positions_from_sorted. Qed.

(** [min] with a key returns the first of the minimal elements. *)
Lemma lowest_hp_spec (t : list hero) (rest : list nat) (best : nat) :
  Forall (lt best) rest -> StronglySorted lt rest ->
  let r := lowest_hp t best rest in
  r ∈ best :: rest /\
  health (deref t r) <= health (deref t best) /\
  (r <> best -> health (deref t r) < health (deref t best)) /\
  forall j, j ∈ rest ->
    health (deref t r) <= health (deref t j) /\
    ((j < r)%nat -> health (deref t r) < health (deref t j)).
Proof.
  revert best. induction rest as [|i rest IH]; intros best Hbest Hsorted; simpl.
  - split; [left|]. split; [lia|]. split; [congruence|]. intros j Hj. inversion Hj.
  - apply Forall_cons in Hbest as [Hbi Hbest].
    apply StronglySorted_inv in Hsorted as [Hsorted Hi].
    destruct (health (deref t i) <? health (deref t best)) eqn:Hlt.
    + apply Z.ltb_lt in Hlt.
      destruct (IH i Hi Hsorted) as (Hin & Hle & Hne & Hall).
      split; [right; exact Hin|]. split; [lia|]. split; [intros _; lia|].
      intros j Hj. apply elem_of_cons in Hj as [->|Hj]; [|apply Hall; exact Hj].
      split; [exact Hle|]. intros Hjr. apply Hne. lia.
    + apply Z.ltb_ge in Hlt.
      destruct (IH best Hbest Hsorted) as (Hin & Hle & Hne & Hall).
      split.
      { apply elem_of_cons in Hin as [->|Hin]; [left|right; right; exact Hin]. }
      split; [exact Hle|]. split; [exact Hne|].
      intros j Hj. apply elem_of_cons in Hj as [->|Hj]; [|apply Hall; exact Hj].
      split; [lia|]. intros Hjr.
      assert (lowest_hp t best rest <> best) by lia.
      specialize (Hne H). lia.
Qed.

(** X9.  Who is hit.  An area skill hits every living hero, in roster order, and
    the position aimed at and the lowest-health flag play no part.  Otherwise
    a skill that targets the lowest health is redirected to the living hero
    with the least health, the first of them in roster order when several
    share it, and hits nobody when nobody lives; its damage is raised to
    [int(attacker_ap * 1.4)] when that is more and the hero has less than 160
    health, and is never lowered. *)
Theorem skill_targeting (t : list hero) (pos : nat) (ap : Z) (p : SkillAttributes)
    (targets : list nat) (dmg : Z) :
  determine_targets t pos ap p = inr (targets, dmg) ->
  (is_aoe p = true ->
     dmg = damage_amount p /\
     StronglySorted lt targets /\
     forall j, j ∈ targets <-> exists m, t !! j = Some m /\ status m = alive) /\
  (is_aoe p = false -> targets_lowest p = true ->
     damage_amount p <= dmg /\
     ((forall m, m ∈ t -> status m = dead) -> targets = []) /\
     forall j m, t !! j = Some m -> status m = alive ->
       exists i h, targets = [i] /\ t !! i = Some h /\ status h = alive /\
         health h <= health m /\
         ((j < i)%nat -> health h < health m) /\
         (160 <= health h -> dmg = damage_amount p) /\
         (health h < 160 ->
            exists boosted, Py.int_mul ap 1.4 = inr boosted /\
                            dmg = Z.max (damage_amount p) boosted)).
Proof.
  unfold determine_targets. cbv zeta. intros Hdet. split.
  - intros Haoe. rewrite Haoe in Hdet. injection Hdet as <- <-.
    split; [reflexivity|]. split; [apply positions_sorted|].
    intros j. rewrite elem_of_positions. split.
    + intros (m & Hm & Ha). exists m. split; [exact Hm|]. apply is_alive_true. exact Ha.
    + intros (m & Hm & Ha). exists m. split; [exact Hm|]. apply is_alive_true. exact Ha.
  - intros Haoe Hlow. rewrite Haoe, Hlow in Hdet.
    pose proof (positions_sorted is_alive t) as Hsorted.
    pose proof (fun j => elem_of_positions is_alive t j) as Hpos.
    destruct (positions is_alive t) as [|i0 rest] eqn:Hp.
    + injection Hdet as <- <-. split; [lia|]. split; [reflexivity|].
      intros j m Hj Ha. exfalso.
      assert (Hin : j ∈ @nil nat).
      { apply Hpos. exists m. split; [exact Hj|]. apply is_alive_true. exact Ha. }
      inversion Hin.
    + apply StronglySorted_inv in Hsorted as [Hsorted Hfirst].
      destruct (lowest_hp_spec t rest i0 Hfirst Hsorted) as (Hin & Hle & Hne & Hall).
      set (r := lowest_hp t i0 rest) in *.
      destruct (proj1 (Hpos r) Hin) as (h & Hh & Hha).
      apply is_alive_true in Hha.
      rewrite (deref_lookup _ _ _ Hh) in *.
      assert (Hdmg : damage_amount p <= dmg /\
                     (160 <= health h -> dmg = damage_amount p) /\
                     (health h < 160 ->
                        exists boosted, Py.int_mul ap 1.4 = inr boosted /\
                                        dmg = Z.max (damage_amount p) boosted) /\
                     targets = [r]).
      { destruct (health h <? 160) eqn:H160.
        - apply Z.ltb_lt in H160.
          destruct (Py.int_mul ap 1.4) as [e|boosted]; [discriminate|].
          injection Hdet as <- <-.
          destruct (damage_amount p <? boosted) eqn:Hb.
          + apply Z.ltb_lt in Hb. split; [lia|]. split; [lia|].
            split; [|reflexivity]. intros _. exists boosted. split; [reflexivity|lia].
          + apply Z.ltb_ge in Hb. split; [lia|]. split; [reflexivity|].
            split; [|reflexivity]. intros _. exists boosted. split; [reflexivity|lia].
        - apply Z.ltb_ge in H160. injection Hdet as <- <-.
          split; [lia|]. split; [reflexivity|]. split; [lia|reflexivity]. }
      destruct Hdmg as (Hd1 & Hd2 & Hd3 & Ht).
      split; [exact Hd1|]. split.
      { intros Hall_dead. exfalso.
        assert (status h = dead).
        { apply Hall_dead. eapply list_elem_of_lookup_2. exact Hh. }
        congruence. }
      intros j m Hj Ha. exists r, h. split; [exact Ht|]. split; [exact Hh|].
      split; [exact Hha|].
      assert (Hjin : j ∈ i0 :: rest).
      { apply Hpos. exists m. split; [exact Hj|]. apply is_alive_true. exact Ha. }
      apply elem_of_cons in Hjin as [->|Hjin].
      * rewrite (deref_lookup _ _ _ Hj) in *.
        split; [exact Hle|]. split; [|split; assumption].
        intros Hlt. apply Hne. lia.
      * destruct (Hall j Hjin) as [H1 H2]. rewrite (deref_lookup _ _ _ Hj) in *.
        split; [exact H1|]. split; [exact H2|]. split; assumption.
Qed.

Lemma skill_targeting_example :
  let t := alter (set_health 100) 1%nat
             (alter (set_health 100) 3%nat (initialize_team Scenario.team_1)) in
  exists i h, [1%nat] = [i] /\ t !! i = Some h /\ status h = alive /\
    health h <= 100 /\
    ((3 < i)%nat -> health h < 100) /\
    (160 <= health h -> 280 = 120) /\
    (health h < 160 ->
       exists boosted, Py.int_mul 200 1.4 = inr boosted /\ 280 = Z.max 120 boosted).
Proof.
  intros t.
  apply (proj2 (skill_targeting t 0 200 (mk_skill 120 false true) [1%nat] 280
                  ltac:(vm_compute; reflexivity)) eq_refl eq_refl)
    with (j := 3%nat)
         (m := mk_hero 3 "Bosmer" 100 200 alive false false 0 200
                       Pool.explode_text Pool.crit_lowest_text);
    reflexivity.
Defined.

(** ** Hits that do no damage *)

Lemma check_death_positive (h : hero) : 0 < health h -> _check_death h = h.
Proof.
  intros Hpos. unfold _check_death.
  destruct (health h <=? 0) eqn:Hle; [apply Z.leb_le in Hle; lia|reflexivity].
Qed.

(** What [take_hit] does when no damage is left. *)
Lemma take_hit_harmless (pd : string) (low : bool) (d : Z) (h : hero) (c : Z) :
  d <= 0 -> 0 < health h ->
  take_hit pd low d h c =
    (if Py.contains "deflect" pd then track_deflect d h else h,
     if Py.contains "counter" pd && low then c + 30 else c).
Proof.
  intros Hd Hpos. unfold take_hit. cbv zeta.
  assert (H0 : (0 <? d) = false) by (apply Z.ltb_ge; lia).
  rewrite H0, !andb_false_r. cbn [andb].
  rewrite check_death_positive; [reflexivity|].
  destruct (Py.contains "deflect" pd); [rewrite track_deflect_health|]; exact Hpos.
Qed.



(** ** The Subtle shield *)

Lemma check_death_shield (h : hero) : subtle_shield (_check_death h) = subtle_shield h.
Proof. unfold _check_death. destruct (_ <=? _); reflexivity. Qed.

Lemma track_deflect_shield (d : Z) (h : hero) :
  subtle_shield (track_deflect d h) = subtle_shield h.
Proof. unfold track_deflect. cbv zeta. destruct (_ <=? _); reflexivity. Qed.

Lemma take_hit_shield (pd : string) (low : bool) (d : Z) (h : hero) (c : Z) :
  subtle_shield (take_hit pd low d h c).1 = subtle_shield h.
Proof.
  unfold take_hit. cbv zeta. cbn [fst]. rewrite check_death_shield.
  repeat match goal with
         | |- context [if ?b then _ else _] => destruct b; cbn [subtle_shield set_health
             set_attack_power]
         end;
    rewrite ?track_deflect_shield; reflexivity.
Qed.

Lemma shield_and_react_unshielded (pd : string) (i : nat) (d : Z) (t : list hero)
    (c : Z) (h : hero) :
  t !! i = Some h -> subtle_shield h && (0 <? d) = false ->
  shield_and_react pd i d t c =
    let r := take_hit pd (existsb (fun m => other_alive (idx h) m && (health m <? 120)) t)
                      d h c in
    Ret r.2 (<[i := r.1]> t).
Proof.
  intros Hl Hsh. unfold shield_and_react, consume_shield.
  rewrite (deref_lookup _ _ _ Hl), Hsh. cbn [obind]. cbv zeta.
  rewrite !(deref_lookup _ _ _ Hl).
  destruct (take_hit _ _ _ _ _) as [h' c']. reflexivity.
Qed.

Lemma insert_after_alter (f : hero -> hero) (i : nat) (x : hero) (t : list hero) :
  <[i := x]> (alter f i t) = <[i := x]> t.
Proof. rewrite !list_insert_alter, list_alter_alter_eq. reflexivity. Qed.

(** X11.  A shielded hero that is left with positive damage [d] takes
    [int(d * 0.30)] instead and loses the shield, so the next hit is taken in
    full; a hit that leaves no damage (dodged, or not positive) keeps the
    shield for later.  For [d] up to the checked range the reduced damage is
    the floor of 3d/10. *)
Theorem subtle_shield_is_used_once (pd : string) (i : nat) (t : list hero) (c : Z)
    (h : hero) :
  t !! i = Some h ->
  subtle_shield h = true ->
  (forall d r, 0 < d -> Py.int_mul d 0.30 = inr r ->
     shield_and_react pd i d t c
       = shield_and_react pd i r (alter (set_subtle_shield false) i t) c /\
     exists c' h', shield_and_react pd i d t c = Ret c' (<[i := h']> t) /\
                   subtle_shield h' = false) /\
  (forall d, d <= 0 ->
     exists c' h', shield_and_react pd i d t c = Ret c' (<[i := h']> t) /\
                   subtle_shield h' = true) /\
  (forall d, 0 < d <= deflect_checked_range -> Py.int_mul d 0.30 = inr (3 * d / 10)).
Proof.
  intros Hl Hsh. split; [|split].
  - intros d r Hd Hr.
    assert (Hl2 : alter (set_subtle_shield false) i t !! i = Some (set_subtle_shield false h)).
    { rewrite list_lookup_alter_eq, Hl. reflexivity. }
    assert (Heq : shield_and_react pd i d t c
                  = shield_and_react pd i r (alter (set_subtle_shield false) i t) c).
    { rewrite (shield_and_react_unshielded pd i r _ c _ Hl2) by reflexivity.
      unfold shield_and_react, consume_shield.
      rewrite (deref_lookup _ _ _ Hl), Hsh. apply Z.ltb_lt in Hd. rewrite Hd.
      cbn [andb]. rewrite Hr. cbn [obind]. cbv zeta.
      rewrite !(deref_lookup _ _ _ Hl2).
      destruct (take_hit _ _ _ _ _) as [h' c']. reflexivity. }
    split; [exact Heq|]. rewrite Heq.
    rewrite (shield_and_react_unshielded pd i r _ c _ Hl2) by reflexivity.
    cbv zeta. eexists _, _. split.
    + rewrite insert_after_alter. reflexivity.
    + rewrite take_hit_shield. reflexivity.
  - intros d Hd.
    rewrite (shield_and_react_unshielded pd i d t c h Hl).
    + cbv zeta. eexists _, _. split; [reflexivity|].
      rewrite take_hit_shield. exact Hsh.
    + assert (H0 : (0 <? d) = false) by (apply Z.ltb_ge; lia).
      rewrite H0. apply andb_false_r.
  - intros d Hd. destruct (deflect_split d Hd) as (self & share & Hs & _ & -> & _).
    exact Hs.
Qed.

Lemma subtle_shield_is_used_once_example :
  let t := alter (set_subtle_shield true) 3%nat (initialize_team Scenario.team_3) in
  let pd := Py.lower Pool.reduce_text in
  shield_and_react pd 3 100 t 0
    = shield_and_react pd 3 30 (alter (set_subtle_shield false) 3%nat t) 0 /\
  exists c' h', shield_and_react pd 3 100 t 0 = Ret c' (<[3%nat := h']> t) /\
                subtle_shield h' = false.
Proof.
  intros t pd.
  apply (proj1 (subtle_shield_is_used_once pd 3 t 0
                  (mk_hero 3 "Breton" 400 200 alive false true 0 200
                           Pool.reduce_text Pool.subtle_text)
                  eq_refl eq_refl) 100 30).
  - lia.
  - vm_compute. reflexivity.
Defined.

(** ** The Deflect tracker *)

Lemma track_deflect_effect (d : Z) (h : hero) :
  accumulated_damage (track_deflect d h) = accumulated_damage h + d /\
  attack_power (track_deflect d h)
    = attack_power h + (if buff_threshold h <=? accumulated_damage h + d then 40 else 0) /\
  buff_threshold (track_deflect d h)
    = buff_threshold h + (if buff_threshold h <=? accumulated_damage h + d then 200 else 0).
Proof.
  unfold track_deflect. cbv zeta. simpl.
  destruct (buff_threshold h <=? accumulated_damage h + d); simpl; lia.
Qed.

Lemma track_deflect_backlog (j : nat) (h : hero) :
  ((0 < j)%nat -> buff_threshold h + 200 * (Z.of_nat j - 1) <= accumulated_damage h) ->
  let h' := Nat.iter j (track_deflect 0) h in
  accumulated_damage h' = accumulated_damage h /\
  buff_threshold h' = buff_threshold h + 200 * Z.of_nat j /\
  attack_power h' = attack_power h + 40 * Z.of_nat j.
Proof.
  induction j as [|j IH]; intros Hback; simpl.
  - repeat split; lia.
  - destruct IH as (Hacc & Hthr & Hap).
    { intros Hj. assert (0 < S j)%nat by lia. specialize (Hback H). lia. }
    destruct (track_deflect_effect 0 (Nat.iter j (track_deflect 0) h))
      as (Hacc' & Hap' & Hthr').
    assert (Hfire : (buff_threshold (Nat.iter j (track_deflect 0) h)
                     <=? accumulated_damage (Nat.iter j (track_deflect 0) h) + 0) = true).
    { apply Z.leb_le. rewrite Hacc, Hthr.
      assert (0 < S j)%nat by lia. specialize (Hback H). lia. }
    rewrite Hfire in *. repeat split; lia.
Qed.

(** X12.  The Deflect tracker pays one step for each hit: a hit of [d] adds [d] to
    the accumulated damage and, when the threshold is reached, gives 40 attack
    power and raises the threshold by 200, once, however far the threshold
    was passed.  The backlog is paid by the hits that follow, even if they do
    no damage: after a hit that passes the threshold by [200 * k], each of
    the next [k] hits of zero damage gives 40 more.  A skill parsed as zero
    damage does run the tracker. *)
Theorem deflect_tracker_pays_one_step_per_hit :
  (forall d h,
      accumulated_damage (track_deflect d h) = accumulated_damage h + d /\
      attack_power (track_deflect d h)
        = attack_power h
          + (if buff_threshold h <=? accumulated_damage h + d then 40 else 0) /\
      buff_threshold (track_deflect d h)
        = buff_threshold h
          + (if buff_threshold h <=? accumulated_damage h + d then 200 else 0)) /\
  (forall (k : nat) d h,
      buff_threshold h + 200 * Z.of_nat k <= accumulated_damage h + d ->
      attack_power (Nat.iter k (track_deflect 0) (track_deflect d h))
        = attack_power h + 40 * (Z.of_nat k + 1)) /\
  (forall dodge i t c h,
      t !! i = Some h -> 0 < health h ->
      Py.contains "deflect" (Py.lower (passive h)) = true ->
      hit_target dodge 0 i t c =
        Ret (if Py.contains "counter" (Py.lower (passive h))
                && existsb (fun m => other_alive (idx h) m && (health m <? 120)) t
             then c + 30 else c)
            (<[i := track_deflect 0 h]> t)).
Proof.
  split; [exact track_deflect_effect|]. split.
  - intros k d h Hback.
    destruct (track_deflect_effect d h) as (Hacc & Hap & Hthr).
    assert (Hfire : (buff_threshold h <=? accumulated_damage h + d) = true)
      by (apply Z.leb_le; lia).
    rewrite Hfire in *.
    destruct (track_deflect_backlog k (track_deflect d h)) as (_ & _ & Hk).
    { intros Hk. lia. }
    rewrite Hk, Hap. lia.
  - intros dodge i t c h Hl Hpos Hdef.
    unfold hit_target. cbv zeta. rewrite (deref_lookup _ _ _ Hl).
    assert (Hrd : reduce_or_deflect (dodge i) (Py.lower (passive h)) (idx h) 0 t = Ret 0 t).
    { unfold reduce_or_deflect. destruct (_ && dodge i); [reflexivity|].
      rewrite Hdef. reflexivity. }
    rewrite Hrd. cbn [obind].
    rewrite (shield_and_react_unshielded _ i 0 t c h Hl) by apply andb_false_r.
    cbv zeta. rewrite (take_hit_harmless _ _ 0 h c) by (lia || assumption).
    rewrite Hdef. reflexivity.
Qed.

Lemma deflect_tracker_pays_one_step_per_hit_example :
  let h := mk_hero 0 "Redguard" 400 200 alive false false 0 200
                   Pool.deflect_text Pool.infight_text in
  attack_power (track_deflect 650 h) = 240 /\
  attack_power (Nat.iter 2 (track_deflect 0) (track_deflect 650 h)) = 320.
Proof.
  intros h. split; [reflexivity|].
  apply (proj1 (proj2 deflect_tracker_pays_one_step_per_hit) 2%nat 650 h).
  simpl. lia.
Defined.

(** ** Counter *)

Lemma existsb_low_mate (k : nat) (t : list hero) :
  existsb (fun m => other_alive k m && (health m <? 120)) t = true <->
  exists j m, t !! j = Some m /\ status m = alive /\ idx m <> k /\ health m < 120.
Proof.
  rewrite existsb_exists. split.
  - intros (m & Hin & Hm). apply list_elem_of_In, list_elem_of_lookup in Hin as [j Hj].
    apply andb_prop in Hm as [Hoa Hlow]. unfold other_alive in Hoa.
    apply andb_prop in Hoa as [Ha Hne].
    exists j, m. split; [exact Hj|]. split; [apply is_alive_true; exact Ha|].
    split; [|apply Z.ltb_lt; exact Hlow].
    apply negb_true_iff, Nat.eqb_neq in Hne. exact Hne.
  - intros (j & m & Hj & Ha & Hne & Hlow). exists m. split.
    + apply list_elem_of_In. eapply list_elem_of_lookup_2. exact Hj.
    + unfold other_alive. apply andb_true_intro. split.
      * apply andb_true_intro. split; [apply is_alive_true; exact Ha|].
        apply negb_true_iff, Nat.eqb_neq. exact Hne.
      * apply Z.ltb_lt. exact Hlow.
Qed.

(** X13.  Counter looks at the others only: a hero with the Counter passive (and
    neither Explode nor Deflect, no shield, no dodge) sends 30 back exactly
    when another living member of its roster has less than 120 health,
    whatever the damage of the hit, zero included, and whether or not the hit
    kills it. *)
Theorem counter_answers_for_a_weak_mate (dodge : nat -> bool) (raw : Z) (i : nat)
    (t : list hero) (c : Z) (h : hero) :
  t !! i = Some h ->
  Py.contains "counter" (Py.lower (passive h)) = true ->
  Py.contains "explode" (Py.lower (passive h)) = false ->
  Py.contains "deflect" (Py.lower (passive h)) = false ->
  Py.contains "reduce" (Py.lower (passive h)) && dodge i = false ->
  subtle_shield h = false ->
  exists c' t',
    hit_target dodge raw i t c = Ret c' t' /\
    (c' = c + 30 \/ c' = c) /\
    (c' = c + 30 <->
     exists j m, t !! j = Some m /\ status m = alive /\ idx m <> idx h /\ health m < 120).
Proof.
  intros Hl Hcounter Hexplode Hdef Hred Hsh.
  rewrite (hit_target_direct dodge raw i t c h Hl Hred Hdef Hsh). cbv zeta.
  eexists _, _. split; [reflexivity|].
  unfold take_hit. cbv zeta. cbn [snd]. rewrite Hcounter, Hexplode. cbn [andb].
  rewrite <- existsb_low_mate.
  destruct (existsb _ t); split; auto; split; intros; try reflexivity; try lia;
    discriminate.
Qed.

Lemma counter_answers_for_a_weak_mate_example :
  let t := alter (set_health 100) 1%nat (initialize_team Scenario.team_1) in
  exists c' t',
    hit_target Scenario.no_dodge 0 0 t 0 = Ret c' t' /\
    (c' = 0 + 30 \/ c' = 0) /\
    (c' = 0 + 30 <->
     exists j m, t !! j = Some m /\ status m = alive /\ idx m <> 0%nat /\ health m < 120).
Proof.
  intros t.
  apply (counter_answers_for_a_weak_mate Scenario.no_dodge 0 0 t 0
           (mk_hero 0 "Argonian" 400 200 alive false false 0 200
                    Pool.counter_text Pool.aoe_text));
    vm_compute; reflexivity.
Defined.

(** ** The manager's own moves *)

Lemma alive_count_all (t : list hero) :
  Forall (fun h => status h = alive) t -> get_alive_count t = length t.
Proof.
  unfold get_alive_count. induction 1 as [|h t Hh Ht IH]; [reflexivity|].
  rewrite filter_cons. destruct (decide (status h = alive)); [|contradiction].
  simpl. rewrite IH. reflexivity.
Qed.

Lemma initialize_team_facts (data : list (string * hero_info)) :
  (forall i h, initialize_team data !! i = Some h ->
     exists nm info, data !! i = Some (nm, info) /\
       h = mk_hero i nm (default 400 (initial_health info))
                   (default 200 (initial_attack_power info))
                   alive false false 0 200 (info_passive info) (info_active info)) /\
  get_alive_count (initialize_team data) = length data.
Proof.
  assert (Hlook : forall i h, initialize_team data !! i = Some h ->
     exists nm info, data !! i = Some (nm, info) /\
       h = mk_hero i nm (default 400 (initial_health info))
                   (default 200 (initial_attack_power info))
                   alive false false 0 200 (info_passive info) (info_active info)).
  { intros i h. unfold initialize_team. rewrite list_lookup_imap.
    destruct (data !! i) as [[nm info]|]; [|discriminate].
    intros [= <-]. exists nm, info. split; reflexivity. }
  split; [exact Hlook|].
  assert (Hlen : length (initialize_team data) = length data) by apply length_imap.
  rewrite <- Hlen. apply alive_count_all. apply Forall_lookup_2.
  intros i h Hi. destruct (Hlook i h Hi) as (nm & info & _ & ->). reflexivity.
Qed.

(** X14.  A fresh roster: its keys are the positions [0 .. n-1] of the generated
    team, each hero carries its position as index and the name and texts of
    its entry, starts alive, unrevealed and unshielded with the scaled stats
    of the entry or else 400 health and 200 attack power; every hero counts
    as living. *)
Theorem initialize_team_roster (data : list (string * hero_info)) :
  length (initialize_team data) = length data /\
  (forall k, is_Some (my_team_get (initialize_team data) k)
             <-> 0 <= k < Z.of_nat (length data)) /\
  (forall i h, initialize_team data !! i = Some h ->
     exists nm info, data !! i = Some (nm, info) /\
       h = mk_hero i nm (default 400 (initial_health info))
                   (default 200 (initial_attack_power info))
                   alive false false 0 200 (info_passive info) (info_active info)) /\
  get_alive_count (initialize_team data) = length data.
Proof.
  assert (Hlen : length (initialize_team data) = length data)
    by apply length_imap.
  destruct (initialize_team_facts data) as [Hlook Hcount].
  split; [exact Hlen|]. split; [|split; assumption].
  intros k. rewrite <- not_eq_None_Some, my_team_get_None, Hlen. lia.
Qed.

(** X15.  What Infight does once the manager carries it out, that is, for a target
    and an actor that are two different keys of the roster: the target loses
    75 health, straight from its health (no passive plays, a Subtle shield is
    neither used nor consulted) and dies when it had 75 or less; the actor
    gains 140 attack power; nobody else changes.  A skill text that names
    both Infight and Subtle is an Infight. *)
Theorem infight_effect (r : manager_response) (t : list hero) (s : string)
    (target_id actor_id : Z) (i a : nat) (target actor : hero) :
  selected_skill r = Some s ->
  Py.contains "infight" (Py.lower s) = true ->
  teammate_target_id r = Some target_id ->
  selected_hero_id r = Some actor_id ->
  my_team_get t target_id = Some (i, target) ->
  my_team_get t actor_id = Some (a, actor) ->
  target_id <> actor_id ->
  _execute_internal_skill r t
    = Ret () (<[a := set_attack_power (attack_power actor + 140) actor]>
                (<[i := lose_health 75 target]> t)) /\
  i <> a /\
  health (lose_health 75 target) = Z.max 0 (health target - 75) /\
  status (lose_health 75 target)
    = (if health target <=? 75 then dead else status target) /\
  attack_power (lose_health 75 target) = attack_power target /\
  subtle_shield (lose_health 75 target) = subtle_shield target.
Proof.
  intros Hs Hinf Ht Ha Hgt Hga Hne.
  destruct (my_team_get_Some _ _ _ _ Hgt) as (Hi & Hli & Hi0).
  destruct (my_team_get_Some _ _ _ _ Hga) as (Haa & Hla & Ha0).
  assert (Hia : i <> a) by (subst i a; intros Heq; apply Hne; lia).
  split; [|split; [exact Hia|]].
  - unfold _execute_internal_skill. rewrite Hs, Ht, Hgt, Ha. cbn [mbind option_bind].
    rewrite Hga, Hinf.
    rewrite bool_decide_eq_false_2 by (intros [= Heq]; apply Hne; exact Heq).
    f_equal. apply list_eq. intros j.
    destruct (decide (j = a)) as [->|Hja].
    + rewrite list_lookup_alter_eq, list_lookup_alter_ne by congruence.
      rewrite list_lookup_insert_eq
        by (rewrite length_insert; eapply lookup_lt_Some; exact Hla).
      rewrite Hla. reflexivity.
    + rewrite list_lookup_alter_ne, list_lookup_insert_ne by congruence.
      destruct (decide (j = i)) as [->|Hji].
      * rewrite list_lookup_alter_eq, Hli.
        rewrite list_lookup_insert_eq by (eapply lookup_lt_Some; exact Hli).
        reflexivity.
      * rewrite list_lookup_alter_ne, list_lookup_insert_ne by congruence.
        reflexivity.
  - rewrite lose_health_health, lose_health_status.
    destruct (lose_health_fields 75 target) as (_ & _ & Hap & _ & Hsh & _).
    split; [reflexivity|]. split; [|split; assumption].
    destruct (health target - 75 <=? 0) eqn:H1; destruct (health target <=? 75) eqn:H2;
      try reflexivity; exfalso;
      [apply Z.leb_le in H1; apply Z.leb_gt in H2|apply Z.leb_gt in H1; apply Z.leb_le in H2];
      lia.
Qed.

Lemma infight_effect_example :
  let t := initialize_team Scenario.team_1 in
  Scenario.vitals
    (final_state (_execute_internal_skill
                    (Scenario.on_teammate 1 "Khajit" Pool.infight_text 2) t))
  = [(400, alive); (400, alive); (325, alive); (400, alive)].
Proof.
  intros t.
  rewrite (proj1 (infight_effect (Scenario.on_teammate 1 "Khajit" Pool.infight_text 2) t
                    Pool.infight_text 2 1 2%nat 1%nat
                    (mk_hero 2 "Imperial" 400 200 alive false false 0 200
                             Pool.heal_text Pool.infight_text)
                    (mk_hero 1 "Khajit" 400 200 alive false false 0 200
                             Pool.khajit_counter_text Pool.infight_text)
                    eq_refl ltac:(vm_compute; reflexivity) eq_refl eq_refl eq_refl eq_refl
                    ltac:(lia))).
  vm_compute. reflexivity.
Defined.

(** X16.  What Subtle does: the hero it is cast on, not the caster, gets the shield
    and the 20 attack power, whether it is the caster itself or another key of
    the roster; its health and status are not looked at, and nobody else
    changes. *)
Theorem subtle_effect (r : manager_response) (t : list hero) (s : string)
    (target_id actor_id : Z) (i a : nat) (target actor : hero) :
  selected_skill r = Some s ->
  Py.contains "infight" (Py.lower s) = false ->
  Py.contains "subtle" (Py.lower s) = true ->
  teammate_target_id r = Some target_id ->
  selected_hero_id r = Some actor_id ->
  my_team_get t target_id = Some (i, target) ->
  my_team_get t actor_id = Some (a, actor) ->
  let target' := set_attack_power (attack_power target + 20)
                                  (set_subtle_shield true target) in
  _execute_internal_skill r t = Ret () (<[i := target']> t) /\
  subtle_shield target' = true /\
  attack_power target' = attack_power target + 20 /\
  health target' = health target /\ status target' = status target /\
  (target_id <> actor_id -> <[i := target']> t !! a = Some actor).
Proof.
  intros Hs Hinf Hsub Ht Ha Hgt Hga target'.
  destruct (my_team_get_Some _ _ _ _ Hgt) as (Hi & Hli & Hi0).
  destruct (my_team_get_Some _ _ _ _ Hga) as (Haa & Hla & Ha0).
  split; [|repeat split].
  - unfold _execute_internal_skill. rewrite Hs, Ht, Hgt, Ha. cbn [mbind option_bind].
    rewrite Hga, Hinf, Hsub. f_equal. apply list_eq. intros j.
    destruct (decide (j = i)) as [->|Hji].
    + rewrite list_lookup_alter_eq, Hli.
      rewrite list_lookup_insert_eq by (eapply lookup_lt_Some; exact Hli).
      reflexivity.
    + rewrite list_lookup_alter_ne, list_lookup_insert_ne by congruence. reflexivity.
  - intros Hne. rewrite list_lookup_insert_ne; [exact Hla|].
    subst i a. intros Heq. apply Hne. lia.
Qed.

Lemma subtle_effect_example :
  let t := initialize_team Scenario.team_3 in
  attack_power <$>
    final_state (_execute_internal_skill
                   (Scenario.on_teammate 3 "Breton" Pool.subtle_text 0) t)
  = [220; 200; 200; 200].
Proof.
  intros t.
  rewrite (proj1 (subtle_effect (Scenario.on_teammate 3 "Breton" Pool.subtle_text 0) t
                    Pool.subtle_text 0 3 0%nat 3%nat
                    (mk_hero 0 "Khajit" 400 200 alive false false 0 200
                             Pool.khajit_counter_text Pool.infight_text)
                    (mk_hero 3 "Breton" 400 200 alive false false 0 200
                             Pool.reduce_text Pool.subtle_text)
                    eq_refl ltac:(vm_compute; reflexivity) ltac:(vm_compute; reflexivity)
                    eq_refl eq_refl eq_refl eq_refl)).
  vm_compute. reflexivity.
Defined.

Lemma no_alive_iff (t : list hero) :
  filter (fun h => status h = alive) t = [] <-> forall h, h ∈ t -> status h = dead.
Proof.
  split.
  - intros Hnil h Hin. destruct (status h) eqn:Hs; [|reflexivity].
    assert (Hf : h ∈ filter (fun h => status h = alive) t)
      by (apply list_elem_of_filter; split; assumption).
    rewrite Hnil in Hf. inversion Hf.
  - intros Hall. destruct (filter _ t) as [|h l] eqn:Hf; [reflexivity|].
    assert (Hin : h ∈ filter (fun h => status h = alive) t) by (rewrite Hf; left).
    apply list_elem_of_filter in Hin as [Ha Hin]. rewrite (Hall h Hin) in Ha.
    discriminate.
Qed.

Lemma execute_internal_skill_raises (r : manager_response) (t t1 : list hero) e :
  _execute_internal_skill r t = Exn e t1 -> t1 = t.
Proof.
  unfold _execute_internal_skill.
  destruct (selected_skill r) as [s|]; [|congruence].
  destruct (teammate_target_id r) as [target_id|]; [|discriminate].
  destruct (my_team_get t target_id) as [[target ?]|]; [|congruence].
  destruct (selected_hero_id r ≫= my_team_get t) as [[actor ?]|]; [|congruence].
  destruct (Py.contains "infight" (Py.lower s)).
  - destruct (bool_decide _); discriminate.
  - destruct (Py.contains "subtle" (Py.lower s)); discriminate.
Qed.

(** X17.  What [select_hero_for_turn] hands back.  It signals DEFEAT exactly when
    no hero of the roster is alive, and leaves the roster as it is.  A failed
    model call gives ERROR when a hero is alive.  Every decision it returns is
    the model's answer, names a key of the roster as acting hero and carries
    that hero's attack power as it was before the move.  A decision is an
    internal action exactly when the move is aimed at a teammate, and only an
    internal action changes the roster. *)
Theorem manager_decision_shape llm (t t' : list hero) (d : option manager_decision) :
  select_hero_for_turn llm t = (d, t') ->
  (d = Some DEFEAT <-> forall h, h ∈ t -> status h = dead) /\
  (d = Some DEFEAT -> t' = t) /\
  (llm t = None -> d = Some DEFEAT \/ d = Some ERROR) /\
  (forall r ap st, d = Some (Decision r ap st) ->
     llm t = Some r /\
     (exists id i h, selected_hero_id r = Some id /\ my_team_get t id = Some (i, h) /\
                     ap = attack_power h) /\
     (st = INTERNAL_ACTION <-> target_type r = Some "teammate") /\
     (st = ACTIVE -> t' = t)) /\
  (t' <> t -> exists r ap, d = Some (Decision r ap INTERNAL_ACTION)).
Proof.
  unfold select_hero_for_turn. rewrite <- no_alive_iff.
  destruct (filter (fun h => status h = alive) t) as [|x l] eqn:Hf.
  { intros [= <- <-]. repeat split; try congruence; auto. }
  destruct (llm t) as [r|] eqn:Hllm.
  2:{ intros [= <- <-]. repeat split; try congruence; auto. }
  destruct (selected_hero_id r ≫= my_team_get t) as [[i actor]|] eqn:Hid.
  2:{ intros [= <- <-]. repeat split; try congruence; auto. }
  assert (Hactor : exists id i h, selected_hero_id r = Some id /\
                     my_team_get t id = Some (i, h) /\ attack_power actor = attack_power h).
  { destruct (selected_hero_id r) as [id|]; [|discriminate]. simpl in Hid.
    exists id, i, actor. repeat split; assumption. }
  destruct (selected_skill r) as [s|].
  2:{ intros [= <- <-]. repeat split; try congruence; auto. }
  destruct (bool_decide (target_type r = Some "enemy") && _) eqn:Hillegal.
  { intros [= <- <-]. repeat split; try congruence; auto. }
  destruct (bool_decide (target_type r = Some "teammate")) eqn:Hmate.
  - apply bool_decide_eq_true in Hmate.
    destruct (_execute_internal_skill r t) as [[] t1|e t1] eqn:Hexec; intros [= <- <-].
    + split; [split; congruence|]. split; [congruence|]. split; [congruence|].
      split.
      * intros r0 ap st [= <- <- <-]. split; [reflexivity|]. split; [exact Hactor|].
        split; [split; auto|discriminate].
      * intros _. eauto.
    + split; [split; congruence|]. split; [congruence|]. split; [congruence|].
      split; [congruence|].
      intros Hne. exfalso. apply Hne.
      eapply execute_internal_skill_raises. exact Hexec.
  - apply bool_decide_eq_false in Hmate. intros [= <- <-].
    split; [split; congruence|]. split; [congruence|]. split; [congruence|].
    split.
    + intros r0 ap st [= <- <- <-]. split; [reflexivity|]. split; [exact Hactor|].
      split; [split; [discriminate|contradiction]|reflexivity].
    + congruence.
Qed.

Lemma manager_decision_shape_example :
  let t := initialize_team Scenario.team_1 in
  exists id i h,
    Some 0 = Some id /\ my_team_get t id = Some (i, h) /\ 200 = attack_power h.
Proof.
  intros t.
  apply (proj1 (proj2 (proj1 (proj2 (proj2 (proj2
           (manager_decision_shape (fun _ => Some (Scenario.basic_attack 0 "Argonian"))
              t t (Some (Decision (Scenario.basic_attack 0 "Argonian") 200 ACTIVE))
              ltac:(vm_compute; reflexivity)))))
           (Scenario.basic_attack 0 "Argonian") 200 ACTIVE eq_refl))).
Defined.

(** ** Recoil *)

(** X18.  The counter damage of an attack goes to the acting hero of the attacker
    and to nobody else: its health drops to [max 0 (health - c)] and it dies
    when that is 0; nothing happens for a counter damage that is not
    positive, and an id that is no key of the roster is passed over. *)
Theorem recoil_hits_the_acting_hero (c : Z) (t : list hero) :
  (c <= 0 -> forall attacker_id, recoil c attacker_id t = Some t) /\
  (0 < c ->
   recoil c None t = None /\
   (forall a, my_team_get t a = None -> recoil c (Some a) t = Some t) /\
   (forall a i h, my_team_get t a = Some (i, h) ->
      recoil c (Some a) t = Some (<[i := lose_health c h]> t) /\
      health (lose_health c h) = Z.max 0 (health h - c) /\
      status (lose_health c h) = (if health h <=? c then dead else status h) /\
      attack_power (lose_health c h) = attack_power h)).
Proof.
  split.
  - intros Hc attacker_id. unfold recoil.
    assert (H0 : (0 <? c) = false) by (apply Z.ltb_ge; lia).
    rewrite H0. reflexivity.
  - intros Hc. unfold recoil, update_hero_stats. apply Z.ltb_lt in Hc. rewrite Hc.
    split; [reflexivity|]. split.
    + intros a Ha. rewrite Ha. reflexivity.
    + intros a i h Ha. rewrite Ha.
      destruct (my_team_get_Some _ _ _ _ Ha) as (_ & Hl & _).
      split.
      { f_equal. apply list_eq. intros j. destruct (decide (j = i)) as [->|Hji].
        - rewrite list_lookup_alter_eq, Hl.
          rewrite list_lookup_insert_eq by (eapply lookup_lt_Some; exact Hl).
          reflexivity.
        - rewrite list_lookup_alter_ne, list_lookup_insert_ne by congruence.
          reflexivity. }
      rewrite lose_health_health, lose_health_status.
      destruct (lose_health_fields c h) as (_ & _ & Hap & _).
      split; [reflexivity|]. split; [|exact Hap].
      destruct (health h - c <=? 0) eqn:H1; destruct (health h <=? c) eqn:H2;
        try reflexivity; exfalso;
        [apply Z.leb_le in H1; apply Z.leb_gt in H2
        |apply Z.leb_gt in H1; apply Z.leb_le in H2]; lia.
Qed.


(** ** The lead's ledger *)



(** X19.  [update_intel] writes one entry of the ledger and leaves the others.  The
    health and the status of the entry are overwritten by those of the
    report.  The name is learned only from a report with a correct guess and
    a non-empty identity; any other report keeps the name the entry had, or
    "unknown" for a new entry. *)
Theorem update_intel_effect (position : Z) (fb : intel_report) (known : gmap Z intel) :
  (forall q, q <> position -> update_intel position fb known !! q = known !! q) /\
  exists e,
    update_intel position fb known !! position = Some e /\
    intel_health e
      = match report_target_health fb with
        | Some v => Some v
        | None => known !! position ≫= intel_health
        end /\
    intel_status e
      = match report_target_status fb with
        | Some v => Some v
        | None => known !! position ≫= intel_status
        end /\
    (forall n, report_guess_correct fb = true -> report_actual_identity fb = Some n ->
               n <> "" -> intel_name e = n) /\
    (report_guess_correct fb = false \/ report_actual_identity fb = None \/
     report_actual_identity fb = Some "" ->
     intel_name e = default "unknown" (intel_name <$> known !! position)).
Proof.
  unfold update_intel. cbv zeta. split.
  - intros q Hq. apply lookup_insert_ne. congruence.
  - eexists. split; [apply lookup_insert_eq|].
    destruct (known !! position) as [e0|]; cbn [default fmap option_fmap option_map
                                               mbind option_bind];
      destruct (report_actual_identity fb) as [n|];
      destruct (report_guess_correct fb);
      destruct (report_target_health fb); destruct (report_target_status fb);
      cbn [andb];
      try destruct (bool_decide (n = "")) eqn:Hn; cbn [negb intel_name intel_health
                                                     intel_status];
      repeat split; try reflexivity; try congruence;
      try (intros n' _ [= <-] Hne; try reflexivity;
           apply bool_decide_eq_true in Hn; contradiction);
      try (intros [?|[?|[= ->]]]; try discriminate; try reflexivity;
           apply bool_decide_eq_false in Hn; contradiction).
Qed.

Lemma manager_set_manager (s : side) (t : list hero) (g : game) :
  manager s (set_manager s t g) = t.
Proof. destruct s; reflexivity. Qed.

Lemma manager_set_manager_other (s : side) (t : list hero) (g : game) :
  manager (opponent s) (set_manager s t g) = manager (opponent s) g.
Proof. destruct s; reflexivity. Qed.

Lemma manager_set_manager_opponent (s : side) (t : list hero) (g : game) :
  manager s (set_manager (opponent s) t g) = manager s g.
Proof. destruct s; reflexivity. Qed.

Lemma manager_set_lead (s s' : side) (k : gmap Z intel) (g : game) :
  manager s' (set_lead s k g) = manager s' g.
Proof. destruct s, s'; reflexivity. Qed.

Lemma lead_set_lead (s : side) (k : gmap Z intel) (g : game) :
  lead s (set_lead s k g) = k.
Proof. destruct s; reflexivity. Qed.

Lemma lead_set_lead_other (s : side) (k : gmap Z intel) (g : game) :
  lead (opponent s) (set_lead s k g) = lead (opponent s) g.
Proof. destruct s; reflexivity. Qed.

Lemma lead_set_manager (s s' : side) (t : list hero) (g : game) :
  lead s' (set_manager s t g) = lead s' g.
Proof. destruct s, s'; reflexivity. Qed.

Lemma dead_report_marks (position : Z) (known : gmap Z intel) :
  marked_dead (update_intel position dead_report known) position.
Proof.
  unfold marked_dead, update_intel. cbv zeta. eexists.
  split; [apply lookup_insert_eq|]. split; reflexivity.
Qed.

Lemma dead_report_keeps (position q : Z) (known : gmap Z intel) :
  marked_dead known q -> marked_dead (update_intel position dead_report known) q.
Proof.
  intros Hq. destruct (decide (q = position)) as [->|Hne];
    [apply dead_report_marks|].
  destruct Hq as (e & He & Hs & Hh). exists e. split; [|split; assumption].
  unfold update_intel. cbv zeta. rewrite lookup_insert_ne by congruence. exact He.
Qed.

Lemma dead_reports_mark (l : list nat) (known : gmap Z intel) (p : nat) :
  p ∈ l \/ marked_dead known (Z.of_nat p) ->
  marked_dead
    (foldl (fun k dead_pos => update_intel (Z.of_nat dead_pos) dead_report k) known l)
    (Z.of_nat p).
Proof.
  revert known. induction l as [|x l IH]; intros known [Hin|Hm]; simpl.
  - inversion Hin.
  - exact Hm.
  - apply IH. apply elem_of_cons in Hin as [->|Hin]; [right|left; exact Hin].
    apply dead_report_marks.
  - apply IH. right. apply dead_report_keeps. exact Hm.
Qed.

Lemma process_incoming_attack_dead_positions parse (dodge : nat -> bool)
    (attack : attack_info) (t t' : list hero) (fb : feedback) :
  process_incoming_attack parse dodge attack t = Ret (Some fb) t' ->
  all_dead_positions fb = idx <$> List.filter is_dead t'.
Proof.
  unfold process_incoming_attack.
  destruct (my_team_get t (target_position attack)) as [[pos target]|]; [|discriminate].
  destruct (identity_check attack pos target t) as [correct t1].
  destruct (parse _ _ _) as [parsed|]; [|discriminate].
  unfold resolve_skill.
  destruct (determine_targets _ _ _ _) as [e|[targets raw]]; [discriminate|].
  destruct (hit_targets _ _ _ _ _) as [c2 t2|e t2]; cbn [obind]; [|discriminate].
  intros [= <- <-]. reflexivity.
Qed.

(** X20.  What an attack turn leaves behind, when it went through.  The ledger of
    the attacker marks every dead hero of the defending roster as dead with
    health 0, under the hero's index, whether the attack, a Deflect share or
    the global damage killed it, now or earlier.  The ledger of the defender
    is not touched. *)
Theorem ledger_records_every_death (o : oracles) (active : side) (round : nat)
    (g g' : game) (decision : manager_decision) :
  dispatch_attack o active round g decision = Ret (Some CONTINUE) g' ->
  (forall h, h ∈ manager (opponent active) g' -> status h = dead ->
             marked_dead (lead active g') (Z.of_nat (idx h))) /\
  (forall q, lead (opponent active) g' !! q = lead (opponent active) g !! q).
Proof.
  unfold dispatch_attack. cbv zeta.
  destruct (get_turn_decision _ _ _ decision) as [[|payload]|]; try discriminate.
  destruct (process_incoming_attack _ _ _ _) as [[fb|] team'|e team'] eqn:Hatk;
    try discriminate.
  destruct (recoil _ _ _) as [team''|]; [|discriminate].
  intros [= <-].
  apply process_incoming_attack_dead_positions in Hatk as Hdead.
  split.
  - intros h. rewrite manager_set_lead, manager_set_manager_other, manager_set_manager.
    intros Hin Hd. rewrite lead_set_lead. apply dead_reports_mark. left.
    rewrite Hdead. apply list_elem_of_fmap. exists h. split; [reflexivity|].
    apply list_elem_of_In, filter_In. split; [apply list_elem_of_In; exact Hin|].
    unfold is_dead. apply bool_decide_eq_true. exact Hd.
  - intros q. rewrite lead_set_lead_other, !lead_set_manager. reflexivity.
Qed.



Lemma ledger_records_every_death_example :
  marked_dead (lead TeamB heal_round_1)
              (Z.of_nat (idx (deref (manager TeamA heal_round_1) 0))).
Proof.
  apply (proj1 (ledger_records_every_death Scenario.heal_script TeamB 1
                  heal_turn_a heal_round_1 heal_decision_b
                  ltac:(vm_compute; reflexivity))).
  - apply list_elem_of_lookup_2 with 0%nat. vm_compute. reflexivity.
  - vm_compute. reflexivity.
Defined.

(** ** What a turn can touch *)

Lemma dispatch_attack_defender_ledger (o : oracles) (active : side) (round : nat)
    (g : game) (decision : manager_decision) :
  lead (opponent active) (final_state (dispatch_attack o active round g decision))
  = lead (opponent active) g.
Proof.
  unfold dispatch_attack. cbv zeta.
  destruct (get_turn_decision _ _ _ decision) as [[|payload]|]; try reflexivity.
  destruct (process_incoming_attack _ _ _ _) as [[fb|] team'|e team'];
    cbn [final_state]; try apply lead_set_manager.
  destruct (recoil _ _ _) as [team''|]; cbn [final_state]; [|apply lead_set_manager].
  rewrite lead_set_lead_other, !lead_set_manager. reflexivity.
Qed.

Lemma dispatch_attack_game_over (o : oracles) (active : side) (round : nat)
    (g g' : game) (decision : manager_decision) :
  dispatch_attack o active round g decision = Ret (Some GAME_OVER) g' ->
  g' = g /\ decision = DEFEAT.
Proof.
  unfold dispatch_attack. cbv zeta.
  destruct (get_turn_decision _ _ _ decision) as [[|payload]|] eqn:Hlead;
    try discriminate.
  - intros [= <-]. split; [reflexivity|].
    unfold get_turn_decision in Hlead. destruct decision as [| |r ap st];
      [reflexivity|discriminate|].
    destruct (hero_name r); [|discriminate].
    destruct (selected_skill r); [|discriminate].
    destruct (lead_llm _ _ _ _ _ _); discriminate.
  - destruct (process_incoming_attack _ _ _ _) as [[fb|] team'|e team'];
      try discriminate.
    destruct (recoil _ _ _) as [team''|]; discriminate.
Qed.

Lemma select_defeat llm (t t' : list hero) :
  select_hero_for_turn llm t = (Some DEFEAT, t') ->
  t' = t /\ filter (fun h => status h = alive) t = [].
Proof.
  unfold select_hero_for_turn.
  destruct (filter (fun h => status h = alive) t) as [|x l]; [intros [= <-]; auto|].
  destruct (llm t) as [r|]; [|discriminate].
  destruct (selected_hero_id r ≫= my_team_get t) as [[i actor]|]; [|discriminate].
  destruct (selected_skill r) as [s|]; [|discriminate].
  destruct (_ && _); [discriminate|].
  destruct (bool_decide _); [|discriminate].
  destruct (_execute_internal_skill r t); discriminate.
Qed.

Lemma perform_turn_game_over (o : oracles) (active : side) (round : nat) (g g' : game) :
  perform_turn o active round g = Ret (Some GAME_OVER) g' ->
  g' = g /\ get_alive_count (manager active g) = 0%nat.
Proof.
  unfold perform_turn.
  destruct (select_hero_for_turn _ _) as [d t'] eqn:Hsel.
  destruct d as [[| |r ap [|]]|]; try discriminate.
  - apply select_defeat in Hsel as [-> Hnil].
    intros Hd. apply dispatch_attack_game_over in Hd as [-> _].
    rewrite set_manager_same. split; [reflexivity|].
    unfold get_alive_count. rewrite Hnil. reflexivity.
  - intros Hd. apply dispatch_attack_game_over in Hd as [_ Hd]. discriminate.
Qed.

(** X21.  The ledger of the defending side is never touched by a turn of the other
    side, however the turn ends: being attacked teaches a team nothing.  A
    move aimed at a teammate ends the turn there: the lead is not consulted,
    the other roster and both ledgers stay as they are, and the game goes
    on. *)
Theorem turn_frame (o : oracles) (active : side) (round : nat) (g : game) :
  lead (opponent active) (final_state (perform_turn o active round g))
  = lead (opponent active) g /\
  (forall r ap t',
      select_hero_for_turn (manager_llm o active round) (manager active g)
        = (Some (Decision r ap INTERNAL_ACTION), t') ->
      perform_turn o active round g = Ret (Some CONTINUE) (set_manager active t' g)).
Proof.
  split.
  - unfold perform_turn.
    destruct (select_hero_for_turn _ _) as [d t'].
    destruct d as [[| |r ap [|]]|]; cbn [final_state];
      rewrite ?dispatch_attack_defender_ledger; apply lead_set_manager.
  - intros r ap t' Hsel. unfold perform_turn. rewrite Hsel. reflexivity.
Qed.

(** X22.  The attack payload of a turn: when the manager returns an attack decision
    and the lead turns it into an attack, the roster of the attacker is as it
    was, and the payload carries the team name of the lead, the hero name and
    the skill text of the manager's answer, the attack power of the hero
    whose id the manager selected, and the position and the guess of the
    lead's model. *)
Theorem attack_payload_carries_the_choice mllm (t t' : list hero)
    (r : manager_response) (ap : Z) (team_name : string) lllm
    (known : gmap Z intel) (p : attack_info) :
  select_hero_for_turn mllm t = (Some (Decision r ap ACTIVE), t') ->
  get_turn_decision team_name lllm known (Decision r ap ACTIVE) = Some (Attack p) ->
  t' = t /\
  attacker_team p = team_name /\
  hero_name r = Some (acting_hero p) /\
  selected_skill r = Some (skill p) /\
  (exists id i h, selected_hero_id r = Some id /\ my_team_get t id = Some (i, h) /\
                  attacker_ap p = attack_power h) /\
  exists decision, lllm known (acting_hero p) (skill p) = Some decision /\
                   target_position p = lead_target_position decision /\
                   guessed_identity p = lead_guessed_identity decision.
Proof.
  intros Hsel Hlead.
  assert (Hsel' : t' = t /\
            exists id i h, selected_hero_id r = Some id /\ my_team_get t id = Some (i, h) /\
                           ap = attack_power h).
  { revert Hsel. unfold select_hero_for_turn.
    destruct (filter (fun h => status h = alive) t) as [|x l]; [discriminate|].
    destruct (mllm t) as [r0|]; [|discriminate].
    destruct (selected_hero_id r0 ≫= my_team_get t) as [[i actor]|] eqn:Hid;
      [|discriminate].
    destruct (selected_skill r0) as [s|]; [|discriminate].
    destruct (_ && _); [discriminate|].
    destruct (bool_decide _).
    - destruct (_execute_internal_skill r0 t); discriminate.
    - intros [= <- <- <-]. split; [reflexivity|].
      destruct (selected_hero_id r0) as [id|]; [|discriminate]. simpl in Hid.
      exists id, i, actor. repeat split; assumption. }
  destruct Hsel' as (-> & id & i & h & Hid & Hget & ->).
  unfold get_turn_decision in Hlead.
  destruct (hero_name r) as [nm|]; [|discriminate].
  destruct (selected_skill r) as [sk|]; [|discriminate].
  destruct (lllm known nm sk) as [decision|] eqn:Hllm; [|discriminate].
  injection Hlead as <-. cbn [attacker_team acting_hero skill attacker_ap
                              target_position guessed_identity].
  repeat split.
  - exists id, i, h. repeat split; assumption.
  - exists decision. repeat split. exact Hllm.
Qed.

Lemma attack_payload_carries_the_choice_example :
  let t := initialize_team Scenario.team_1 in
  let r := Scenario.basic_attack 0 "Argonian" in
  let p := mk_attack "Team A" "Argonian" "Basic Attack" 200 2 "Nord" in
  t = t /\
  attacker_team p = "Team A" /\
  hero_name r = Some (acting_hero p) /\
  selected_skill r = Some (skill p) /\
  (exists id i h, selected_hero_id r = Some id /\ my_team_get t id = Some (i, h) /\
                  attacker_ap p = attack_power h) /\
  exists decision,
    lead_llm Scenario.heal_script TeamA 1 ∅ (acting_hero p) (skill p) = Some decision /\
    target_position p = lead_target_position decision /\
    guessed_identity p = lead_guessed_identity decision.
Proof.
  intros t r p.
  apply (attack_payload_carries_the_choice
           (manager_llm Scenario.heal_script TeamA 1) t t r 200 "Team A"
           (lead_llm Scenario.heal_script TeamA 1) ∅ p).
  - vm_compute. reflexivity.
  - reflexivity.
Defined.

(** ** Difficulty *)

Lemma negative_is_not_one (x : float) :
  PrimFloat.ltb x 0 = true -> PrimFloat.eqb x 1 = false.
Proof.
  rewrite FloatAxioms.ltb_spec, FloatAxioms.eqb_spec.
  replace (Prim2SF 0) with (S754_zero false) by reflexivity.
  replace (Prim2SF 1) with (S754_finite false 4503599627370496 (-52)) by reflexivity.
  destruct (Prim2SF x) as [[]|[]| |[] m e]; try discriminate; reflexivity.
Qed.

Lemma scaling_negative (data : list (string * hero_info)) (ratio : float) :
  PrimFloat.ltb ratio 0 = true ->
  apply_difficulty_scaling data ratio = inl Py.ValueError.
Proof.
  intros Hneg. unfold apply_difficulty_scaling.
  rewrite (negative_is_not_one _ Hneg). unfold Py.sqrt.
  rewrite Hneg. reflexivity.
Qed.

(** X23.  Difficulty scaling.  A ratio of exactly 1.0 returns the team as it is; a
    negative ratio raises [ValueError] ([math.sqrt]), whatever the team.
    When the scaling returns, the heroes are the same, in the same order and
    with the same texts, and for a ratio other than 1.0 they all get one and
    the same starting health [int(400 * sqrt ratio)] and one and the same
    starting attack power [int(200 * sqrt ratio)]. *)
Theorem difficulty_scaling_effect (data : list (string * hero_info)) (ratio : float) :
  (PrimFloat.eqb ratio 1 = true -> apply_difficulty_scaling data ratio = inr data) /\
  (PrimFloat.ltb ratio 0 = true ->
     apply_difficulty_scaling data ratio = inl Py.ValueError) /\
  (forall data', apply_difficulty_scaling data ratio = inr data' ->
     data'.*1 = data.*1 /\
     Forall2 (fun e e' => info_passive e'.2 = info_passive e.2 /\
                          info_active e'.2 = info_active e.2) data data' /\
     (PrimFloat.eqb ratio 1 = false -> data <> [] ->
        exists f hp ap,
          Py.sqrt ratio = inr f /\
          Py.int_mul 400 f = inr hp /\ Py.int_mul 200 f = inr ap /\
          Forall (fun e' => initial_health e'.2 = Some hp /\
                            initial_attack_power e'.2 = Some ap) data')).
Proof.
  unfold apply_difficulty_scaling. split; [|split].
  - intros ->. reflexivity.
  - apply scaling_negative.
  - intros data'. destruct (PrimFloat.eqb ratio 1) eqn:Hone.
    { intros [= <-]. split; [reflexivity|]. split; [|discriminate].
      apply Forall_Forall2_diag, Forall_forall. intros e _. split; reflexivity. }
    destruct (Py.sqrt ratio) as [e|f]; [discriminate|].
    destruct data as [|x l] eqn:Hdata.
    { intros [= <-]. split; [reflexivity|]. split; [constructor|].
      intros _ Hne. congruence. }
    rewrite <- Hdata. clear Hdata.
    destruct (Py.int_mul 400 f) as [e|hp] eqn:Hhp; [discriminate|].
    destruct (Py.int_mul 200 f) as [e|ap] eqn:Hap; [discriminate|].
    intros [= <-]. split; [|split].
    + rewrite <- list_fmap_compose. apply list_fmap_ext. intros i [nm info] _.
      reflexivity.
    + apply Forall2_fmap_r, Forall_Forall2_diag, Forall_forall.
      intros [nm info] _. split; reflexivity.
    + intros _ _. exists f, hp, ap. split; [reflexivity|].
      split; [exact Hhp|]. split; [exact Hap|].
      apply Forall_fmap, Forall_forall. intros [nm info] _. split; reflexivity.
Qed.

(** X24.  A ratio that is negative, not a number or infinite is not refused when it
    is read; it makes the episode raise before the first turn, [ValueError]
    for a negative ratio ([math.sqrt]) and for a NaN ([int]), [OverflowError]
    for an infinite one ([int]). *)
Theorem bad_difficulty_raises (o : oracles) (fuel : nat)
    (team_a_data team_b_data : list (string * hero_info)) :
  team_a_data <> [] -> team_b_data <> [] ->
  (forall difficulty, PrimFloat.ltb difficulty 0 = true ->
     run_game_loop o fuel (Some team_a_data) (Some team_b_data) difficulty
       = Raised Py.ValueError) /\
  run_game_loop o fuel (Some team_a_data) (Some team_b_data) nan
    = Raised Py.ValueError /\
  run_game_loop o fuel (Some team_a_data) (Some team_b_data) infinity
    = Raised Py.OverflowError.
Proof.
  intros Ha Hb. destruct team_a_data as [|a la]; [congruence|].
  destruct team_b_data as [|b lb]; [congruence|].
  split; [|split].
  - intros difficulty Hneg. unfold run_game_loop.
    rewrite (negative_is_not_one _ Hneg).
    rewrite (scaling_negative (b :: lb) difficulty Hneg).
    reflexivity.
  - reflexivity.
  - reflexivity.
Qed.

Lemma bad_difficulty_raises_example :
  run_game_loop Scenario.heal_script 5 (Some Scenario.team_1) (Some Scenario.team_2) (-1)
  = Raised Py.ValueError.
Proof.
  apply (proj1 (bad_difficulty_raises Scenario.heal_script 5 Scenario.team_1
                  Scenario.team_2 ltac:(discriminate) ltac:(discriminate))).
  reflexivity.
Defined.

(** ** How an episode ends *)

(** X25.  The verdict the battle loop breaks out with.  The loop names a winner
    only when the other side was asked to act with nobody alive: that side
    has no living hero in the state the loop stops in.  The recorded winner,
    which is taken from the numbers of living heroes, is then the side the
    loop named or a draw, never the side that had nobody left. *)
Theorem loop_verdict_means_wipe_out (o : oracles) (fuel round : nat) (g g' : game)
    (w : verdict) :
  battle o fuel round g = Some (Ret (Some w) g') ->
  (w = Team_A /\ get_alive_count (manager_b g') = 0%nat \/
   w = Team_B /\ get_alive_count (manager_a g') = 0%nat) /\
  forall difficulty stats,
    post_game difficulty g' = inr stats ->
    winner stats = w \/ winner stats = Draw.
Proof.
  intros Hb.
  assert (Hw : w = Team_A /\ get_alive_count (manager_b g') = 0%nat \/
               w = Team_B /\ get_alive_count (manager_a g') = 0%nat).
  { revert round g Hb. induction fuel as [|fuel IH]; intros round g; simpl;
      [discriminate|].
    destruct (perform_turn o TeamA round g) as [[[|]|] g1|e g1] eqn:HA;
      try discriminate.
    - intros [= <- <-]. apply perform_turn_game_over in HA as [-> H0].
      right. split; [reflexivity|exact H0].
    - destruct (perform_turn o TeamB round g1) as [[[|]|] g2|e g2] eqn:HB;
        try discriminate.
      + intros [= <- <-]. apply perform_turn_game_over in HB as [-> H0].
        left. split; [reflexivity|exact H0].
      + apply IH. }
  split; [exact Hw|].
  intros difficulty stats. unfold post_game.
  destruct (if PrimFloat.eqb difficulty 1 then _ else _) as [e|hp]; [discriminate|].
  intros [= <-]. cbn [winner].
  destruct Hw as [[-> H0]|[-> H0]]; rewrite H0.
  - destruct (get_alive_count (manager_a g')); [right|left]; reflexivity.
  - destruct (get_alive_count (manager_b g')) eqn:Hb'; simpl; [right|left]; reflexivity.
Qed.

Lemma loop_verdict_means_wipe_out_example :
  get_alive_count (manager_a heal_round_1) = 0%nat.
Proof.
  destruct (proj1 (loop_verdict_means_wipe_out Scenario.heal_script 2 1 heal_start
                     heal_round_1 Team_B ltac:(vm_compute; reflexivity)))
    as [[Hw _]|[_ H0]]; [discriminate|exact H0].
Defined.

(** ** Health totals *)

Lemma total_health_nonneg (t : list hero) :
  team_ok t -> 0 <= get_total_team_health t.
Proof.
  unfold get_total_team_health.
  induction 1 as [|h t [Hh _] Ht IH]; rewrite ?fmap_nil, ?fmap_cons; cbn [foldr]; lia.
Qed.

Lemma total_health_zero (t : list hero) :
  team_ok t -> (get_total_team_health t = 0 <-> get_alive_count t = 0%nat).
Proof.
  unfold get_total_team_health, get_alive_count.
  induction 1 as [|h t Hh Ht IH]; [split; reflexivity|].
  rewrite fmap_cons. cbn [foldr].
  pose proof (total_health_nonneg t Ht) as Hge. unfold get_total_team_health in Hge.
  rewrite filter_cons. destruct Hh as [Hh0 Hiff].
  destruct (decide (status h = alive)) as [Ha|Ha]; cbn [length].
  - split; [|discriminate]. intros Hsum. exfalso.
    assert (health h = 0) by lia. apply Hiff in H. congruence.
  - assert (Hd : status h = dead) by (destruct (status h); congruence).
    apply Hiff in Hd. rewrite Hd. rewrite Z.add_0_l. exact IH.
Qed.

(** X26.  With the health invariant in force, the total health of a roster is
    never negative and is 0 exactly when nobody is alive.  So at difficulty
    1.0 the damage recorded for a side is at most 1600, and it is 1600
    exactly when the other roster is wiped out. *)
Theorem recorded_damage_and_wipe_out (g : game) :
  game_ok g ->
  (forall s, 0 <= get_total_team_health (manager s g) /\
             (get_total_team_health (manager s g) = 0
              <-> get_alive_count (manager s g) = 0%nat)) /\
  exists stats, post_game 1 g = inr stats /\
    forall s, damage_dealt_by s stats <= 1600 /\
              (damage_dealt_by s stats = 1600
               <-> get_alive_count (manager (opponent s) g) = 0%nat).
Proof.
  intros Hok.
  assert (H : forall s, 0 <= get_total_team_health (manager s g) /\
             (get_total_team_health (manager s g) = 0
              <-> get_alive_count (manager s g) = 0%nat)).
  { intros s. pose proof (game_ok_manager s g Hok) as Hs.
    split; [apply total_health_nonneg|apply total_health_zero]; exact Hs. }
  split; [exact H|]. eexists. split; [reflexivity|].
  intros s. destruct (H (opponent s)) as [Hge Hz].
  destruct s; cbn [damage_dealt_by damage_dealt_by_a damage_dealt_by_b opponent manager] in *;
    (split; [lia|]); rewrite <- Hz; lia.
Qed.

Lemma recorded_damage_and_wipe_out_example :
  exists stats, post_game 1 heal_round_1 = inr stats /\
    forall s, damage_dealt_by s stats <= 1600 /\
              (damage_dealt_by s stats = 1600
               <-> get_alive_count (manager (opponent s) heal_round_1) = 0%nat).
Proof.
  apply (recorded_damage_and_wipe_out heal_round_1).
  unfold heal_round_1. apply perform_turn_ok, perform_turn_ok.
  split; apply initialize_team_ok; repeat constructor.
Defined.

(** ** Metrics over the completed episodes *)



Lemma wins_and_draws (results : list episode) :
  count_wins results TeamA + count_wins results TeamB + draws results
  = Z.of_nat (length results).
Proof.
  unfold count_wins, draws. induction results as [|r rs IH]; [reflexivity|].
  rewrite !filter_cons. cbn [label] in *.
  destruct (winner r);
    repeat match goal with
           | |- context [decide ?P] => destruct (decide P); try congruence
           end; cbn [length]; lia.
Qed.

(** X27.  The two win rates never add up to more than 1: every completed episode
    is a win of A, a win of B or a draw, and the rates add up to 1 exactly
    when no episode was drawn. *)
Theorem win_rates_share_the_episodes (results : list episode) :
  results <> [] ->
  count_wins results TeamA + count_wins results TeamB + draws results
    = Z.of_nat (length results) /\
  exists wa da ra wb db rb,
    calculate_metrics results TeamA = Some (wa, da, ra, count_wins results TeamA) /\
    calculate_metrics results TeamB = Some (wb, db, rb, count_wins results TeamB) /\
    (wa + wb <= 1)%Q /\
    ((wa + wb == 1)%Q <-> draws results = 0).
Proof.
  intros Hne. pose proof (wins_and_draws results) as Hsum.
  split; [exact Hsum|].
  destruct results as [|r rs]; [congruence|].
  unfold calculate_metrics. set (results := r :: rs) in *.
  assert (HN : Z.of_nat (length results) = Z.pos (Pos.of_succ_nat (length rs))).
  { subst results. cbn [length]. lia. }
  rewrite HN in *. set (n := Pos.of_succ_nat (length rs)) in *.
  set (a := count_wins results TeamA) in *. set (b := count_wins results TeamB) in *.
  assert (Hd : 0 <= draws results) by (unfold draws; lia).
  eexists _, _, _, _, _, _. split; [reflexivity|]. split; [reflexivity|].
  rewrite !rate_of_ints. unfold Qplus, Qle, Qeq. simpl. split; [nia|]. split; nia.
Qed.

Lemma win_rates_share_the_episodes_example :
  count_wins [mk_episode Team_B 300 1600; mk_episode Draw 500 200] TeamA
  + count_wins [mk_episode Team_B 300 1600; mk_episode Draw 500 200] TeamB
  + draws [mk_episode Team_B 300 1600; mk_episode Draw 500 200]
  = Z.of_nat (length [mk_episode Team_B 300 1600; mk_episode Draw 500 200]).
Proof.
  apply (win_rates_share_the_episodes
           [mk_episode Team_B 300 1600; mk_episode Draw 500 200]).
  discriminate.
Defined.

Lemma gather_spec (runs : list run) (results : list episode) :
  match gather runs results with
  | inr all => all = results ++ completed runs /\
               Forall (fun r => exists s, r = Finished s) runs
  | inl (Simulation_raised e) =>
      exists before after, runs = before ++ Raised e :: after /\
                           Forall (fun r => exists s, r = Finished s) before
  | inl Simulation_running =>
      exists before after, runs = before ++ Running :: after /\
                           Forall (fun r => exists s, r = Finished s) before
  | inl _ => False
  end.
Proof.
  revert results. induction runs as [|r rest IH]; intros results; simpl.
  - split; [rewrite app_nil_r; reflexivity|constructor].
  - destruct r as [[stats|]|e|].
    + specialize (IH (results ++ [stats])).
      destruct (gather rest (results ++ [stats])) as [[]|all].
      * exact IH.
      * exact IH.
      * destruct IH as (before & after & -> & Hb).
        exists (Finished (Some stats) :: before), after. split; [reflexivity|].
        constructor; [eauto|exact Hb].
      * destruct IH as (before & after & -> & Hb).
        exists (Finished (Some stats) :: before), after. split; [reflexivity|].
        constructor; [eauto|exact Hb].
      * exact IH.
      * destruct IH as [-> Hall]. split.
        -- unfold completed. cbn [omap list_omap]. rewrite <- app_assoc. reflexivity.
        -- constructor; [eauto|exact Hall].
    + specialize (IH results).
      destruct (gather rest results) as [[]|all].
      * exact IH.
      * exact IH.
      * destruct IH as (before & after & -> & Hb).
        exists (Finished None :: before), after. split; [reflexivity|].
        constructor; [eauto|exact Hb].
      * destruct IH as (before & after & -> & Hb).
        exists (Finished None :: before), after. split; [reflexivity|].
        constructor; [eauto|exact Hb].
      * exact IH.
      * destruct IH as [-> Hall]. split; [reflexivity|].
        constructor; [eauto|exact Hall].
    + exists [], rest. split; [reflexivity|constructor].
    + exists [], rest. split; [reflexivity|constructor].
Qed.

Lemma gather_raised (before : list run) (e : Py.exn) (after : list run)
    (results : list episode) :
  Forall (fun r => exists s, r = Finished s) before ->
  gather (before ++ Raised e :: after) results = inl (Simulation_raised e).
Proof.
  intros Hb. revert results. induction Hb as [|r before [s ->] Hb IH]; intros results.
  - reflexivity.
  - destruct s; simpl; apply IH.
Qed.

(** X28.  The simulation never divides by zero.  When every episode returns, it
    reports no valid game exactly when every episode was skipped, and
    otherwise reports the metrics of both sides over the episodes that
    returned statistics, the skipped ones left out of the count.  An
    exception raised by one episode is not caught: it ends the simulation
    without a report, whatever the episodes before it gave. *)
Theorem simulation_report (runs : list run) :
  run_multi_agent_battle_simulation runs <> Division_by_zero /\
  (Forall (fun r => exists s, r = Finished s) runs ->
     (completed runs = [] /\ run_multi_agent_battle_simulation runs = No_valid_games) \/
     (completed runs <> [] /\
      exists a b, run_multi_agent_battle_simulation runs = Report a b /\
                  calculate_metrics (completed runs) TeamA = Some a /\
                  calculate_metrics (completed runs) TeamB = Some b)) /\
  (forall before e after,
     Forall (fun r => exists s, r = Finished s) before ->
     run_multi_agent_battle_simulation (before ++ Raised e :: after)
       = Simulation_raised e).
Proof.
  unfold run_multi_agent_battle_simulation. split; [|split].
  - pose proof (gather_spec runs []) as H.
    destruct (gather runs []) as [[]|[|r rs]]; try discriminate; contradiction.
  - intros Hall. pose proof (gather_spec runs []) as H.
    destruct (gather runs []) as [[]|all]; try contradiction.
    + destruct H as (before & after & -> & _). exfalso.
      apply Forall_app in Hall as [_ Hall]. apply Forall_cons in Hall as [[s Hs] _].
      discriminate.
    + destruct H as (before & after & -> & _). exfalso.
      apply Forall_app in Hall as [_ Hall]. apply Forall_cons in Hall as [[s Hs] _].
      discriminate.
    + destruct H as [-> _]. rewrite app_nil_l.
      destruct (completed runs) as [|r rs]; [left; auto|].
      right. split; [discriminate|]. unfold calculate_metrics.
      eexists _, _. repeat split.
  - intros before e after Hb. rewrite (gather_raised before e after [] Hb). reflexivity.
Qed.

Lemma simulation_report_example :
  run_multi_agent_battle_simulation
    ([Finished (Some (mk_episode Team_B 300 1600)); Finished None]
       ++ Raised Py.ValueError :: [Finished (Some (mk_episode Draw 500 200))])
  = Simulation_raised Py.ValueError.
Proof.
  apply (proj2 (proj2 (simulation_report []))).
  repeat constructor; eauto.
Defined.

(** ** Calls that fail *)




(** ** The model factory *)

Lemma build_spec (environ : gmap string string) (c : chat_class) (model_name : string)
    (temperature : float) :
  match build environ c model_name temperature with
  | inr m => m = mk_chat c model_name temperature (api_key m) /\
             environ !! key_variable c = Some (api_key m) /\ api_key m <> ""
  | inl msg => msg = (key_variable c ++ " is missing")%string /\
               (environ !! key_variable c = None \/
                environ !! key_variable c = Some "")
  end.
Proof.
  unfold build. destruct (environ !! key_variable c) as [key|].
  - destruct (bool_decide (key = "")) eqn:Hk.
    + apply bool_decide_eq_true in Hk. subst. auto.
    + apply bool_decide_eq_false in Hk. simpl. auto.
  - auto.
Qed.

(** X30.  The factory picks the chat class by the first of the keywords gpt,
    claude, gemini, llama that the model name contains, as written, case
    included.  It returns that class built with the model name and the
    temperature it was given and with the key of the class read from the
    environment.  It raises [ValueError] when the name contains none of the
    keywords, and when the key of the selected class is unset or empty: it
    does not fall back on a later keyword whose key is there. *)
Theorem llm_factory_dispatch (environ : gmap string string) (model_name : string)
    (temperature : float) :
  match get_llm_agent environ model_name temperature with
  | inr m =>
      selects model_name (chat m) /\
      m = mk_chat (chat m) model_name temperature (api_key m) /\
      environ !! key_variable (chat m) = Some (api_key m) /\ api_key m <> ""
  | inl msg =>
      (msg = ("Unsupported model: " ++ model_name)%string /\
       forall c, Py.contains (keyword c) model_name = false) \/
      (exists c, selects model_name c /\
                 msg = (key_variable c ++ " is missing")%string /\
                 (environ !! key_variable c = None \/
                  environ !! key_variable c = Some ""))
  end.
Proof.
  unfold get_llm_agent.
  destruct (Py.contains "gpt" model_name) eqn:H1;
    [|destruct (Py.contains "claude" model_name) eqn:H2;
      [|destruct (Py.contains "gemini" model_name) eqn:H3;
        [|destruct (Py.contains "llama" model_name) eqn:H4]]].
  1-4: match goal with
       | |- context [build ?env ?c ?mn ?tmp] =>
           pose proof (build_spec env c mn tmp) as Hb;
           destruct (build env c mn tmp) as [msg|m];
           [destruct Hb as [-> Hk]; right; exists c;
            split; [split; [assumption|repeat constructor; assumption]|];
            split; [reflexivity|exact Hk]
           |destruct Hb as (Hm & Hk & Hne);
            assert (Hc : chat m = c) by (rewrite Hm; reflexivity);
            rewrite Hc;
            split; [split; [assumption|repeat constructor; assumption]|];
            split; [exact Hm|]; split; assumption]
       end.
  left. split; [reflexivity|]. intros []; assumption.
Qed.

Lemma recoil_hits_the_acting_hero_example :
  let t := initialize_team Scenario.team_1 in
  recoil 40 (Some 0) t
  = Some (<[0%nat := lose_health 40 (mk_hero 0 "Argonian" 400 200 alive false false 0 200
                                             Pool.counter_text Pool.aoe_text)]> t).
Proof.
  intros t.
  apply (proj2 (recoil_hits_the_acting_hero 40 t) ltac:(lia)).
  reflexivity.
Defined.

Lemma difficulty_scaling_effect_example :
  exists f hp ap,
    Py.sqrt 4 = inr f /\
    Py.int_mul 400 f = inr hp /\ Py.int_mul 200 f = inr ap /\
    Forall (fun e' => initial_health e'.2 = Some hp /\
                      initial_attack_power e'.2 = Some ap)
           (prod_map id (scale_info 800 400) <$> Scenario.team_1).
Proof.
  assert (H : apply_difficulty_scaling Scenario.team_1 4
              = inr (prod_map id (scale_info 800 400) <$> Scenario.team_1))
    by reflexivity.
  apply (proj2 (proj2 (proj2 (difficulty_scaling_effect Scenario.team_1 4)) _ H)).
  - reflexivity.
  - discriminate.
Defined.


Lemma turn_frame_example :
  let g0 := mk_game (initialize_team Scenario.team_3) (initialize_team Scenario.team_1) ∅ ∅ in
  perform_turn Scenario.idle_script TeamA 1 g0
  = Ret (Some CONTINUE)
        (set_manager TeamA
           (alter (fun h => set_attack_power (attack_power h + 20)
                              (set_subtle_shield true h)) 3%nat
                  (initialize_team Scenario.team_3)) g0).
Proof.
  intros g0.
  apply (proj2 (turn_frame Scenario.idle_script TeamA 1 g0)
           (Scenario.on_teammate 3 "Breton" Pool.subtle_text 3) 200).
  vm_compute. reflexivity.
Defined.
